(** * Echomindr: keyword extraction, ingestion helpers, query endpoints

    A shallow embedding of the parts of [echomindr_api.py],
    [echomindr_build_db.py] and [echomindr_mcp.py] that decide the
    behaviour of keyword extraction, source merging, timestamped URLs,
    identifier assignment, limits, lookup and similarity ranking.

    Text is a [string] of 8-bit characters.  Python integers are [Z];
    [int()] and [str()] refuse a number of more than 4300 digits.  A
    value decoded from JSON is a [json]; a Python [set] is a [gset] of
    hashable keys; a list is a [list].  An uncaught exception is [None],
    or [Raise] in the endpoints, where a response that the declared
    response model refuses is [Raise ResponseValidationError].

    Three things the code takes from outside are parameters of the
    model: the identifier generator [uuid4], the JSON codec
    ([json_dumps], [json_loads]) on the text of the [tags] column, and
    the full-text index, which a [store] carries next to its table as a
    function from match expressions to ranked records. *)

From Stdlib Require Import ZArith String Ascii List Lia Bool DecimalString.
From Stdlib Require DecimalPos.
From Stdlib Require Qcanon.
From stdpp Require Import base list strings gmap.

Open Scope string_scope.
Open Scope list_scope.
Open Scope nat_scope.

(** ** Python string primitives *)

Module PyStr.

Definition in_range (lo hi c : ascii) : bool :=
  Ascii.leb lo c && Ascii.leb c hi.

(** [str.lower()] on one character.  Only [A]..[Z] change; no other 8-bit
    character lowercases to an ASCII letter or to an apostrophe. *)
Definition lower_char (c : ascii) : ascii :=
  if in_range "A" "Z" c then ascii_of_nat (nat_of_ascii c + 32) else c.

Fixpoint lower (s : string) : string :=
  match s with
  | EmptyString => EmptyString
  | String c s' => String (lower_char c) (lower s')
  end.

(** The characters [str.strip()] and [int()] treat as white space:
    tab, line feed, vertical tab, form feed, carriage return, the
    separators 28..31, space, NEL and the no-break space. *)
Definition is_space (c : ascii) : bool :=
  let n := nat_of_ascii c in
  (((9 <=? n) && (n <=? 13)) || ((28 <=? n) && (n <=? 32))
   || (n =? 133) || (n =? 160))%nat.

Fixpoint lstrip (p : ascii -> bool) (s : string) : string :=
  match s with
  | EmptyString => EmptyString
  | String c s' => if p c then lstrip p s' else s
  end.

Fixpoint rstrip (p : ascii -> bool) (s : string) : string :=
  match s with
  | EmptyString => EmptyString
  | String c s' =>
      match rstrip p s' with
      | EmptyString => if p c then EmptyString else String c EmptyString
      | r => String c r
      end
  end.

Definition strip_with (p : ascii -> bool) (s : string) : string :=
  rstrip p (lstrip p s).

(** [s.strip()] *)
Definition strip (s : string) : string := strip_with is_space s.

Fixpoint mem_char (c : ascii) (chars : string) : bool :=
  match chars with
  | EmptyString => false
  | String d chars' => Ascii.eqb c d || mem_char c chars'
  end.

(** [s.strip(chars)] *)
Definition strip_chars (chars s : string) : string :=
  strip_with (fun c => mem_char c chars) s.

(** [s.split(sep)] for a one-character separator. *)
Fixpoint split (sep : ascii) (s : string) : list string :=
  match s with
  | EmptyString => [EmptyString]
  | String c s' =>
      if Ascii.eqb c sep then EmptyString :: split sep s'
      else match split sep s' with
           | [] => [String c EmptyString]
           | h :: t => String c h :: t
           end
  end.

(** [s.startswith(p)] *)
Definition startswith (p s : string) : bool := String.prefix p s.

(** [sub in s] *)
Fixpoint contains (sub s : string) : bool :=
  String.prefix sub s
  || match s with
     | EmptyString => false
     | String _ s' => contains sub s'
     end.

(** [sep.join(l)] *)
Fixpoint join (sep : string) (l : list string) : string :=
  match l with
  | [] => EmptyString
  | [x] => x
  | x :: l' => x +:+ sep +:+ join sep l'
  end.

Definition digit_val (c : ascii) : option Z :=
  if in_range "0" "9" c then Some (Z.of_nat (nat_of_ascii c) - 48)%Z
  else None.

(** The digits of an integer literal as [int()] reads them: decimal
    digits, single underscores allowed between two digits. *)
Fixpoint int_digits (acc : Z) (after_digit : bool) (s : string)
  : option Z :=
  match s with
  | EmptyString => if after_digit then Some acc else None
  | String c s' =>
      match digit_val c with
      | Some d => int_digits (10 * acc + d)%Z true s'
      | None =>
          if Ascii.eqb c "_" && after_digit then int_digits acc false s'
          else None
      end
  end.

(** The value [int()] reads from a literal: optional white space around
    it, an optional sign, then the digits. *)
Definition int_value (s : string) : option Z :=
  match strip s with
  | String "+" r => int_digits 0 false r
  | String "-" r => Z.opp <$> int_digits 0 false r
  | r => int_digits 0 false r
  end.

(** The number of decimal digits [int()] reads and [str()] writes at
    most ([sys.get_int_max_str_digits()]; the program leaves it at its
    default). *)
Definition MAX_STR_DIGITS : nat := 4300.

(** The digits of a text; signs, underscores and white space do not
    count. *)
Fixpoint digit_count (s : string) : nat :=
  match s with
  | EmptyString => 0
  | String c s' => (if in_range "0" "9" c then 1 else 0) + digit_count s'
  end.

(** [int(s)]; [None] stands for [ValueError], raised for a text that is
    no literal and for a literal of more than [MAX_STR_DIGITS] digits. *)
Definition int (s : string) : option Z :=
  if MAX_STR_DIGITS <? digit_count s then None else int_value s.

(** An integer written in decimal. *)
Definition decimal (n : Z) : string :=
  NilZero.string_of_int (Z.to_int n).

(** [str(n)] for an integer, also as an f-string writes it; [None]
    stands for [ValueError], raised when the integer has more than
    [MAX_STR_DIGITS] digits. *)
Definition str_of_int (n : Z) : option string :=
  if MAX_STR_DIGITS <? digit_count (decimal n) then None
  else Some (decimal n).

(** Python truthiness of an optional string: [None] and the empty
    string are false. *)
Definition truthy (v : option string) : bool :=
  match v with
  | Some (String _ _) => true
  | _ => false
  end.

End PyStr.

(** ** Keyword extraction ([echomindr_api.py]) *)

Definition STOPWORDS : gset string :=
  list_to_set [
    "i"; "im"; "my"; "me"; "we"; "our"; "a"; "an"; "the"; "is"; "are";
    "was"; "were"; "be"; "been"; "being"; "have"; "has"; "had"; "do";
    "does"; "did"; "will"; "would"; "could"; "should"; "may"; "might";
    "shall"; "can"; "need"; "dare"; "ought"; "used"; "to"; "of"; "in";
    "for"; "on"; "with"; "at"; "by"; "from"; "as"; "into"; "through";
    "during"; "before"; "after"; "above"; "below"; "between"; "out";
    "off"; "over"; "under"; "again"; "further"; "then"; "once"; "here";
    "there"; "when"; "where"; "why"; "how"; "all"; "both"; "each";
    "few"; "more"; "most"; "other"; "some"; "such"; "no"; "nor"; "not";
    "only"; "own"; "same"; "so"; "than"; "too"; "very"; "just"; "don";
    "dont"; "t"; "s"; "and"; "but"; "or"; "if"; "about"; "it"; "its";
    "that"; "this"; "what"; "which"; "who"; "whom"; "these"; "those";
    "am"; "been"; "having"; "doing"; "because"; "until"; "while";
    "up"; "down"; "whether"; "considering"; "sure"; "really"; "think";
    "know"; "like"; "want"; "get"; "got"; "going"; "after"
  ].

(** The character class [[a-zA-Z']]. *)
Definition is_token_char (c : ascii) : bool :=
  PyStr.in_range "a" "z" c || PyStr.in_range "A" "Z" c || Ascii.eqb c "'".

(** A finished run of class characters is a match when it has at least
    three of them. *)
Definition emit_run (run : string) : list string :=
  if (3 <=? String.length run)%nat then [run] else [].

(** [re.findall(r"[a-zA-Z']{3,}", s)]: the maximal runs of class
    characters of length three or more, left to right.  [run] is the run
    read so far. *)
Fixpoint findall_from (run s : string) : list string :=
  match s with
  | EmptyString => emit_run run
  | String c s' =>
      if is_token_char c then findall_from (run +:+ String c EmptyString) s'
      else emit_run run ++ findall_from EmptyString s'
  end.

Definition findall_words (s : string) : list string :=
  findall_from EmptyString s.

(** One turn of the deduplication loop: [seen] is the set, [unique] the
    list built so far. *)
Definition dedup_step (st : gset string * list string) (kw : string)
  : gset string * list string :=
  if decide (kw ∈ st.1) then st else ({[kw]} ∪ st.1, st.2 ++ [kw]).

Definition dedup (keywords : list string) : list string :=
  (fold_left dedup_step keywords (∅, [])).2.

Definition extract_keywords (text : string) : list string :=
  let words := findall_words (PyStr.lower text) in
  let keywords :=
    (PyStr.strip_chars "'")
      <$> (filter (λ w, (w ∉ STOPWORDS) ∧ (3 ≤ String.length w)%nat) words) in
  dedup keywords.

(** ** Ingestion ([echomindr_build_db.py]) *)

(** What a JSON object holds under a key whose values are text: nothing,
    [null], or a string. *)
Inductive field : Type :=
| Absent
| Null
| Text (s : string).

(** [d.get(k)]: [None] is Python's [None]. *)
Definition get (f : field) : option string :=
  match f with
  | Text s => Some s
  | _ => None
  end.

(** [d.get(k, dflt)] *)
Definition get_or (dflt : string) (f : field) : option string :=
  match f with
  | Absent => Some dflt
  | Null => None
  | Text s => Some s
  end.

(** [a or b] on optional strings. *)
Definition py_or (a b : option string) : option string :=
  if PyStr.truthy a then a else b.

(** [moment["source"]] and [meta.json] carry the same keys. *)
Record source_fields : Type := {
  f_podcast : field;
  f_episode : field;
  f_guest : field;
  f_date : field;
  f_url : field
}.

(** The empty dict [{}]. *)
Definition no_fields : source_fields :=
  {| f_podcast := Absent; f_episode := Absent; f_guest := Absent;
     f_date := Absent; f_url := Absent |}.

Record raw_context : Type := {
  ctx_stage : field;
  ctx_situation : field
}.

(** One entry of a [moments.json] (or of the sample file).  [mo_context]
    and [mo_source] are [None] when the key is missing or [null];
    [mo_tags] is [moment.get("tags") or []]. *)
Record raw_moment : Type := {
  mo_id : field;
  mo_type : field;
  mo_timestamp : field;
  mo_summary : field;
  mo_quote : field;
  mo_decision : field;
  mo_outcome : field;
  mo_lesson : field;
  mo_stage : field;
  mo_situation : field;
  mo_context : option raw_context;
  mo_tags : list string;
  mo_source : option source_fields
}.

(** The dict [resolve_source] returns. *)
Record source : Type := {
  src_podcast : option string;
  src_episode : option string;
  src_guest : string;
  src_date : option string;
  src_url : string
}.

(** A record of the [moments] table.  Every column but the key may hold
    [NULL] on the Python side; [type] and [summary] are declared
    [NOT NULL]. *)
Record row : Type := {
  row_id : string;
  row_type : option string;
  row_timestamp : option string;
  row_summary : option string;
  row_quote : option string;
  row_decision : option string;
  row_outcome : option string;
  row_lesson : option string;
  row_stage : option string;
  row_situation : option string;
  row_tags : option string;
  row_podcast : option string;
  row_episode : option string;
  row_guest : option string;
  row_episode_date : option string;
  row_source_url : option string;
  row_url_at_moment : option string
}.

Definition parse_timestamp_to_seconds (ts : option string) : option Z :=
  match ts with
  | Some (String _ _ as t) =>
      match mapM PyStr.int (PyStr.split ":" (PyStr.strip t)) with
      | Some [m; s] => Some (m * 60 + s)%Z
      | Some [h; m; s] => Some (h * 3600 + m * 60 + s)%Z
      | _ => None
      end
  | _ => None
  end.

Definition YOUTUBE_WATCH : string := "https://www.youtube.com/watch?v=".

(** [build_url_at_moment(base_url, timestamp)].  The outer [None]
    stands for the [ValueError] of the f-string when the seconds have
    more digits than [str()] writes; [Some None] is Python's [None]. *)
Definition build_url_at_moment (base_url timestamp : option string)
  : option (option string) :=
  match base_url with
  | Some (String _ _ as url) =>
      if negb (PyStr.startswith YOUTUBE_WATCH url) then Some None
      else
        match parse_timestamp_to_seconds timestamp with
        | None => Some (Some url)
        | Some seconds =>
            let sep := if PyStr.contains "?" url then "&" else "?" in
            text ← PyStr.str_of_int seconds;
            Some (Some (url +:+ sep +:+ "t=" +:+ text +:+ "s"))
        end
  | _ => Some None
  end.

(** [resolve_source(moment, meta)].  The result is [None] when the
    function raises: [url.startswith] or ["TODO" in guest] applied to
    Python's [None], which a [null] in the raw source produces. *)
Definition resolve_source (moment : raw_moment) (meta : source_fields)
  : option source :=
  let src := default no_fields (mo_source moment) in
  url0 ← py_or (get (f_url meta)) (get_or "" (f_url src));
  let url := if PyStr.startswith "ytsearch1:" url0 then "" else url0 in
  guest0 ← py_or (get (f_guest meta)) (get_or "" (f_guest src));
  guest1 ← (if PyStr.contains "TODO" guest0 then get_or "" (f_guest src)
            else Some guest0);
  let guest := if PyStr.contains "TODO" guest1 then "" else guest1 in
  Some {| src_podcast := py_or (get (f_podcast meta))
                               (get_or "" (f_podcast src));
          src_episode := py_or (get (f_episode meta))
                               (get_or "" (f_episode src));
          src_guest := guest;
          src_date := py_or (get (f_date meta)) (get_or "" (f_date src));
          src_url := url |}.

(** [INSERT INTO moments]: [None] stands for [sqlite3.IntegrityError],
    raised for a [NULL] in a [NOT NULL] column or a primary key already
    in the table. *)
Definition sql_insert (table : list row) (r : row) : option (list row) :=
  match row_type r, row_summary r with
  | Some _, Some _ =>
      if decide (row_id r ∈ row_id <$> table) then None
      else Some (table ++ [r])
  | _, _ => None
  end.

(** What the build finds under [episodes/<dir>/moments.json]. *)
Inductive moments_file : Type :=
| FileMissing
| FileUnparseable
| FileData (moments : list raw_moment).

Record episode : Type := {
  ep_moments : moments_file;
  ep_meta : source_fields
}.

(** The state a build threads through its loops: how many identifiers
    the generator has handed out, the table, the two counters the build
    prints, and [stats["by_stage"]], the count of moments per stage key,
    where the key [None] is Python's [None].  The full-text rows are
    written from strings after the loop and cannot fail; the statistics
    by type and by podcast are keyed by strings and the sets of tags and
    guests are only counted: they are left out. *)
Record build_state : Type := {
  uuids_drawn : nat;
  table : list row;
  total : nat;
  skipped_files : nat;
  by_stage : gmap (option string) nat
}.

Definition empty_build : build_state :=
  {| uuids_drawn := 0; table := []; total := 0; skipped_files := 0;
     by_stage := ∅ |}.

(** [d[key] += 1] on a [defaultdict(int)] *)
Definition count_up (key : option string) (d : gmap (option string) nat)
  : gmap (option string) nat :=
  <[key := S (default 0 (d !! key))]> d.

(** Whether [sorted(d.items())] returns.  The items are pairs led by
    the key, and Python cannot order [None] and a string: the sort raises
    [TypeError] as soon as [None] is one of two keys or more. *)
Definition sorted_items_ok (d : gmap (option string) nat) : bool :=
  negb (bool_decide (is_Some (d !! None)) && (2 <=? size d)).

(** A [for] loop whose body may raise: the state after the last item,
    or [None] as soon as one turn raises. *)
Fixpoint for_each {S A : Type} (body : S -> A -> option S) (st : S)
    (items : list A) : option S :=
  match items with
  | [] => Some st
  | x :: items' => st' ← body st x; for_each body st' items'
  end.

Section Ingestion.

(** [str(uuid.uuid4())]: the [n]-th identifier the generator hands out. *)
Variable uuid4 : nat -> string.

(** [json.dumps(tags, ensure_ascii=False)] *)
Variable json_dumps : list string -> string.

(** The body of the loop over one episode's moments in [build_db]. *)
Definition ingest_moment (meta : source_fields) (st : build_state)
    (moment : raw_moment) : option build_state :=
  src ← resolve_source moment meta;
  let ts := get_or "" (mo_timestamp moment) in
  url_at ← build_url_at_moment (Some (src_url src)) ts;
  let context :=
    default {| ctx_stage := Absent; ctx_situation := Absent |}
            (mo_context moment) in
  let tags_str := json_dumps (mo_tags moment) in
  let moment_id := uuid4 (uuids_drawn st) in
  let r :=
    {| row_id := moment_id;
       row_type := get_or "unknown" (mo_type moment);
       row_timestamp := ts;
       row_summary := get_or "" (mo_summary moment);
       row_quote := get (mo_quote moment);
       row_decision := get (mo_decision moment);
       row_outcome := get (mo_outcome moment);
       row_lesson := get (mo_lesson moment);
       row_stage := get (ctx_stage context);
       row_situation := get (ctx_situation context);
       row_tags := Some tags_str;
       row_podcast := src_podcast src;
       row_episode := src_episode src;
       row_guest := Some (src_guest src);
       row_episode_date := src_date src;
       row_source_url := Some (src_url src);
       row_url_at_moment := url_at |} in
  table' ← sql_insert (table st) r;
  Some {| uuids_drawn := S (uuids_drawn st);
          table := table';
          total := S (total st);
          skipped_files := skipped_files st;
          by_stage :=
            count_up (get_or "unknown" (ctx_stage context)) (by_stage st) |}.

Definition skip_file (st : build_state) : build_state :=
  {| uuids_drawn := uuids_drawn st;
     table := table st;
     total := total st;
     skipped_files := S (skipped_files st);
     by_stage := by_stage st |}.

(** The body of the loop over the episode directories. *)
Definition ingest_episode (st : build_state) (ep : episode)
  : option build_state :=
  match ep_moments ep with
  | FileMissing => Some st
  | FileUnparseable => Some (skip_file st)
  | FileData [] => Some (skip_file st)
  | FileData moments => for_each (ingest_moment (ep_meta ep)) st moments
  end.

(** [build_db()], on the episode directories in sorted order, from an
    empty database.  [None]: the build died on an uncaught exception,
    in the loop or, once the database is written, in the summary it
    prints, where the stage counts are sorted by key. *)
Definition build_db (episode_dirs : list episode) : option build_state :=
  st ← for_each ingest_episode empty_build episode_dirs;
  if sorted_items_ok (by_stage st) then Some st else None.

(** The body of the loop of [build_sample_db]. *)
Definition ingest_sample (st : build_state) (m : raw_moment)
  : option build_state :=
  let src := default no_fields (mo_source m) in
  let tags_str := json_dumps (mo_tags m) in
  let ts := get_or "" (mo_timestamp m) in
  url_at ← build_url_at_moment (get_or "" (f_url src)) ts;
  let '(moment_id, drawn) :=
    match get (mo_id m) with
    | Some (String _ _ as given) => (given, uuids_drawn st)
    | _ => (uuid4 (uuids_drawn st), S (uuids_drawn st))
    end in
  let r :=
    {| row_id := moment_id;
       row_type := get_or "unknown" (mo_type m);
       row_timestamp := ts;
       row_summary := get_or "" (mo_summary m);
       row_quote := get (mo_quote m);
       row_decision := get (mo_decision m);
       row_outcome := get (mo_outcome m);
       row_lesson := get (mo_lesson m);
       row_stage := get (mo_stage m);
       row_situation := get (mo_situation m);
       row_tags := Some tags_str;
       row_podcast := get (f_podcast src);
       row_episode := get (f_episode src);
       row_guest := get (f_guest src);
       row_episode_date := get (f_date src);
       row_source_url := get (f_url src);
       row_url_at_moment := url_at |} in
  table' ← sql_insert (table st) r;
  Some {| uuids_drawn := drawn;
          table := table';
          total := S (total st);
          skipped_files := skipped_files st;
          by_stage := by_stage st |}.

(** [build_sample_db()], on the entries of the sample file. *)
Definition build_sample_db (moments : list raw_moment)
  : option build_state :=
  for_each ingest_sample empty_build moments.

End Ingestion.

(** ** Query endpoints ([echomindr_api.py]) *)

(** How a request can fail: the handler raises [HTTPException]; the
    framework rejects the request before the handler runs; another
    exception escapes the handler; or what the handler returns does not
    fit the endpoint's [response_model].  A client sees the last two as
    status 500. *)
Inductive failure : Type :=
| HTTPException (status_code : Z) (detail : string)
| RequestValidationError
| UncaughtException
| ResponseValidationError.

(** An endpoint either returns a value or raises. *)
Inductive outcome (A : Type) : Type :=
| Return (a : A)
| Raise (e : failure).

Arguments Return {A} a.
Arguments Raise {A} e.

Definition bind {A B : Type} (m : outcome A) (k : A -> outcome B)
  : outcome B :=
  match m with
  | Return a => k a
  | Raise e => Raise e
  end.

Notation "'let!' x ':=' m 'in' k" := (bind m (fun x => k))
  (at level 10, x name, m at level 100, k at level 200).

(** A Python value that is [None] when an uncaught exception would have
    been raised. *)
Definition or_uncaught {A : Type} (v : option A) : outcome A :=
  match v with
  | Some a => Return a
  | None => Raise UncaughtException
  end.

(** A response value that is [None] when the response model refuses
    it. *)
Definition or_invalid {A : Type} (v : option A) : outcome A :=
  match v with
  | Some a => Return a
  | None => Raise ResponseValidationError
  end.

(** *** JSON values

    What [json.loads] returns: [None], a [bool], a number, a [str], a
    [list] or a [dict] (its members in order, each key once).  A number
    is an [int] or a [float]; Python compares and hashes the two by
    value, so a finite number is kept as the rational it denotes. *)
Inductive number : Type :=
| Finite (q : Qcanon.Qc)
| Infinity (negative : bool)
| NaN.

#[warnings="-register-all"]
Inductive json : Type :=
| JNull
| JBool (b : bool)
| JNumber (n : number)
| JString (s : string)
| JArray (items : list json)
| JObject (members : list (string * json)).

(** The hashable values among them, up to Python's equality: [True] and
    [False] are the numbers 1 and 0, and the one [NaN] object the
    decoder hands out is equal to itself in a set. *)
Inductive key : Type :=
| KNone
| KNumber (n : number)
| KString (s : string).

Global Instance number_eq_dec : EqDecision number.
Proof. solve_decision. Defined.

Global Instance number_countable : Countable number.
Proof.
  refine (inj_countable'
    (λ n, match n with
          | Finite q => inl q
          | Infinity b => inr (Some b)
          | NaN => inr None
          end)
    (λ e, match e with
          | inl q => Finite q
          | inr (Some b) => Infinity b
          | inr None => NaN
          end) _).
  intros [q|b|]; reflexivity.
Defined.

Global Instance key_eq_dec : EqDecision key.
Proof. solve_decision. Defined.

Global Instance key_countable : Countable key.
Proof.
  refine (inj_countable'
    (λ k, match k with
          | KNone => inl ()
          | KNumber n => inr (inl n)
          | KString s => inr (inr s)
          end)
    (λ e, match e with
          | inl _ => KNone
          | inr (inl n) => KNumber n
          | inr (inr s) => KString s
          end) _).
  intros [|n|s]; reflexivity.
Defined.

Definition zero : Qcanon.Qc := Qcanon.Q2Qc (QArith_base.Qmake 0 1).
Definition one : Qcanon.Qc := Qcanon.Q2Qc (QArith_base.Qmake 1 1).

(** Python truthiness of a decoded value: [if not v]. *)
Definition truthy_json (v : json) : bool :=
  match v with
  | JNull => false
  | JBool b => b
  | JNumber (Finite q) => negb (bool_decide (q = zero))
  | JNumber _ => true
  | JString s => negb (bool_decide (s = ""))
  | JArray items => match items with [] => false | _ => true end
  | JObject members => match members with [] => false | _ => true end
  end.

(** [hash(v)] succeeds: lists and dicts are unhashable. *)
Definition hashable (v : json) : option key :=
  match v with
  | JNull => Some KNone
  | JBool b => Some (KNumber (Finite (if b then one else zero)))
  | JNumber n => Some (KNumber n)
  | JString s => Some (KString s)
  | JArray _ | JObject _ => None
  end.

(** [set(v)]: the items of a list, the keys of a dict, the characters
    of a string.  [None] stands for [TypeError]: [v] is not iterable, or
    one of its items is unhashable. *)
Definition py_set (v : json) : option (gset key) :=
  match v with
  | JArray items => list_to_set <$> mapM hashable items
  | JObject members => Some (list_to_set ((λ kv, KString kv.1) <$> members))
  | JString s =>
      Some (list_to_set ((λ c, KString (String c EmptyString))
                           <$> list_ascii_of_string s))
  | JNull | JBool _ | JNumber _ => None
  end.

(** A value the response models take for a field declared [list[str]]:
    a list whose items are all strings. *)
Definition as_str_list (v : json) : option (list string) :=
  match v with
  | JArray items =>
      mapM (λ item, match item with JString s => Some s | _ => None end)
           items
  | _ => None
  end.

(** The [source] object of a formatted moment. *)
Record moment_source : Type := {
  ms_podcast : option string;
  ms_episode : option string;
  ms_guest : option string;
  ms_date : option string;
  ms_url : option string;
  ms_url_at_moment : option string
}.

(** The dict [format_moment] returns; its [tags] are what [json.loads]
    made of the column, whatever that is. *)
Record moment_dict : Type := {
  d_id : string;
  d_type : option string;
  d_timestamp : option string;
  d_summary : option string;
  d_quote : option string;
  d_decision : option string;
  d_outcome : option string;
  d_lesson : option string;
  d_stage : option string;
  d_situation : option string;
  d_tags : json;
  d_source : moment_source
}.

(** A [Moment] of a response: a dict that went through the response
    model. *)
Record moment : Type := {
  m_id : string;
  m_type : option string;
  m_timestamp : option string;
  m_summary : option string;
  m_quote : option string;
  m_decision : option string;
  m_outcome : option string;
  m_lesson : option string;
  m_stage : option string;
  m_situation : option string;
  m_tags : list string;
  m_source : moment_source
}.

(** What the full-text engine makes of a match expression: an error
    message, or the matching records, best rank first. *)
Inductive fts_result : Type :=
| FtsError (message : string)
| FtsRows (ranked : list row).

(** The database the endpoints read: the [moments] table in scan order
    and the full-text index over it. *)
Record store : Type := {
  moments_table : list row;
  moments_fts : string -> fts_result
}.

Record SearchResponse : Type := {
  sr_query : string;
  sr_filters : list (string * string);
  sr_count : nat;
  sr_moments : list moment
}.

(** The request body of [/situation], once validated. *)
Record SituationRequest : Type := {
  body_situation : string;
  body_stage : option string;
  body_limit : Z
}.

Record SituationResponse : Type := {
  sit_situation : string;
  sit_query_keywords : list string;
  sit_stage_filter : option string;
  sit_count : nat;
  sit_moments : list moment
}.

Record SimilarResponse : Type := {
  sim_source_id : string;
  sim_source_tags : list string;
  sim_count : nat;
  sim_moments : list moment
}.

(** What an agent tool has in hand before it writes its prose: the
    failure it reports as [Error: ...], or a header list (the extracted
    keywords, the source's tags) and the moments. *)
Inductive tool_reply : Type :=
| ErrorText (e : failure)
| Experiences (header : list string) (moments : list moment).

(** An integer parameter declared with a default and the bounds [ge] and
    [le] ([Query(5, ge=1, le=20)], [Field(5, ge=1, le=20)]): the framework
    rejects a value outside the bounds before the handler runs. *)
Definition bounded_int (dflt ge le : Z) (given : option Z) : outcome Z :=
  match given with
  | None => Return dflt
  | Some v =>
      if ((ge <=? v) && (v <=? le))%Z then Return v
      else Raise RequestValidationError
  end.

(** [LIMIT n]: a negative [n] means no limit. *)
Definition sql_limit {A : Type} (n : Z) (l : list A) : list A :=
  if (n <? 0)%Z then l else take (Z.to_nat n) l.

(** [l[:n]] *)
Definition slice_to {A : Type} (n : Z) (l : list A) : list A :=
  if (0 <=? n)%Z then take (Z.to_nat n) l
  else take (length l - Z.to_nat (- n)) l.

(** [text LIKE pattern]: [%] matches any run of characters, [_] any one
    character, letters match without regard to case. *)
Fixpoint sql_like (pattern text : string) : bool :=
  match pattern with
  | EmptyString =>
      match text with
      | EmptyString => true
      | _ => false
      end
  | String "%" p' =>
      (fix skip (t : string) : bool :=
         sql_like p' t
         || match t with
            | EmptyString => false
            | String _ t' => skip t'
            end) text
  | String "_" p' =>
      match text with
      | EmptyString => false
      | String _ t' => sql_like p' t'
      end
  | String c p' =>
      match text with
      | EmptyString => false
      | String d t' =>
          Ascii.eqb (PyStr.lower_char c) (PyStr.lower_char d)
          && sql_like p' t'
      end
  end.

(** [column = ?] when the filter is given; a [NULL] column never
    matches. *)
Definition sql_eq_filter (param column : option string) : bool :=
  if PyStr.truthy param then bool_decide (column = param) else true.

(** [column LIKE ?] with the parameter wrapped in [%]. *)
Definition sql_like_filter (param column : option string) : bool :=
  match param, column with
  | Some (String _ _ as p), Some c => sql_like ("%" +:+ p +:+ "%") c
  | Some (String _ _), None => false
  | _, _ => true
  end.

(** [{k: v for k, v in {...}.items() if v}] *)
Definition active (params : list (string * option string))
  : list (string * string) :=
  omap (λ kv, match kv.2 with
              | Some (String _ _ as v) => Some (kv.1, v)
              | _ => None
              end) params.

(** The sort key [(x[0], x[1])] and Python's order on such pairs. *)
Definition sort_key (x : nat * nat * row) : nat * nat := (x.1.1, x.1.2).

Definition key_lt (a b : nat * nat) : Prop :=
  a.1 < b.1 ∨ (a.1 = b.1 ∧ a.2 < b.2).

Global Instance key_lt_dec a b : Decision (key_lt a b).
Proof. unfold key_lt. apply _. Defined.

(** [scored.sort(key=..., reverse=True)].  Python's sort is stable, also
    in reverse: entries come out by decreasing key and entries with equal
    keys keep their order.  That fixes the result; it is built here by
    stable insertion from the right. *)
Fixpoint insert_desc (x : nat * nat * row) (l : list (nat * nat * row))
  : list (nat * nat * row) :=
  match l with
  | [] => [x]
  | y :: l' =>
      if decide (key_lt (sort_key x) (sort_key y))
      then y :: insert_desc x l'
      else x :: y :: l'
  end.

Fixpoint sort_desc (l : list (nat * nat * row)) : list (nat * nat * row) :=
  match l with
  | [] => []
  | x :: l' => insert_desc x (sort_desc l')
  end.

Section Endpoints.

(** [json.loads] on the text of a [tags] column: the value it decodes
    to, or [None] when it raises. *)
Variable json_loads : string -> option json.

(** [json.loads(row["tags"]) if row["tags"] else []] *)
Definition load_tags (r : row) : option json :=
  match row_tags r with
  | Some (String _ _ as text) => json_loads text
  | _ => Some (JArray [])
  end.

(** [format_moment(row)]; [None] when [json.loads] raises. *)
Definition format_moment (r : row) : option moment_dict :=
  tags ← load_tags r;
  Some {| d_id := row_id r;
          d_type := row_type r;
          d_timestamp := row_timestamp r;
          d_summary := row_summary r;
          d_quote := row_quote r;
          d_decision := row_decision r;
          d_outcome := row_outcome r;
          d_lesson := row_lesson r;
          d_stage := row_stage r;
          d_situation := row_situation r;
          d_tags := tags;
          d_source :=
            {| ms_podcast := row_podcast r;
               ms_episode := row_episode r;
               ms_guest := row_guest r;
               ms_date := row_episode_date r;
               ms_url := row_source_url r;
               ms_url_at_moment := row_url_at_moment r |} |}.

(** The [Moment] response model on such a dict: [type] and [summary]
    are declared [str] and must not be [None], [tags] is declared
    [list[str]]; every other field is an optional string, as the columns
    are.  [None]: the dict is refused. *)
Definition validate_Moment (d : moment_dict) : option moment :=
  tags ← as_str_list (d_tags d);
  match d_type d, d_summary d with
  | Some _, Some _ =>
      Some {| m_id := d_id d;
              m_type := d_type d;
              m_timestamp := d_timestamp d;
              m_summary := d_summary d;
              m_quote := d_quote d;
              m_decision := d_decision d;
              m_outcome := d_outcome d;
              m_lesson := d_lesson d;
              m_stage := d_stage d;
              m_situation := d_situation d;
              m_tags := tags;
              m_source := d_source d |}
  | _, _ => None
  end.

(** [SELECT * FROM moments WHERE id = ?] and [fetchone()]. *)
Definition fetch_by_id (db : store) (moment_id : string) : option row :=
  head (filter (λ r, row_id r = moment_id) (moments_table db)).

(** The [SELECT ... WHERE moments_fts MATCH ? AND ... ORDER BY f.rank
    LIMIT ?] both search endpoints run, [keep] being the conjunction of
    the extra filters. *)
Definition run_search (db : store) (fts_query : string)
    (keep : row -> bool) (limit : Z) : string + list row :=
  match moments_fts db fts_query with
  | FtsError message => inl message
  | FtsRows ranked => inr (sql_limit limit (filter (λ r, keep r) ranked))
  end.

(** [GET /search] *)
Definition search (db : store) (q : string)
    (stage type_ podcast : option string) (limit : option Z)
  : outcome SearchResponse :=
  let! limit := bounded_int 5 1 20 limit in
  match PyStr.strip q with
  | EmptyString => Raise (HTTPException 400 "Query 'q' cannot be empty")
  | fts_query =>
      let keep r :=
        sql_eq_filter stage (row_stage r)
        && sql_eq_filter type_ (row_type r)
        && sql_like_filter podcast (row_podcast r) in
      match run_search db fts_query keep limit with
      | inl e => Raise (HTTPException 400 ("Invalid query: " +:+ e))
      | inr rows =>
          let! moments := or_uncaught (mapM format_moment rows) in
          let active_filters :=
            active [("stage", stage); ("type", type_);
                    ("podcast", podcast)] in
          let! validated := or_invalid (mapM validate_Moment moments) in
          Return {| sr_query := q;
                    sr_filters := active_filters;
                    sr_count := length moments;
                    sr_moments := validated |}
      end
  end.

(** [GET /moments/{moment_id}] *)
Definition get_moment (db : store) (moment_id : string)
  : outcome moment :=
  match fetch_by_id db moment_id with
  | None =>
      Raise (HTTPException 404 ("Moment '" +:+ moment_id +:+ "' not found"))
  | Some r =>
      let! d := or_uncaught (format_moment r) in
      or_invalid (validate_Moment d)
  end.

(** One turn of the scoring loop: [None] when the candidate is passed
    over, because its tags do not decode or share nothing with the
    source's. *)
Definition score_candidate (source_tag_set : gset key)
    (source_stage : option string) (c : row) : option (nat * nat * row) :=
  c_tags ← (row_tags c ≫= json_loads) ≫= py_set;
  let shared := size (source_tag_set ∩ c_tags) in
  if decide (0 < shared) then
    let same_stage := if decide (row_stage c = source_stage) then 1 else 0 in
    Some (shared, same_stage, c)
  else None.

(** [SELECT * FROM moments WHERE id != ? AND tags IS NOT NULL AND
    tags != '[]'] *)
Definition other_moments_with_tags (db : store) (moment_id : string)
  : list row :=
  filter (λ r, row_id r ≠ moment_id ∧ row_tags r ≠ None
               ∧ row_tags r ≠ Some "[]")
         (moments_table db).

(** The sorted [scored] list of [similar], before it is cut. *)
Definition ranked_candidates (db : store) (moment_id : string)
    (source_tag_set : gset key) (source_stage : option string)
  : list (nat * nat * row) :=
  let candidates := other_moments_with_tags db moment_id in
  let scored := omap (score_candidate source_tag_set source_stage)
                     candidates in
  sort_desc scored.

(** [GET /similar/{moment_id}] *)
Definition similar (db : store) (moment_id : string) (limit : option Z)
  : outcome SimilarResponse :=
  let! limit := bounded_int 5 1 20 limit in
  match fetch_by_id db moment_id with
  | None =>
      Raise (HTTPException 404 ("Moment '" +:+ moment_id +:+ "' not found"))
  | Some source =>
      let! source_tags := or_uncaught (load_tags source) in
      let source_stage := row_stage source in
      if negb (truthy_json source_tags) then
        Return {| sim_source_id := moment_id;
                  sim_source_tags := [];
                  sim_count := 0;
                  sim_moments := [] |}
      else
        let! source_tag_set := or_uncaught (py_set source_tags) in
        let scored :=
          ranked_candidates db moment_id source_tag_set source_stage in
        let! top :=
          or_uncaught
            (mapM (λ x, format_moment x.2) (slice_to limit scored)) in
        let! validated_tags := or_invalid (as_str_list source_tags) in
        let! validated := or_invalid (mapM validate_Moment top) in
        Return {| sim_source_id := moment_id;
                  sim_source_tags := validated_tags;
                  sim_count := length top;
                  sim_moments := validated |}
  end.

(** What the framework does with the JSON body of [POST /situation]
    before the handler runs: it builds the [SituationRequest], checking
    the bounds declared on [limit]. *)
Definition validate_SituationRequest (situation : string)
    (stage : option string) (limit : option Z) : outcome SituationRequest :=
  let! limit := bounded_int 5 1 20 limit in
  Return {| body_situation := situation;
            body_stage := stage;
            body_limit := limit |}.

(** The handler of [POST /situation]. *)
Definition situation_match (db : store) (body : SituationRequest)
  : outcome SituationResponse :=
  match PyStr.strip (body_situation body) with
  | EmptyString => Raise (HTTPException 400 "'situation' cannot be empty")
  | _ =>
      let limit := Z.max 1 (Z.min (body_limit body) 20) in
      match extract_keywords (body_situation body) with
      | [] =>
          Raise (HTTPException 400
            "No meaningful keywords found in situation description")
      | keywords =>
          let fts_query := PyStr.join " OR " keywords in
          let keep r := sql_eq_filter (body_stage body) (row_stage r) in
          match run_search db fts_query keep limit with
          | inl e => Raise (HTTPException 400 ("Search error: " +:+ e))
          | inr rows =>
              let! moments := or_uncaught (mapM format_moment rows) in
              let! validated :=
                or_invalid (mapM validate_Moment moments) in
              Return {| sit_situation := body_situation body;
                        sit_query_keywords := keywords;
                        sit_stage_filter := body_stage body;
                        sit_count := length moments;
                        sit_moments := validated |}
          end
      end
  end.

(** [POST /situation] as a client reaches it. *)
Definition post_situation (db : store) (situation : string)
    (stage : option string) (limit : option Z)
  : outcome SituationResponse :=
  let! body := validate_SituationRequest situation stage limit in
  situation_match db body.

(** ** Agent tools ([echomindr_mcp.py])

    The tools call the endpoints over HTTP and turn the answer into
    prose; what they hand to the prose formatter is kept as a
    [tool_reply], the formatting is not. *)

Definition search_experience (db : store) (situation : string)
    (stage type_ : option string) (limit : Z) : tool_reply :=
  let limit := Z.max 1 (Z.min limit 10) in
  if PyStr.truthy type_ then
    match search db situation stage type_ None (Some limit) with
    | Return data => Experiences [] (sr_moments data)
    | Raise e => ErrorText e
    end
  else
    match post_situation db situation
            (if PyStr.truthy stage then stage else None) (Some limit) with
    | Return data =>
        Experiences (sit_query_keywords data) (sit_moments data)
    | Raise e => ErrorText e
    end.

(** The two tools below write [moment_id] into the path of the URL as
    it stands, [f"/moments/{moment_id}"] and [f"/similar/{moment_id}"];
    they are modelled for identifiers that reach the endpoint as its
    path parameter unchanged, as the identifiers a full build stores do. *)
Definition get_experience_detail (db : store) (moment_id : string)
  : failure + moment :=
  match get_moment db moment_id with
  | Return m => inr m
  | Raise e => inl e
  end.

Definition find_similar_experiences (db : store) (moment_id : string)
    (limit : Z) : tool_reply :=
  let limit := Z.max 1 (Z.min limit 5) in
  match similar db moment_id (Some limit) with
  | Return data => Experiences (sim_source_tags data) (sim_moments data)
  | Raise e => ErrorText e
  end.

End Endpoints.

(** ** The claims' vocabulary *)

(** The set Python makes of a list of tags. *)
Definition tag_keys (tags : list string) : gset key :=
  list_to_set (KString <$> tags).

(** The number of tags a formatted moment shares with the source's. *)
Definition overlap (source_tags : list string) (m : moment) : nat :=
  size ((list_to_set source_tags : gset string) ∩ list_to_set (m_tags m)).

Definition same_stage (source_stage : option string) (m : moment) : Prop :=
  m_stage m = source_stage.

Section Vocabulary.

Variable json_loads : string -> option json.

(** A record as a response shows it: formatted, then taken through the
    [Moment] response model.  [None] when either step fails. *)
Definition shown (r : row) : option moment :=
  format_moment json_loads r ≫= validate_Moment.

(** [A] is the formatting of a record met before the record of [B] in a
    scan of the table. *)
Definition scanned_before (db : store) (A B : moment) : Prop :=
  ∃ p q rA rB,
    p < q
    ∧ moments_table db !! p = Some rA
    ∧ moments_table db !! q = Some rB
    ∧ shown rA = Some A
    ∧ shown rB = Some B.

(** The ranking invariant with two alternatives only, for a list of
    returned moments. *)
Definition strictly_ranked (source_tags : list string)
    (source_stage : option string) (ms : list moment) : Prop :=
  ∀ i j A B,
    i < j → ms !! i = Some A → ms !! j = Some B →
    overlap source_tags B < overlap source_tags A
    ∨ (overlap source_tags A = overlap source_tags B
       ∧ same_stage source_stage A ∧ ¬ same_stage source_stage B).

(** The ranking invariant with the tie on both keys as a third
    alternative. *)
Definition ranked_with_ties (db : store) (source_tags : list string)
    (source_stage : option string) (ms : list moment) : Prop :=
  ∀ i j A B,
    i < j → ms !! i = Some A → ms !! j = Some B →
    overlap source_tags B < overlap source_tags A
    ∨ (overlap source_tags A = overlap source_tags B
       ∧ same_stage source_stage A ∧ ¬ same_stage source_stage B)
    ∨ (overlap source_tags A = overlap source_tags B
       ∧ (same_stage source_stage A ↔ same_stage source_stage B)
       ∧ scanned_before db A B).

End Vocabulary.

(** The identifiers in the table are the generator's draws, in order,
    and no two are equal. *)
Definition ids_are_draws (uuid4 : nat -> string) (st : build_state) : Prop :=
  row_id <$> table st = uuid4 <$> seq 0 (uuids_drawn st)
  ∧ NoDup (row_id <$> table st).

(** The identifier [r] carries is the one the sample build gives to [m]:
    the moment's own [id] when it has a non-empty one, and otherwise one
    of the first [drawn] draws of the generator. *)
Definition sample_id_of (uuid4 : nat -> string) (drawn : nat)
    (m : raw_moment) (r : row) : Prop :=
  match get (mo_id m) with
  | Some (String _ _ as given) => row_id r = given
  | _ => ∃ k, k < drawn ∧ row_id r = uuid4 k
  end.

(** Every character of [s] passes [p]. *)
Fixpoint all_chars (p : ascii -> bool) (s : string) : bool :=
  match s with
  | EmptyString => true
  | String c s' => p c && all_chars p s'
  end.

(** A character [str.lower()] leaves alone. *)
Definition is_lowered (c : ascii) : bool := negb (PyStr.in_range "A" "Z" c).

(** The characters of a keyword: class characters that are lowered. *)
Definition is_keyword_char (c : ascii) : bool :=
  is_token_char c && is_lowered c.

(** The characters of an integer written by [str]: digits and the sign. *)
Definition is_number_char (c : ascii) : bool :=
  PyStr.in_range "0" "9" c || Ascii.eqb c "-".

(** The moments a full build takes in: those of the files that parse
    and are not empty, each with its episode's metadata, in order. *)
Fixpoint accepted_moments (episode_dirs : list episode)
  : list (source_fields * raw_moment) :=
  match episode_dirs with
  | [] => []
  | ep :: rest =>
      match ep_moments ep with
      | FileData moments => (λ m, (ep_meta ep, m)) <$> moments
      | _ => []
      end ++ accepted_moments rest
  end.

(** The files a full build counts as skipped: those that do not parse
    and those without moments.  A missing file is not counted. *)
Definition is_skipped (ep : episode) : bool :=
  match ep_moments ep with
  | FileUnparseable | FileData [] => true
  | _ => false
  end.

Definition skipped_count (episode_dirs : list episode) : nat :=
  length (List.filter is_skipped episode_dirs).

(** Record [r] holds what [build_db] derives from [moment] and its
    episode's metadata. *)
Definition stored_as (json_dumps : list string -> string)
    (meta : source_fields) (moment : raw_moment) (r : row) : Prop :=
  ∃ src,
    resolve_source moment meta = Some src
    ∧ row_type r = get_or "unknown" (mo_type moment)
    ∧ row_summary r = get_or "" (mo_summary moment)
    ∧ row_timestamp r = get_or "" (mo_timestamp moment)
    ∧ row_tags r = Some (json_dumps (mo_tags moment))
    ∧ row_guest r = Some (src_guest src)
    ∧ row_source_url r = Some (src_url src)
    ∧ build_url_at_moment (Some (src_url src)) (row_timestamp r)
      = Some (row_url_at_moment r).

(** [n] has no more digits than [int()] reads and [str()] writes. *)
Definition few_digits (n : Z) : bool :=
  PyStr.digit_count (PyStr.decimal n) <=? PyStr.MAX_STR_DIGITS.

(** The seconds of a timestamp, if it parses, have no more digits than
    [str()] writes. *)
Definition writable (timestamp : option string) : Prop :=
  ∀ seconds,
    parse_timestamp_to_seconds timestamp = Some seconds →
    few_digits seconds = true.

(** A moment the build can store: no [null] where a string is needed,
    and a timestamp whose seconds can be written. *)
Definition well_formed (m : raw_moment) : Prop :=
  mo_type m ≠ Null ∧ mo_summary m ≠ Null
  ∧ f_url (default no_fields (mo_source m)) ≠ Null
  ∧ f_guest (default no_fields (mo_source m)) ≠ Null
  ∧ writable (get_or "" (mo_timestamp m)).

(** The key a moment is counted under in [stats["by_stage"]]:
    [context.get("stage", "unknown")]. *)
Definition stage_key (m : raw_moment) : option string :=
  get_or "unknown"
    (ctx_stage (default {| ctx_stage := Absent; ctx_situation := Absent |}
                        (mo_context m))).

(** The stage keys of these moments can be sorted: they are all [None],
    or none of them is. *)
Definition stages_sortable (ms : list raw_moment) : Prop :=
  Forall (λ m, stage_key m = None) ms ∨ Forall (λ m, stage_key m ≠ None) ms.

(** The state of a build that has taken in the moments [acc] and skipped
    [skips] files. *)
Definition built (uuid4 : nat -> string) (json_dumps : list string -> string)
    (acc : list (source_fields * raw_moment)) (skips : nat)
    (st : build_state) : Prop :=
  uuids_drawn st = length acc
  ∧ total st = length acc
  ∧ skipped_files st = skips
  ∧ row_id <$> table st = uuid4 <$> seq 0 (length acc)
  ∧ Forall2 (λ mm r, stored_as json_dumps mm.1 mm.2 r) acc (table st)
  ∧ dom (by_stage st)
    = (list_to_set ((λ mm, stage_key mm.2) <$> acc) : gset (option string)).

(** An identifier that a URL path carries as it is: at least one
    character, each a letter, a digit, [-] or [_]. *)
Definition is_plain_id_char (c : ascii) : bool :=
  PyStr.in_range "a" "z" c || PyStr.in_range "A" "Z" c
  || PyStr.in_range "0" "9" c || Ascii.eqb c "-" || Ascii.eqb c "_".

Definition plain_id (s : string) : bool :=
  match s with
  | EmptyString => false
  | _ => all_chars is_plain_id_char s
  end.

(** The limit an integer parameter takes when the request gives none. *)
Definition given_or (dflt : Z) (limit : option Z) : Z := default dflt limit.

(** ** Concrete data for the examples *)

Definition dquote : string := String "034" EmptyString.

(** [json.dumps] of a list of tags that need no escaping. *)
Definition dumps_plain (tags : list string) : string :=
  "[" +:+ PyStr.join ", " ((λ t, dquote +:+ t +:+ dquote) <$> tags) +:+ "]".

Inductive reader : Type :=
| AtStart
| AfterOpen
| InTag (tag : string)
| AfterTag
| AfterComma
| BeforeTag
| AtEnd.

Fixpoint loads_from (st : reader) (tags : list string) (s : string)
  : option (list string) :=
  match s with
  | EmptyString =>
      match st with
      | AtEnd => Some tags
      | _ => None
      end
  | String c s' =>
      match st with
      | AtStart =>
          if Ascii.eqb c "[" then loads_from AfterOpen tags s' else None
      | AfterOpen =>
          if Ascii.eqb c "]" then loads_from AtEnd tags s'
          else if Ascii.eqb c "034" then loads_from (InTag "") tags s'
          else None
      | InTag t =>
          if Ascii.eqb c "034" then loads_from AfterTag (tags ++ [t]) s'
          else if Ascii.eqb c "\" || (nat_of_ascii c <? 32)%nat then None
          else loads_from (InTag (t +:+ String c EmptyString)) tags s'
      | AfterTag =>
          if Ascii.eqb c "]" then loads_from AtEnd tags s'
          else if Ascii.eqb c "," then loads_from AfterComma tags s'
          else None
      | AfterComma =>
          if Ascii.eqb c " " then loads_from BeforeTag tags s' else None
      | BeforeTag =>
          if Ascii.eqb c "034" then loads_from (InTag "") tags s' else None
      | AtEnd => None
      end
  end.

(** A decoder for the texts [dumps_plain] writes: on them it returns what
    [json.loads] returns, a list of strings; every other text it
    rejects.  It stands for [json.loads] in the examples whose tag texts
    are of that form or are no JSON at all. *)
Definition loads_plain (text : string) : option json :=
  (λ tags, JArray (JString <$> tags)) <$> loads_from AtStart [] text.

(** The text of a JSON object with one member. *)
Definition object_text : string :=
  "{" +:+ dquote +:+ "pricing" +:+ dquote +:+ ": 1}".

(** [loads_plain], extended to [object_text], which it decodes as
    [json.loads] does. *)
Definition loads_demo (text : string) : option json :=
  if String.eqb text object_text
  then Some (JObject [("pricing", JNumber (Finite one))])
  else loads_plain text.

Definition demo_row (id : string) (stage : option string)
    (tags : option string) : row :=
  {| row_id := id;
     row_type := Some "lesson";
     row_timestamp := Some "3:26";
     row_summary := Some "How the first customers were found";
     row_quote := None;
     row_decision := None;
     row_outcome := None;
     row_lesson := None;
     row_stage := stage;
     row_situation := None;
     row_tags := tags;
     row_podcast := Some "Indie Hackers";
     row_episode := Some "Episode 12";
     row_guest := Some "Ada";
     row_episode_date := None;
     row_source_url := None;
     row_url_at_moment := None |}.

(** Six records: [m0] is the source of the similarity examples, [m1] and
    [m2] tie with each other on both sort keys, [m4] holds a tag text
    that is no JSON. *)
Definition demo_table : list row :=
  [ demo_row "m0" (Some "mvp") (Some (dumps_plain ["pricing"; "growth"]));
    demo_row "m1" (Some "mvp") (Some (dumps_plain ["pricing"]));
    demo_row "m2" (Some "mvp") (Some (dumps_plain ["growth"; "hiring"]));
    demo_row "m3" (Some "idea") (Some (dumps_plain ["growth"; "pricing"]));
    demo_row "m4" (Some "mvp") (Some "pricing, growth");
    demo_row "m5" (Some "mvp") (Some (dumps_plain ["hiring"])) ].

(** The demo store; its index answers every expression with the records
    whose tags decode, in table order. *)
Definition demo_store : store :=
  {| moments_table := demo_table;
     moments_fts := λ _,
       FtsRows (filter (λ r, is_Some (load_tags loads_plain r)) demo_table) |}.

(** Eight records that all carry the tag [pricing]: [m0] and seven
    others. *)
Definition crowd_table : list row :=
  (λ id, demo_row id (Some "mvp") (Some (dumps_plain ["pricing"])))
    <$> ["m0"; "c1"; "c2"; "c3"; "c4"; "c5"; "c6"; "c7"].

Definition crowd_store : store :=
  {| moments_table := crowd_table;
     moments_fts := λ _, FtsRows crowd_table |}.

(** The demo table with one record more, whose tag text is a JSON
    object, not a list. *)
Definition object_store : store :=
  {| moments_table :=
       demo_table ++ [demo_row "m6" (Some "mvp") (Some object_text)];
     moments_fts := λ _, FtsRows [] |}.

(** Twelve records that all carry the tag [pricing]. *)
Definition dozen_table : list row :=
  (λ id, demo_row id (Some "mvp") (Some (dumps_plain ["pricing"])))
    <$> ["d01"; "d02"; "d03"; "d04"; "d05"; "d06";
         "d07"; "d08"; "d09"; "d10"; "d11"; "d12"].

Definition dozen_store : store :=
  {| moments_table := dozen_table;
     moments_fts := λ _, FtsRows dozen_table |}.

(** A generator for the examples: [uuid-0], [uuid-1], ... *)
Definition demo_uuid4 (n : nat) : string :=
  "uuid-" +:+ PyStr.decimal (Z.of_nat n).

Definition demo_moment (id : field) (tags : list string)
    (src : option source_fields) : raw_moment :=
  {| mo_id := id;
     mo_type := Text "decision";
     mo_timestamp := Text "1:02:03";
     mo_summary := Text "Raised prices after talking to ten customers";
     mo_quote := Absent;
     mo_decision := Absent;
     mo_outcome := Absent;
     mo_lesson := Absent;
     mo_stage := Text "mvp";
     mo_situation := Absent;
     mo_context := Some {| ctx_stage := Text "mvp"; ctx_situation := Absent |};
     mo_tags := tags;
     mo_source := src |}.

Definition demo_raw_source : source_fields :=
  {| f_podcast := Text "Indie Hackers";
     f_episode := Text "Episode 12";
     f_guest := Text "TODO: guest name";
     f_date := Absent;
     f_url := Text "ytsearch1:indie hackers episode 12" |}.

Definition demo_meta : source_fields :=
  {| f_podcast := Absent;
     f_episode := Absent;
     f_guest := Text "Ada";
     f_date := Text "2024-05-01";
     f_url := Text "https://www.youtube.com/watch?v=XYZ" |}.

(** A raw moment whose source holds [null] under [guest], and one
    whose source holds [null] under [url]. *)
Definition null_guest_moment : raw_moment :=
  demo_moment Absent ["pricing"]
    (Some {| f_podcast := Text "Indie Hackers";
             f_episode := Text "Episode 12";
             f_guest := Null;
             f_date := Absent;
             f_url := Text "https://www.youtube.com/watch?v=XYZ" |}).

Definition null_url_moment : raw_moment :=
  demo_moment Absent ["pricing"]
    (Some {| f_podcast := Text "Indie Hackers";
             f_episode := Text "Episode 12";
             f_guest := Text "Ada";
             f_date := Absent;
             f_url := Null |}).

(** Metadata as the downloader writes it when it knows no guest. *)
Definition placeholder_meta : source_fields :=
  {| f_podcast := Text "Indie Hackers";
     f_episode := Text "Episode 12";
     f_guest := Text "TODO — fill in guest name and role";
     f_date := Text "2024-05-01";
     f_url := Text "https://www.youtube.com/watch?v=XYZ" |}.

Definition demo_episodes : list episode :=
  [ {| ep_moments :=
         FileData [ demo_moment (Text "moment-001") ["pricing"]
                      (Some demo_raw_source);
                    demo_moment Absent ["growth"] None ];
       ep_meta := demo_meta |};
    {| ep_moments := FileUnparseable; ep_meta := no_fields |} ].

Definition demo_sample_file : list raw_moment :=
  [ demo_moment (Text "moment-001") ["pricing"] (Some demo_meta);
    demo_moment Absent ["growth"] None ].

(** * Theorems *)

(** ** Timestamps and timestamped URLs *)

(** C3.  ["3:26"] parses to 206 seconds and ["1:23:45"] to 5025; the
    watch URL of video XYZ with timestamp ["1:02:03"] becomes the same
    URL with [&t=3723s] appended; when a watch URL comes with a timestamp
    that does not parse, the derived URL is the canonical URL unchanged;
    and a URL that is missing, empty or does not start with the watch-URL
    prefix yields no timestamped URL at all. *)
Theorem timestamp_url_derivation :
  parse_timestamp_to_seconds (Some "3:26") = Some 206%Z
  ∧ parse_timestamp_to_seconds (Some "1:23:45") = Some 5025%Z
  ∧ build_url_at_moment (Some "https://www.youtube.com/watch?v=XYZ")
                        (Some "1:02:03")
    = Some (Some "https://www.youtube.com/watch?v=XYZ&t=3723s")
  ∧ (∀ url ts,
       PyStr.startswith YOUTUBE_WATCH url = true →
       parse_timestamp_to_seconds ts = None →
       build_url_at_moment (Some url) ts = Some (Some url))
  ∧ (∀ url ts,
       (∀ u, url = Some u → PyStr.startswith YOUTUBE_WATCH u = false) →
       build_url_at_moment url ts = Some None).
Proof.
  split; [reflexivity|]. split; [reflexivity|]. split; [vm_compute; reflexivity|].
  split.
  - intros url ts Hyt Hts. unfold build_url_at_moment.
    destruct url as [|c url]; [discriminate Hyt|].
    rewrite Hyt, Hts. reflexivity.
  - intros [[|c u]|] ts Hno; try reflexivity.
    unfold build_url_at_moment. rewrite (Hno _ eq_refl). reflexivity.
Qed.

Lemma timestamp_url_derivation_witness :
  build_url_at_moment (Some "https://www.youtube.com/watch?v=XYZ")
                      (Some "soon")
  = Some (Some "https://www.youtube.com/watch?v=XYZ")
  ∧ build_url_at_moment (Some "https://example.com/episode-12")
                        (Some "1:02:03") = Some None.
Proof.
  destruct timestamp_url_derivation as (_ & _ & _ & Hkeep & Hnone).
  split.
  - apply Hkeep; reflexivity.
  - apply Hnone. intros u Hu. injection Hu as <-. reflexivity.
Defined.

(** *** Merging the raw source with the metadata *)

Lemma get_or_not_null (f : field) :
  f ≠ Null → get_or "" f = Some (default "" (get f)).
Proof. destruct f; [reflexivity | congruence | reflexivity]. Qed.

Lemma py_or_Some (a : option string) (b : string) :
  py_or a (Some b) = Some (if PyStr.truthy a then default "" a else b).
Proof. destruct a as [[|c a]|]; reflexivity. Qed.

(** C5.  The merge is not defined for every pair: a [null] under
    [guest] or [url] in the raw source makes [resolve_source] raise when
    the metadata does not supply the value.  With the downloader's
    placeholder guest in the metadata and a [null] raw guest the
    [TODO] test is applied to [None]; with no metadata and a [null] raw
    URL the prefix test is; and a full build over an episode with such a
    moment stops there, whatever the identifiers and the encoding. *)
Theorem resolve_source_null_raises :
  resolve_source null_guest_moment placeholder_meta = None
  ∧ resolve_source null_url_moment no_fields = None
  ∧ ∀ (uuid4 : nat -> string) (json_dumps : list string -> string),
      build_db uuid4 json_dumps
        [ {| ep_moments := FileData [null_guest_moment];
             ep_meta := placeholder_meta |} ] = None.
Proof.
  split; [reflexivity|]. split; [reflexivity|].
  intros uuid4 json_dumps. reflexivity.
Qed.

(** X27.  What [resolve_source] returns, when it returns.  The URL is
    the metadata URL if that is non-empty and the raw URL otherwise,
    replaced by the empty string when it starts with [ytsearch1:], so
    the merged URL never starts with [ytsearch1:]; the guest is the
    metadata guest when that is non-empty and free of [TODO]; when the
    metadata guest is missing, empty or contains [TODO], the guest is
    the raw guest, or the empty string if the raw guest contains
    [TODO]; the merged guest never contains [TODO]. *)
Theorem resolve_source_merged (moment : raw_moment) (meta : source_fields)
    (merged : source) :
  let src := default no_fields (mo_source moment) in
  let meta_url := get (f_url meta) in
  let raw_url := default "" (get (f_url src)) in
  let meta_guest := get (f_guest meta) in
  let raw_guest := default "" (get (f_guest src)) in
  let chosen_url :=
    if PyStr.truthy meta_url then default "" meta_url else raw_url in
  resolve_source moment meta = Some merged →
  src_url merged
  = (if PyStr.startswith "ytsearch1:" chosen_url then "" else chosen_url)
  ∧ PyStr.startswith "ytsearch1:" (src_url merged) = false
  ∧ (∀ g, meta_guest = Some g → g ≠ "" → PyStr.contains "TODO" g = false →
       src_guest merged = g)
  ∧ ((PyStr.truthy meta_guest = false
      ∨ ∃ g, meta_guest = Some g ∧ PyStr.contains "TODO" g = true) →
       src_guest merged
       = if PyStr.contains "TODO" raw_guest then "" else raw_guest)
  ∧ PyStr.contains "TODO" (src_guest merged) = false.
Proof.
  cbn zeta. set (src := default no_fields (mo_source moment)).
  unfold resolve_source. fold src.
  set (meta_url := get (f_url meta)).
  set (meta_guest := get (f_guest meta)).
  destruct (py_or meta_url (get_or "" (f_url src))) as [url0|] eqn:Hurl0;
    cbn [mbind option_bind]; [|discriminate].
  destruct (py_or meta_guest (get_or "" (f_guest src))) as [guest0|]
    eqn:Hguest0; cbn [mbind option_bind]; [|discriminate].
  destruct (if PyStr.contains "TODO" guest0 then _ else _) as [guest1|]
    eqn:Hguest1; cbn [mbind option_bind]; [|discriminate].
  intros [= <-]. cbn [src_url src_guest].
  assert (Hchosen : (if PyStr.truthy meta_url then default "" meta_url
                     else default "" (get (f_url src))) = url0).
  { unfold py_or in Hurl0. destruct (PyStr.truthy meta_url).
    - rewrite Hurl0. reflexivity.
    - destruct (f_url src); cbn in Hurl0 |- *; congruence. }
  rewrite Hchosen. split; [reflexivity|].
  split; [destruct (PyStr.startswith "ytsearch1:" url0) eqn:E;
          [reflexivity | exact E]|].
  split; [|split].
  - intros g Hg Hne Hclean. unfold py_or in Hguest0. rewrite Hg in Hguest0.
    destruct g as [|c g]; [congruence|]. cbn [PyStr.truthy] in Hguest0.
    injection Hguest0 as <-. rewrite Hclean in Hguest1.
    injection Hguest1 as <-. rewrite Hclean. reflexivity.
  - assert (Hraw : ∀ g, get_or "" (f_guest src) = Some g →
                        default "" (get (f_guest src)) = g)
      by (intros g; destruct (f_guest src); cbn; congruence).
    intros Hmeta. unfold py_or in Hguest0.
    destruct (PyStr.contains "TODO" guest0) eqn:Hdirty.
    + rewrite (Hraw _ Hguest1). reflexivity.
    + injection Hguest1 as <-. rewrite Hdirty.
      destruct Hmeta as [Hfalsy | (g & Hg & Hd)].
      * rewrite Hfalsy in Hguest0. rewrite (Hraw _ Hguest0), Hdirty.
        reflexivity.
      * rewrite Hg in Hguest0. destruct g as [|c g]; [discriminate Hd|].
        cbn [PyStr.truthy] in Hguest0. congruence.
  - destruct (PyStr.contains "TODO" guest1) eqn:E; [reflexivity | exact E].
Qed.

Lemma resolve_source_merged_witness :
  ∃ merged,
    resolve_source (demo_moment Absent ["pricing"] (Some demo_meta))
                   demo_raw_source = Some merged
    ∧ src_url merged = ""
    ∧ src_guest merged = "Ada"
    ∧ PyStr.contains "TODO" (src_guest merged) = false.
Proof.
  eexists. split; [vm_compute; reflexivity|].
  destruct (resolve_source_merged
              (demo_moment Absent ["pricing"] (Some demo_meta))
              demo_raw_source _ ltac:(vm_compute; reflexivity))
    as (Hurl & _ & _ & Hguest & Hclean).
  split; [exact Hurl|]. split; [|exact Hclean].
  apply Hguest. right. eexists. split; reflexivity.
Defined.

(** ** Limits, lookups and counts *)

Lemma bounded_int_Return (dflt ge le : Z) (given : option Z) (n : Z) :
  bounded_int dflt ge le given = Return n →
  n = given_or dflt given ∧ (given = None ∨ (ge ≤ n ≤ le)%Z).
Proof.
  unfold bounded_int, given_or. destruct given as [v|]; cbn.
  - destruct (ge <=? v)%Z eqn:Hge; destruct (v <=? le)%Z eqn:Hle; cbn;
      try discriminate.
    intros [= <-]. split; [reflexivity|]. right. lia.
  - intros [= <-]. auto.
Qed.

Lemma bounded_int_outside (dflt ge le v : Z) :
  (v < ge ∨ le < v)%Z →
  bounded_int dflt ge le (Some v) = Raise RequestValidationError.
Proof.
  intros Hout. unfold bounded_int.
  destruct (ge <=? v)%Z eqn:Hge; destruct (v <=? le)%Z eqn:Hle; cbn;
    try reflexivity.
  lia.
Qed.

Lemma bounded_int_inside (dflt ge le v : Z) :
  (ge ≤ v ≤ le)%Z → bounded_int dflt ge le (Some v) = Return v.
Proof.
  intros Hin. unfold bounded_int.
  destruct (ge <=? v)%Z eqn:Hge; destruct (v <=? le)%Z eqn:Hle; cbn;
    try reflexivity; lia.
Qed.

Lemma sql_limit_length {A : Type} (n : Z) (l : list A) :
  (0 ≤ n)%Z → (Z.of_nat (length (sql_limit n l)) ≤ n)%Z.
Proof.
  intros Hn. unfold sql_limit. destruct (n <? 0)%Z eqn:Hneg; [lia|].
  rewrite length_take. lia.
Qed.

Lemma slice_to_length {A : Type} (n : Z) (l : list A) :
  (0 ≤ n)%Z → (Z.of_nat (length (slice_to n l)) ≤ n)%Z.
Proof.
  intros Hn. unfold slice_to. destruct (0 <=? n)%Z eqn:Hpos; [|lia].
  rewrite length_take. lia.
Qed.

Lemma slice_to_take {A : Type} (n : Z) (l : list A) :
  (0 ≤ n)%Z → slice_to n l = take (Z.to_nat n) l.
Proof.
  intros Hn. unfold slice_to. destruct (0 <=? n)%Z eqn:Hpos; [reflexivity|lia].
Qed.

Lemma or_uncaught_Return {A : Type} (v : option A) (a : A) :
  or_uncaught v = Return a → v = Some a.
Proof. destruct v; cbn; congruence. Qed.

Lemma or_invalid_Return {A : Type} (v : option A) (a : A) :
  or_invalid v = Return a → v = Some a.
Proof. destruct v; cbn; congruence. Qed.

Section EndpointFacts.

Variable json_loads : string -> option json.

Lemma fetch_by_id_absent (db : store) (moment_id : string) :
  (∀ r, r ∈ moments_table db → row_id r ≠ moment_id) →
  fetch_by_id db moment_id = None.
Proof.
  unfold fetch_by_id. induction (moments_table db) as [|r t IH]; intros Hno.
  - reflexivity.
  - rewrite filter_cons. destruct (decide (row_id r = moment_id)) as [Heq|_].
    + exfalso. apply (Hno r); [left | exact Heq].
    + apply IH. intros r' Hin. apply Hno. right. exact Hin.
Qed.

Lemma fetch_by_id_Some (db : store) (moment_id : string) (r : row) :
  fetch_by_id db moment_id = Some r →
  r ∈ moments_table db ∧ row_id r = moment_id.
Proof.
  unfold fetch_by_id. intros Hhead.
  assert (Hin : r ∈ filter (λ r, row_id r = moment_id) (moments_table db)).
  { destruct (filter _ _) as [|x l]; [discriminate|].
    injection Hhead as ->. left. }
  apply list_elem_of_filter in Hin. tauto.
Qed.

Lemma run_search_length (db : store) (fts_query : string)
    (keep : row -> bool) (limit : Z) (rows : list row) :
  (0 ≤ limit)%Z →
  run_search db fts_query keep limit = inr rows →
  (Z.of_nat (length rows) ≤ limit)%Z.
Proof.
  intros Hlimit. unfold run_search.
  destruct (moments_fts db fts_query); [discriminate|].
  intros [= <-]. apply sql_limit_length, Hlimit.
Qed.

(** C7.  When no record of the store carries the identifier, the
    lookup of a moment and the similarity operation (called with no
    limit or a limit within its bounds) both raise the 404 "not found"
    exception: neither returns a response. *)
Theorem unknown_id_not_found (db : store) (moment_id : string)
    (limit : option Z) :
  (∀ r, r ∈ moments_table db → row_id r ≠ moment_id) →
  (∀ v, limit = Some v → (1 ≤ v ≤ 20)%Z) →
  get_moment json_loads db moment_id
  = Raise (HTTPException 404 ("Moment '" +:+ moment_id +:+ "' not found"))
  ∧ similar json_loads db moment_id limit
    = Raise (HTTPException 404 ("Moment '" +:+ moment_id +:+ "' not found")).
Proof.
  intros Hno Hlimit. unfold get_moment, similar.
  rewrite (fetch_by_id_absent _ _ Hno). split; [reflexivity|].
  destruct limit as [v|]; [|reflexivity].
  rewrite (bounded_int_inside _ _ _ _ (Hlimit v eq_refl)). reflexivity.
Qed.

Lemma search_count (db : store) (q : string)
    (stage type_ podcast : option string) (limit : option Z)
    (r : SearchResponse) :
  search json_loads db q stage type_ podcast limit = Return r →
  sr_count r = length (sr_moments r)
  ∧ (Z.of_nat (length (sr_moments r)) ≤ given_or 5 limit)%Z.
Proof.
  unfold search.
  destruct (bounded_int 5 1 20 limit) as [n|e] eqn:Hlimit; cbn [bind];
    [|discriminate].
  apply bounded_int_Return in Hlimit as [-> Hrange].
  assert (Hpos : (0 ≤ given_or 5 limit)%Z).
  { destruct Hrange as [-> | ?]; [cbn|]; lia. }
  destruct (PyStr.strip q) as [|c fts_query]; [discriminate|].
  destruct (run_search _ _ _ _) as [e|rows] eqn:Hrows; [discriminate|].
  apply run_search_length in Hrows; [|exact Hpos].
  destruct (mapM _ rows) as [moments|] eqn:Hfmt; cbn [or_uncaught bind];
    [|discriminate].
  destruct (mapM _ moments) as [validated|] eqn:Hval;
    cbn [or_invalid bind]; [|discriminate].
  intros [= <-]. cbn. apply length_mapM in Hfmt, Hval. lia.
Qed.

Lemma situation_match_count (db : store) (body : SituationRequest)
    (r : SituationResponse) :
  situation_match json_loads db body = Return r →
  sit_count r = length (sit_moments r)
  ∧ (Z.of_nat (length (sit_moments r))
     ≤ Z.max 1 (Z.min (body_limit body) 20))%Z.
Proof.
  unfold situation_match.
  destruct (PyStr.strip (body_situation body)); [discriminate|].
  destruct (extract_keywords (body_situation body)) as [|kw kws];
    [discriminate|].
  destruct (run_search _ _ _ _) as [e|rows] eqn:Hrows; [discriminate|].
  apply run_search_length in Hrows; [|lia].
  destruct (mapM _ rows) as [moments|] eqn:Hfmt; cbn [or_uncaught bind];
    [|discriminate].
  destruct (mapM _ moments) as [validated|] eqn:Hval;
    cbn [or_invalid bind]; [|discriminate].
  intros [= <-]. cbn. apply length_mapM in Hfmt, Hval. lia.
Qed.

Lemma similar_count (db : store) (moment_id : string) (limit : option Z)
    (r : SimilarResponse) :
  similar json_loads db moment_id limit = Return r →
  sim_count r = length (sim_moments r)
  ∧ (Z.of_nat (length (sim_moments r)) ≤ given_or 5 limit)%Z.
Proof.
  unfold similar.
  destruct (bounded_int 5 1 20 limit) as [n|e] eqn:Hlimit; cbn [bind];
    [|discriminate].
  apply bounded_int_Return in Hlimit as [-> Hrange].
  assert (Hpos : (0 ≤ given_or 5 limit)%Z).
  { destruct Hrange as [-> | ?]; [cbn|]; lia. }
  destruct (fetch_by_id db moment_id) as [source|]; [|discriminate].
  destruct (load_tags json_loads source) as [source_tags|];
    cbn [or_uncaught bind]; [|discriminate].
  destruct (truthy_json source_tags); cbn [negb].
  - destruct (py_set source_tags) as [source_tag_set|];
      cbn [or_uncaught bind]; [|discriminate].
    destruct (mapM _ (slice_to _ _)) as [top|] eqn:Hfmt;
      cbn [or_uncaught bind]; [|discriminate].
    destruct (as_str_list source_tags) as [tags|]; cbn [or_invalid bind];
      [|discriminate].
    destruct (mapM _ top) as [validated|] eqn:Hval; cbn [or_invalid bind];
      [|discriminate].
    intros [= <-]. cbn. apply length_mapM in Hfmt, Hval.
    pose proof (slice_to_length (given_or 5 limit)
                  (ranked_candidates json_loads db moment_id source_tag_set
                     (row_stage source)) Hpos) as Hcut.
    lia.
  - intros [= <-]. cbn. split; [reflexivity|lia].
Qed.

(** C10.  Whenever keyword search, the situation handler or the
    similarity operation returns a response, its [count] is the length
    of its [moments], and that length is at most the limit in force:
    the given limit (5 when none is given) for search and similarity,
    the body's limit brought into 1..20 for the situation handler. *)
Theorem count_is_length_within_limit (db : store) (q : string)
    (stage type_ podcast : option string) (body : SituationRequest)
    (moment_id : string) (limit : option Z) :
  (∀ r, search json_loads db q stage type_ podcast limit = Return r →
        sr_count r = length (sr_moments r)
        ∧ (Z.of_nat (length (sr_moments r)) ≤ given_or 5 limit)%Z)
  ∧ (∀ r, situation_match json_loads db body = Return r →
          sit_count r = length (sit_moments r)
          ∧ (Z.of_nat (length (sit_moments r))
             ≤ Z.max 1 (Z.min (body_limit body) 20))%Z)
  ∧ (∀ r, similar json_loads db moment_id limit = Return r →
          sim_count r = length (sim_moments r)
          ∧ (Z.of_nat (length (sim_moments r)) ≤ given_or 5 limit)%Z).
Proof.
  split; [|split]; intros r.
  - apply search_count.
  - apply situation_match_count.
  - apply similar_count.
Qed.

Lemma post_situation_count (db : store) (situation : string)
    (stage : option string) (limit : option Z) (r : SituationResponse) :
  post_situation json_loads db situation stage limit = Return r →
  (Z.of_nat (length (sit_moments r)) ≤ given_or 5 limit)%Z.
Proof.
  unfold post_situation, validate_SituationRequest.
  destruct (bounded_int 5 1 20 limit) as [n|e] eqn:Hlimit; cbn [bind];
    [|discriminate].
  apply bounded_int_Return in Hlimit as [-> Hrange].
  intros Hret. apply situation_match_count in Hret as [_ Hlen].
  cbn in Hlen. destruct Hrange as [-> | ?]; [cbn in *|]; lia.
Qed.

(** C4, as the code has it.  A limit outside 1..20 makes keyword search
    raise the validation error, and makes [POST /situation] raise it
    too: the request model rejects the limit before the handler runs,
    and on every body the model accepts the handler's clamp into 1..20
    changes nothing.  The agent tools clamp.  [search_experience] sends
    a limit within 1..10 on as it is, answers a smaller one as it
    answers 1 and a larger one as it answers 10, and returns at most 10
    moments.  [find_similar_experiences] does the same with 1..5: for an
    identifier the URL path carries as it is, a limit within 1..5
    reaches the similarity operation unchanged; a smaller one is
    answered as 1, a larger one as 5, and at most 5 moments come
    back. *)
Theorem limit_rejected_or_clamped (db : store) (q situation : string)
    (stage type_ podcast : option string) (moment_id : string)
    (limit : Z) :
  ((limit < 1 ∨ 20 < limit)%Z →
   search json_loads db q stage type_ podcast (Some limit)
   = Raise RequestValidationError
   ∧ post_situation json_loads db situation stage (Some limit)
     = Raise RequestValidationError)
  ∧ (∀ given body,
       validate_SituationRequest situation stage given = Return body →
       Z.max 1 (Z.min (body_limit body) 20) = body_limit body)
  ∧ ((limit < 1)%Z →
     search_experience json_loads db situation stage type_ limit
     = search_experience json_loads db situation stage type_ 1
     ∧ find_similar_experiences json_loads db moment_id limit
       = find_similar_experiences json_loads db moment_id 1)
  ∧ ((10 < limit)%Z →
     search_experience json_loads db situation stage type_ limit
     = search_experience json_loads db situation stage type_ 10)
  ∧ ((5 < limit)%Z →
     find_similar_experiences json_loads db moment_id limit
     = find_similar_experiences json_loads db moment_id 5)
  ∧ ((1 ≤ limit ≤ 10)%Z →
     search_experience json_loads db situation stage type_ limit
     = if PyStr.truthy type_
       then match search json_loads db situation stage type_ None
                    (Some limit) with
            | Return data => Experiences [] (sr_moments data)
            | Raise e => ErrorText e
            end
       else match post_situation json_loads db situation
                    (if PyStr.truthy stage then stage else None)
                    (Some limit) with
            | Return data =>
                Experiences (sit_query_keywords data) (sit_moments data)
            | Raise e => ErrorText e
            end)
  ∧ ((1 ≤ limit ≤ 5)%Z → plain_id moment_id = true →
     find_similar_experiences json_loads db moment_id limit
     = match similar json_loads db moment_id (Some limit) with
       | Return data =>
           Experiences (sim_source_tags data) (sim_moments data)
       | Raise e => ErrorText e
       end)
  ∧ (∀ header ms,
       search_experience json_loads db situation stage type_ limit
       = Experiences header ms → (length ms ≤ 10)%nat)
  ∧ (∀ header ms,
       find_similar_experiences json_loads db moment_id limit
       = Experiences header ms → (length ms ≤ 5)%nat).
Proof.
  split; [|split; [|split; [|split; [|split; [|split; [|split; [|split]]]]]]].
  - intros Hout. split.
    + unfold search. rewrite (bounded_int_outside _ _ _ _ Hout).
      reflexivity.
    + unfold post_situation, validate_SituationRequest.
      rewrite (bounded_int_outside _ _ _ _ Hout). reflexivity.
  - intros given body. unfold validate_SituationRequest.
    destruct (bounded_int 5 1 20 given) as [n|e] eqn:Hgiven; cbn [bind];
      [|discriminate].
    intros [= <-]. cbn.
    apply bounded_int_Return in Hgiven as [-> Hrange].
    destruct Hrange as [-> | ?]; [cbn|]; lia.
  - intros Hsmall. unfold search_experience, find_similar_experiences.
    replace (Z.max 1 (Z.min limit 10)) with (Z.max 1 (Z.min 1 10)) by lia.
    replace (Z.max 1 (Z.min limit 5)) with (Z.max 1 (Z.min 1 5)) by lia.
    split; reflexivity.
  - intros Hlarge. unfold search_experience.
    replace (Z.max 1 (Z.min limit 10)) with (Z.max 1 (Z.min 10 10)) by lia.
    reflexivity.
  - intros Hlarge. unfold find_similar_experiences.
    replace (Z.max 1 (Z.min limit 5)) with (Z.max 1 (Z.min 5 5)) by lia.
    reflexivity.
  - intros Hin. unfold search_experience.
    replace (Z.max 1 (Z.min limit 10)) with limit by lia. reflexivity.
  - intros Hin _. unfold find_similar_experiences.
    replace (Z.max 1 (Z.min limit 5)) with limit by lia. reflexivity.
  - intros header ms. unfold search_experience.
    destruct (PyStr.truthy type_).
    + destruct (search _ _ _ _ _ _ _) as [data|e] eqn:Hret; [|discriminate].
      intros [= _ <-]. apply search_count in Hret as [_ Hlen].
      cbn in Hlen. lia.
    + destruct (post_situation _ _ _ _ _) as [data|e] eqn:Hret;
        [|discriminate].
      intros [= _ <-]. apply post_situation_count in Hret.
      cbn in Hret. lia.
  - intros header ms. unfold find_similar_experiences.
    destruct (similar _ _ _ _) as [data|e] eqn:Hret; [|discriminate].
    intros [= _ <-]. apply similar_count in Hret as [_ Hlen].
    cbn in Hlen. lia.
Qed.

End EndpointFacts.

Lemma unknown_id_not_found_witness :
  get_moment loads_plain demo_store "m9"
  = Raise (HTTPException 404 "Moment 'm9' not found")
  ∧ similar loads_plain demo_store "m9" (Some 3%Z)
    = Raise (HTTPException 404 "Moment 'm9' not found").
Proof.
  apply (unknown_id_not_found loads_plain demo_store "m9" (Some 3%Z)).
  - apply Forall_forall. repeat constructor; discriminate.
  - intros v [= <-]. lia.
Defined.

Lemma count_is_length_within_limit_witness :
  ∃ r, similar loads_plain demo_store "m0" (Some 2%Z) = Return r
       ∧ sim_count r = 2
       ∧ sim_count r = length (sim_moments r)
       ∧ (Z.of_nat (length (sim_moments r)) ≤ 2)%Z.
Proof.
  destruct (count_is_length_within_limit loads_plain demo_store "pricing"
              None None None
              {| body_situation := "pricing"; body_stage := None;
                 body_limit := 5 |}
              "m0" (Some 2%Z)) as (_ & _ & Hsim).
  eexists. split; [vm_compute; reflexivity|].
  split; [reflexivity|]. apply Hsim. vm_compute. reflexivity.
Defined.

(** C4, as stated, fails.  On the demo store a situation request with
    limit 50 is not answered as the same request with the limit clamped
    to 20 is: the first raises the validation error, the second returns
    moments.  And on the crowd store [find_similar_experiences] with
    limit 7 does not return what the similarity operation returns for
    limit 7, the value a clamp with maximum 10 would pass on: it returns
    5 moments where that returns 7. *)
Lemma limit_claim_counterexample :
  post_situation loads_plain demo_store "pricing strategy" None (Some 50%Z)
  ≠ post_situation loads_plain demo_store "pricing strategy" None
      (Some (Z.max 1 (Z.min 50 20)))
  ∧ ∃ header ms r,
      find_similar_experiences loads_plain crowd_store "m0" 7
      = Experiences header ms
      ∧ similar loads_plain crowd_store "m0" (Some (Z.max 1 (Z.min 7 10)))
        = Return r
      ∧ length ms = 5
      ∧ length (sim_moments r) = 7.
Proof.
  split.
  - intros Heq. vm_compute in Heq. discriminate Heq.
  - eexists _, _, _. split; [vm_compute; reflexivity|].
    split; [vm_compute; reflexivity|]. split; reflexivity.
Qed.

Lemma limit_rejected_or_clamped_witness :
  search loads_plain demo_store "pricing" None None None (Some 0%Z)
  = Raise RequestValidationError
  ∧ post_situation loads_plain demo_store "pricing strategy" None (Some 0%Z)
    = Raise RequestValidationError
  ∧ (∃ header ms,
       search_experience loads_plain dozen_store "pricing" None
         (Some "lesson") 50 = Experiences header ms
       ∧ length ms = 10)
  ∧ (∃ header ms,
       search_experience loads_plain dozen_store "pricing" None
         (Some "lesson") 7 = Experiences header ms
       ∧ length ms = 7)
  ∧ (∃ header ms,
       find_similar_experiences loads_plain crowd_store "m0" 50
       = Experiences header ms
       ∧ length ms = 5)
  ∧ (∃ header ms,
       find_similar_experiences loads_plain crowd_store "m0" 4
       = Experiences header ms
       ∧ length ms = 4).
Proof.
  destruct (limit_rejected_or_clamped loads_plain demo_store "pricing"
              "pricing strategy" None None None "m0" 0%Z)
    as (Hrejected & _).
  destruct (Hrejected ltac:(lia)) as [Hsearch Hsituation].
  destruct (limit_rejected_or_clamped loads_plain dozen_store "pricing"
              "pricing" None (Some "lesson") None "m0" 50%Z)
    as (_ & _ & _ & Hten & _).
  destruct (limit_rejected_or_clamped loads_plain dozen_store "pricing"
              "pricing" None (Some "lesson") None "m0" 7%Z)
    as (_ & _ & _ & _ & _ & Hseven & _).
  destruct (limit_rejected_or_clamped loads_plain crowd_store "pricing"
              "pricing" None None None "m0" 50%Z)
    as (_ & _ & _ & _ & Hfive & _).
  destruct (limit_rejected_or_clamped loads_plain crowd_store "pricing"
              "pricing" None None None "m0" 4%Z)
    as (_ & _ & _ & _ & _ & _ & Hfour & _).
  split; [exact Hsearch|]. split; [exact Hsituation|].
  split; [|split; [|split]].
  - rewrite (Hten ltac:(lia)). eexists _, _.
    split; [vm_compute; reflexivity | reflexivity].
  - rewrite (Hseven ltac:(lia)). eexists _, _.
    split; [vm_compute; reflexivity | reflexivity].
  - rewrite (Hfive ltac:(lia)). eexists _, _.
    split; [vm_compute; reflexivity | reflexivity].
  - rewrite (Hfour ltac:(lia) eq_refl). eexists _, _.
    split; [vm_compute; reflexivity | reflexivity].
Defined.

(** ** Identifiers assigned at ingestion *)

Lemma for_each_invariant {S A : Type} (body : S -> A -> option S)
    (I : S -> Prop) :
  (∀ st x st', I st → body st x = Some st' → I st') →
  ∀ items st st', I st → for_each body st items = Some st' → I st'.
Proof.
  intros Hstep items. induction items as [|x items IH]; intros st st' HI.
  - cbn. intros [= <-]. exact HI.
  - cbn. destruct (body st x) as [st1|] eqn:Hbody; cbn; [|discriminate].
    intros Hrest. eapply IH; [|exact Hrest]. eapply Hstep; eauto.
Qed.

Lemma sql_insert_Some (t : list row) (r : row) (t' : list row) :
  sql_insert t r = Some t' →
  t' = t ++ [r] ∧ row_id r ∉ (row_id <$> t).
Proof.
  unfold sql_insert. destruct (row_type r); [|discriminate].
  destruct (row_summary r); [|discriminate].
  destruct (decide (row_id r ∈ row_id <$> t)) as [|Hfresh]; [discriminate|].
  intros [= <-]. auto.
Qed.

Lemma sql_insert_not_null (t : list row) (r : row) (t' : list row) :
  sql_insert t r = Some t' →
  is_Some (row_type r) ∧ is_Some (row_summary r).
Proof.
  unfold sql_insert. destruct (row_type r); [|discriminate].
  destruct (row_summary r); [|discriminate]. intros _. split; eexists; eauto.
Qed.

Lemma NoDup_snoc {A : Type} (l : list A) (x : A) :
  NoDup l → x ∉ l → NoDup (l ++ [x]).
Proof.
  intros Hl Hx. apply NoDup_app. split; [exact Hl|]. split.
  - intros y Hy Hy'. apply list_elem_of_singleton in Hy'. subst y. auto.
  - apply NoDup_singleton.
Qed.

Section IngestionFacts.

Variable uuid4 : nat -> string.
Variable json_dumps : list string -> string.

Lemma ingest_moment_ids (meta : source_fields) (st : build_state)
    (moment : raw_moment) (st' : build_state) :
  ids_are_draws uuid4 st →
  ingest_moment uuid4 json_dumps meta st moment = Some st' →
  ids_are_draws uuid4 st'.
Proof.
  intros [Hids Hnodup]. unfold ingest_moment.
  destruct (resolve_source moment meta) as [src|]; cbn [mbind option_bind];
    [|discriminate].
  destruct (build_url_at_moment _ _) as [url_at|]; cbn [mbind option_bind];
    [|discriminate].
  destruct (sql_insert _ _) as [t'|] eqn:Hins; cbn [mbind option_bind];
    [|discriminate].
  intros [= <-]. apply sql_insert_Some in Hins as [-> Hfresh].
  cbn [row_id] in Hfresh. unfold ids_are_draws. cbn [table uuids_drawn].
  rewrite fmap_app, Hids. cbn [fmap list_fmap row_id]. split.
  - rewrite seq_S, fmap_app. reflexivity.
  - rewrite <- Hids. apply NoDup_snoc; assumption.
Qed.

Lemma ingest_episode_ids (st : build_state) (ep : episode)
    (st' : build_state) :
  ids_are_draws uuid4 st →
  ingest_episode uuid4 json_dumps st ep = Some st' →
  ids_are_draws uuid4 st'.
Proof.
  intros HI. unfold ingest_episode.
  destruct (ep_moments ep) as [| |moments].
  - intros [= <-]. exact HI.
  - intros [= <-]. exact HI.
  - destruct moments as [|m moments].
    + intros [= <-]. exact HI.
    + apply for_each_invariant with (I := ids_are_draws uuid4); [|exact HI].
      intros s x s'. apply ingest_moment_ids.
Qed.

Lemma build_db_loop (episode_dirs : list episode) (st : build_state) :
  build_db uuid4 json_dumps episode_dirs = Some st →
  for_each (ingest_episode uuid4 json_dumps) empty_build episode_dirs
  = Some st
  ∧ sorted_items_ok (by_stage st) = true.
Proof.
  unfold build_db.
  destruct (for_each _ empty_build episode_dirs) as [st1|];
    cbn [mbind option_bind]; [|discriminate].
  destruct (sorted_items_ok (by_stage st1)) eqn:Hsorted; [|discriminate].
  intros [= <-]. auto.
Qed.

Lemma build_db_ids (episode_dirs : list episode) (st : build_state) :
  build_db uuid4 json_dumps episode_dirs = Some st → ids_are_draws uuid4 st.
Proof.
  intros Hbuild. apply build_db_loop in Hbuild as [Hloop _].
  revert Hloop.
  apply for_each_invariant with (I := ids_are_draws uuid4).
  - intros s x s'. apply ingest_episode_ids.
  - split; [reflexivity | constructor].
Qed.

Lemma sample_id_of_mono (d d' : nat) (m : raw_moment) (r : row) :
  d ≤ d' → sample_id_of uuid4 d m r → sample_id_of uuid4 d' m r.
Proof.
  intros Hle. unfold sample_id_of.
  destruct (get (mo_id m)) as [[|c s]|]; try done.
  all: intros (k & Hk & ->); exists k; split; [lia | reflexivity].
Qed.

Lemma ingest_sample_step (st : build_state) (m : raw_moment)
    (st' : build_state) :
  ingest_sample uuid4 json_dumps st m = Some st' →
  ∃ r, table st' = (table st ++ [r])
       ∧ (row_id r ∉ (row_id <$> table st))
       ∧ (uuids_drawn st ≤ uuids_drawn st')
       ∧ sample_id_of uuid4 (uuids_drawn st') m r.
Proof.
  unfold ingest_sample, sample_id_of.
  destruct (build_url_at_moment _ _) as [url_at|]; cbn [mbind option_bind];
    [|discriminate].
  destruct (get (mo_id m)) as [[|c given]|].
  all: destruct (sql_insert _ _) as [t'|] eqn:Hins; cbn; [|discriminate].
  all: intros [= <-]; apply sql_insert_Some in Hins as [-> Hfresh].
  all: eexists; split; [reflexivity|]; cbn in *.
  all: split; [exact Hfresh|]; split; [lia|]; eauto.
Qed.

Lemma for_each_ingest_sample (items done : list raw_moment)
    (st st' : build_state) :
  Forall2 (sample_id_of uuid4 (uuids_drawn st)) done (table st) →
  NoDup (row_id <$> table st) →
  for_each (ingest_sample uuid4 json_dumps) st items = Some st' →
  Forall2 (sample_id_of uuid4 (uuids_drawn st')) (done ++ items) (table st')
  ∧ NoDup (row_id <$> table st').
Proof.
  revert done st. induction items as [|m items IH]; intros done st Hdone Hnd.
  - cbn. intros [= <-]. rewrite app_nil_r. auto.
  - cbn. destruct (ingest_sample _ _ st m) as [st1|] eqn:Hstep; cbn;
      [|discriminate].
    apply ingest_sample_step in Hstep as (r & Htable & Hfresh & Hle & Hid).
    intros Hrest.
    replace (done ++ m :: items) with ((done ++ [m]) ++ items)
      by (rewrite <- app_assoc; reflexivity).
    apply (IH (done ++ [m]) st1); [| |exact Hrest].
    + rewrite Htable. apply Forall2_app.
      * eapply Forall2_impl; [exact Hdone|].
        intros m' r'. apply sample_id_of_mono, Hle.
      * constructor; [exact Hid | constructor].
    + rewrite Htable, fmap_app. apply NoDup_snoc; assumption.
Qed.

(** C9, as the code has it.  In a full build that completes, the
    identifiers stored are the successive draws of the generator, one
    per record, whatever the source files hold, and no two are equal.
    In a sample build that completes, a moment whose [id] field is a
    non-empty string is stored under that [id]; only a moment without
    one is stored under a draw of the generator; and no two stored
    identifiers are equal. *)
Theorem identifiers_assigned (episode_dirs : list episode)
    (sample : list raw_moment) :
  (∀ st, build_db uuid4 json_dumps episode_dirs = Some st →
         row_id <$> table st = uuid4 <$> seq 0 (length (table st))
         ∧ NoDup (row_id <$> table st))
  ∧ (∀ st, build_sample_db uuid4 json_dumps sample = Some st →
           Forall2 (sample_id_of uuid4 (uuids_drawn st)) sample (table st)
           ∧ NoDup (row_id <$> table st)).
Proof.
  split.
  - intros st Hbuild. apply build_db_ids in Hbuild as [Hids Hnodup].
    split; [|exact Hnodup].
    assert (Hlen : length (table st) = uuids_drawn st).
    { apply (f_equal length) in Hids.
      rewrite !length_fmap, length_seq in Hids. exact Hids. }
    rewrite Hlen. exact Hids.
  - intros st Hbuild. unfold build_sample_db in Hbuild.
    apply (for_each_ingest_sample sample [] empty_build st) in Hbuild;
      [exact Hbuild | constructor | constructor].
Qed.

End IngestionFacts.

(** C9, as stated, fails for the sample build: the first moment of the
    demo sample file is stored under the [id] its file entry carries, and
    that identifier is no draw of the generator. *)
Lemma identifier_claim_counterexample :
  ∃ st m r,
    build_sample_db demo_uuid4 dumps_plain demo_sample_file = Some st
    ∧ demo_sample_file !! 0 = Some m
    ∧ table st !! 0 = Some r
    ∧ mo_id m = Text (row_id r)
    ∧ ∀ n, demo_uuid4 n ≠ row_id r.
Proof.
  eexists _, _, _. split; [vm_compute; reflexivity|].
  split; [reflexivity|]. split; [reflexivity|]. split; [reflexivity|].
  intros n. cbn. discriminate.
Qed.

Lemma identifiers_assigned_witness :
  ∃ st, build_db demo_uuid4 dumps_plain demo_episodes = Some st
        ∧ row_id <$> table st = ["uuid-0"; "uuid-1"]
        ∧ NoDup (row_id <$> table st).
Proof.
  destruct (identifiers_assigned demo_uuid4 dumps_plain demo_episodes
              demo_sample_file) as [Hfull _].
  eexists. split; [vm_compute; reflexivity|].
  split; [reflexivity|]. apply Hfull. vm_compute. reflexivity.
Defined.

(** ** The stable descending sort *)

Lemma sublist_singleton_l {A : Type} (y : A) (l : list A) :
  [y] `sublist_of` l ↔ y ∈ l.
Proof.
  induction l as [|a l IH].
  - rewrite sublist_nil_r. split; [discriminate | intros H; inversion H].
  - rewrite sublist_cons_r, IH, elem_of_cons. split.
    + intros [Hin | (l' & [= -> <-] & _)]; auto.
    + intros [-> | Hin]; [right | left; exact Hin].
      exists []. split; [reflexivity | apply sublist_nil_l].
Qed.

(** [[x; y]] is a sublist of [l] when [x] occurs in [l] before [y]. *)
Lemma sublist_pair_cons {A : Type} (x y a : A) (l : list A) :
  [x; y] `sublist_of` (a :: l) ↔ (x = a ∧ y ∈ l) ∨ [x; y] `sublist_of` l.
Proof.
  rewrite sublist_cons_r. split.
  - intros [Hl | (l' & [= -> <-] & Hy)]; [right; exact Hl | left].
    split; [reflexivity | apply sublist_singleton_l, Hy].
  - intros [[-> Hy] | Hl]; [right | left; exact Hl].
    exists [y]. split; [reflexivity | apply sublist_singleton_l, Hy].
Qed.

Lemma sublist_pair_elem_of {A : Type} (x y : A) (l : list A) :
  [x; y] `sublist_of` l → x ∈ l ∧ y ∈ l.
Proof.
  intros Hl. split; eapply elem_of_sublist; try exact Hl.
  - left.
  - right. left.
Qed.

Lemma sublist_pair_lookup {A : Type} (x y : A) (l : list A) :
  [x; y] `sublist_of` l ↔
  ∃ p q, p < q ∧ l !! p = Some x ∧ l !! q = Some y.
Proof.
  induction l as [|a l IH].
  - rewrite sublist_nil_r. split; [discriminate|].
    intros (p & q & _ & Hp & _). discriminate Hp.
  - rewrite sublist_pair_cons, IH. split.
    + intros [[-> Hy] | (p & q & Hpq & Hp & Hq)].
      * apply list_elem_of_lookup in Hy as [q Hq].
        exists 0, (S q). split; [lia | auto].
      * exists (S p), (S q). split; [lia | auto].
    + intros (p & q & Hpq & Hp & Hq).
      destruct q as [|q]; [lia|]. destruct p as [|p].
      * left. cbn in Hp. injection Hp as ->. split; [reflexivity|].
        eapply list_elem_of_lookup_2, Hq.
      * right. exists p, q. split; [lia | auto].
Qed.

Lemma sublist_pair_omap {A B : Type} (f : A -> option B) (x y : B)
    (l : list A) :
  [x; y] `sublist_of` omap f l →
  ∃ a b, [a; b] `sublist_of` l ∧ f a = Some x ∧ f b = Some y.
Proof.
  induction l as [|c l IH]; cbn.
  - rewrite sublist_nil_r. discriminate.
  - destruct (f c) as [z|] eqn:Hc.
    + rewrite sublist_pair_cons. intros [[-> Hy] | Hl].
      * apply list_elem_of_omap in Hy as (b & Hb & Hfb).
        exists c, b. split; [|auto]. apply sublist_pair_cons. auto.
      * destruct (IH Hl) as (a & b & Hab & Ha & Hb).
        exists a, b. split; [|auto]. apply sublist_pair_cons. auto.
    + intros Hl. destruct (IH Hl) as (a & b & Hab & Ha & Hb).
      exists a, b. split; [|auto]. apply sublist_pair_cons. auto.
Qed.

Lemma key_lt_asym (a b : nat * nat) : key_lt a b → ¬ key_lt b a.
Proof. unfold key_lt. lia. Qed.

Lemma key_lt_irrefl (a : nat * nat) : ¬ key_lt a a.
Proof. unfold key_lt. lia. Qed.

Lemma key_lt_total (a b : nat * nat) : ¬ key_lt a b → key_lt b a ∨ a = b.
Proof.
  destruct a as [a1 a2], b as [b1 b2]. unfold key_lt. cbn. intros Hnot.
  destruct (decide (a1 = b1 ∧ a2 = b2)) as [[-> ->] | Hne]; [right; done|].
  left. lia.
Qed.

Lemma key_not_lt_trans (a b c : nat * nat) :
  ¬ key_lt a b → ¬ key_lt b c → ¬ key_lt a c.
Proof. unfold key_lt. lia. Qed.

Lemma elem_of_insert_desc (x y : nat * nat * row) (l : list (nat * nat * row)) :
  y ∈ insert_desc x l ↔ y = x ∨ y ∈ l.
Proof.
  induction l as [|a l IH]; cbn.
  - rewrite list_elem_of_singleton. rewrite elem_of_nil. tauto.
  - destruct (decide (key_lt (sort_key x) (sort_key a))).
    + rewrite !elem_of_cons, IH. tauto.
    + rewrite !elem_of_cons. tauto.
Qed.

Lemma elem_of_sort_desc (y : nat * nat * row) (l : list (nat * nat * row)) :
  y ∈ sort_desc l ↔ y ∈ l.
Proof.
  induction l as [|a l IH]; cbn; [tauto|].
  rewrite elem_of_insert_desc, elem_of_cons, IH. tauto.
Qed.

Lemma insert_desc_perm (x : nat * nat * row) (l : list (nat * nat * row)) :
  insert_desc x l ≡ₚ x :: l.
Proof.
  induction l as [|a l IH]; cbn; [reflexivity|].
  destruct (decide (key_lt (sort_key x) (sort_key a))); [|reflexivity].
  rewrite IH. apply Permutation_swap.
Qed.

Lemma sort_desc_perm (l : list (nat * nat * row)) : sort_desc l ≡ₚ l.
Proof.
  induction l as [|a l IH]; cbn; [reflexivity|].
  rewrite insert_desc_perm, IH. reflexivity.
Qed.

(** Where a pair of entries of [insert_desc a s] comes from, [s] being in
    decreasing order. *)
Lemma insert_desc_pairs (a x y : nat * nat * row)
    (s : list (nat * nat * row)) :
  (∀ u v, [u; v] `sublist_of` s → ¬ key_lt (sort_key u) (sort_key v)) →
  [x; y] `sublist_of` insert_desc a s →
  [x; y] `sublist_of` s
  ∨ (x = a ∧ y ∈ s ∧ ¬ key_lt (sort_key a) (sort_key y))
  ∨ (y = a ∧ x ∈ s ∧ key_lt (sort_key a) (sort_key x)).
Proof.
  induction s as [|b s IH]; intros Hdesc; cbn.
  - intros Hl. apply sublist_pair_cons in Hl as [[_ Hy] | Hl].
    + inversion Hy.
    + apply sublist_nil_r in Hl. discriminate.
  - destruct (decide (key_lt (sort_key a) (sort_key b))) as [Hlt | Hge].
    + rewrite sublist_pair_cons. intros [[-> Hy] | Hl].
      * apply elem_of_insert_desc in Hy as [-> | Hy].
        -- right. right. split; [reflexivity|]. split; [left | exact Hlt].
        -- left. apply sublist_pair_cons. auto.
      * destruct IH as [Hs | [(-> & Hy & Hk) | (-> & Hx & Hk)]]; [|exact Hl|..].
        -- intros u v Huv. apply Hdesc, sublist_pair_cons. auto.
        -- left. apply sublist_pair_cons. auto.
        -- right. left. split; [reflexivity|]. split; [right; exact Hy | exact Hk].
        -- right. right. split; [reflexivity|]. split; [right; exact Hx | exact Hk].
    + rewrite sublist_pair_cons. intros [[-> Hy] | Hl]; [|left; exact Hl].
      right. left. split; [reflexivity|]. split; [exact Hy|].
      apply elem_of_cons in Hy as [-> | Hy]; [exact Hge|].
      eapply key_not_lt_trans; [exact Hge|].
      apply Hdesc, sublist_pair_cons. auto.
Qed.

(** The sort is by decreasing key, and stable: of two entries of the
    sorted list, the first has the greater key, or the keys are equal and
    the first came first in the list sorted. *)
Lemma sort_desc_pairs (l : list (nat * nat * row)) (x y : nat * nat * row) :
  [x; y] `sublist_of` sort_desc l →
  key_lt (sort_key y) (sort_key x)
  ∨ (sort_key x = sort_key y ∧ [x; y] `sublist_of` l).
Proof.
  revert x y. induction l as [|a l IH]; intros x y; cbn.
  - rewrite sublist_nil_r. discriminate.
  - intros Hl. apply insert_desc_pairs in Hl
      as [Hs | [(-> & Hy & Hk) | (-> & Hx & Hk)]].
    + destruct (IH _ _ Hs) as [Hlt | [Heq Hin]]; [left; exact Hlt | right].
      split; [exact Heq|]. apply sublist_pair_cons. auto.
    + apply key_lt_total in Hk as [Hlt | Heq]; [left; exact Hlt | right].
      split; [exact Heq|]. apply sublist_pair_cons. left.
      split; [reflexivity|]. apply elem_of_sort_desc, Hy.
    + left. exact Hk.
    + intros u v Huv Hlt. destruct (IH _ _ Huv) as [Hgt | [Heq _]].
      * exact (key_lt_asym _ _ Hlt Hgt).
      * rewrite Heq in Hlt. exact (key_lt_irrefl _ Hlt).
Qed.

(** ** Similarity *)


Lemma mapM_take {A B : Type} (f : A -> option B) (l : list A)
    (k : list B) (n : nat) :
  mapM f l = Some k → mapM f (take n l) = Some (take n k).
Proof.
  intros Hk. apply mapM_Some. apply Forall2_take, mapM_Some, Hk.
Qed.


Lemma mapM_omap {A B : Type} (f : A -> option B) (l : list A)
    (k : list B) :
  mapM f l = Some k → omap f l = k.
Proof.
  intros Hk. apply mapM_Some_1 in Hk.
  induction Hk as [|x y l k Hx _ IH]; [reflexivity|].
  cbn. rewrite Hx, IH. reflexivity.
Qed.

Lemma mapM_take_omap {A B : Type} (f : A -> option B) (l : list A)
    (n : nat) (k : list B) :
  mapM f (take n l) = Some k → k = take n (omap f l).
Proof.
  revert n k. induction l as [|a l IH]; intros n k.
  - rewrite take_nil. cbn. intros [= <-]. rewrite take_nil. reflexivity.
  - destruct n as [|n]; [cbn; intros [= <-]; reflexivity|].
    rewrite firstn_cons. intros Hk. apply mapM_Some_1 in Hk.
    apply Forall2_cons_inv_l in Hk as (b & k' & Hb & Hk' & ->).
    apply mapM_Some_2, IH in Hk'. cbn. rewrite Hb. cbn.
    rewrite <- Hk'. reflexivity.
Qed.

Lemma mapM_compose {A B C : Type} (f : A -> option B) (g : B -> option C)
    (l : list A) (k : list B) (k' : list C) :
  mapM f l = Some k → mapM g k = Some k' →
  mapM (λ x, f x ≫= g) l = Some k'.
Proof.
  intros Hk Hk'. apply mapM_Some_1 in Hk. apply mapM_Some_2.
  revert k' Hk'. induction Hk as [|x y l k Hx _ IH]; intros k' Hk'.
  - cbn in Hk'. injection Hk' as <-. constructor.
  - apply mapM_Some_1 in Hk'.
    apply Forall2_cons_inv_l in Hk' as (z & k'' & Hz & Hk'' & ->).
    constructor; [rewrite Hx; exact Hz|].
    apply IH, mapM_Some_2, Hk''.
Qed.

Lemma as_str_list_Some (v : json) (tags : list string) :
  as_str_list v = Some tags → v = JArray (JString <$> tags).
Proof.
  destruct v as [| | | |items|]; try discriminate. cbn. intros Hall.
  f_equal. apply mapM_Some_1 in Hall.
  induction Hall as [|item s items tags Hitem _ IH]; [reflexivity|].
  rewrite fmap_cons, <- IH. destruct item; try discriminate.
  injection Hitem as ->. reflexivity.
Qed.

Lemma as_str_list_strings (tags : list string) :
  as_str_list (JArray (JString <$> tags)) = Some tags.
Proof.
  cbn. apply mapM_Some_2.
  induction tags as [|t tags IH]; constructor; [reflexivity | exact IH].
Qed.

Lemma py_set_strings (tags : list string) :
  py_set (JArray (JString <$> tags)) = Some (tag_keys tags).
Proof.
  cbn. assert (Hall : mapM hashable (JString <$> tags)
                      = Some (KString <$> tags)).
  { apply mapM_Some_2.
    induction tags as [|t tags IH]; constructor; [reflexivity | exact IH]. }
  rewrite Hall. reflexivity.
Qed.

Lemma truthy_strings (tags : list string) :
  truthy_json (JArray (JString <$> tags)) = true → tags ≠ [].
Proof. destruct tags; [discriminate | discriminate]. Qed.

(** Sets of tags as Python builds them share as many elements as the
    sets of the tags themselves. *)
Lemma tag_keys_overlap (a b : list string) :
  size (tag_keys a ∩ tag_keys b)
  = size ((list_to_set a : gset string) ∩ list_to_set b).
Proof.
  set (shared := (list_to_set a : gset string) ∩ list_to_set b).
  assert (Heq : tag_keys a ∩ tag_keys b
                = list_to_set (KString <$> elements shared)).
  { apply set_eq. intros k. unfold tag_keys, shared.
    rewrite elem_of_intersection, !elem_of_list_to_set, !list_elem_of_fmap.
    split.
    - intros [(x & -> & Hx) (y & Hy & Hyb)]. injection Hy as <-.
      exists x. split; [reflexivity|].
      apply elem_of_elements, elem_of_intersection.
      rewrite !elem_of_list_to_set. auto.
    - intros (x & -> & Hx).
      apply elem_of_elements, elem_of_intersection in Hx as [Ha Hb].
      rewrite elem_of_list_to_set in Ha, Hb. split; exists x; auto. }
  rewrite Heq, size_list_to_set.
  - rewrite length_fmap. reflexivity.
  - apply NoDup_fmap_2; [|apply NoDup_elements].
    intros x y Hxy. injection Hxy as ->. reflexivity.
Qed.

Section SimilarityFacts.

Variable json_loads : string -> option json.

Lemma shown_fields (r : row) (m : moment) :
  shown json_loads r = Some m →
  m_id m = row_id r ∧ m_stage m = row_stage r
  ∧ load_tags json_loads r = Some (JArray (JString <$> m_tags m)).
Proof.
  unfold shown, format_moment.
  destruct (load_tags json_loads r) as [v|]; cbn [mbind option_bind];
    [|discriminate].
  unfold validate_Moment. cbn [d_tags d_type d_summary].
  destruct (as_str_list v) as [tags|] eqn:Htags; cbn [mbind option_bind];
    [|discriminate].
  destruct (row_type r); [|discriminate].
  destruct (row_summary r); [|discriminate].
  intros [= <-]. cbn. apply as_str_list_Some in Htags. rewrite Htags. auto.
Qed.

Lemma shown_formatted (r : row) (m : moment) :
  shown json_loads r = Some m →
  ∃ d, format_moment json_loads r = Some d ∧ validate_Moment d = Some m.
Proof.
  unfold shown. destruct (format_moment json_loads r) as [d|];
    cbn [mbind option_bind]; [|discriminate].
  intros Hm. exists d. auto.
Qed.

Lemma score_candidate_Some (source_tag_set : gset key)
    (source_stage : option string) (c : row) (x : nat * nat * row) :
  score_candidate json_loads source_tag_set source_stage c = Some x →
  x.2 = c
  ∧ ∃ text v c_tags,
      row_tags c = Some text ∧ json_loads text = Some v
      ∧ py_set v = Some c_tags
      ∧ x.1.1 = size (source_tag_set ∩ c_tags)
      ∧ 0 < x.1.1
      ∧ x.1.2 = (if decide (row_stage c = source_stage) then 1 else 0).
Proof.
  unfold score_candidate.
  destruct (row_tags c) as [text|]; cbn [mbind option_bind];
    [|discriminate].
  destruct (json_loads text) as [v|] eqn:Hv; cbn [mbind option_bind];
    [|discriminate].
  destruct (py_set v) as [c_tags|] eqn:Hset; cbn [mbind option_bind];
    [|discriminate].
  destruct (decide (0 < size _)) as [Hpos|]; [|discriminate].
  intros [= <-]. cbn. split; [reflexivity|].
  exists text, v, c_tags. repeat split; auto.
Qed.

Lemma score_candidate_no_tags (source_stage : option string) (c : row) :
  score_candidate json_loads ∅ source_stage c = None.
Proof.
  destruct (score_candidate json_loads ∅ source_stage c) as [x|] eqn:Hx;
    [|reflexivity].
  apply score_candidate_Some in Hx
    as (_ & text & v & c_tags & _ & _ & _ & Hshared & Hpos & _).
  rewrite Hshared in Hpos.
  apply size_pos_elem_of in Hpos as [t Ht].
  apply elem_of_intersection in Ht as [Ht _].
  destruct (not_elem_of_empty t Ht).
Qed.

Lemma ranked_candidates_no_tags (db : store) (moment_id : string)
    (source_stage : option string) :
  ranked_candidates json_loads db moment_id ∅ source_stage = [].
Proof.
  unfold ranked_candidates. cbn.
  induction (other_moments_with_tags db moment_id) as [|c l IH];
    [reflexivity|].
  cbn. rewrite score_candidate_no_tags. exact IH.
Qed.

Lemma elem_of_ranked_candidates (db : store) (moment_id : string)
    (source_tag_set : gset key) (source_stage : option string)
    (x : nat * nat * row) :
  x ∈ ranked_candidates json_loads db moment_id source_tag_set source_stage
  ↔ x.2 ∈ moments_table db ∧ row_id x.2 ≠ moment_id
    ∧ row_tags x.2 ≠ None ∧ row_tags x.2 ≠ Some "[]"
    ∧ score_candidate json_loads source_tag_set source_stage x.2 = Some x.
Proof.
  unfold ranked_candidates, other_moments_with_tags.
  rewrite elem_of_sort_desc, list_elem_of_omap. split.
  - intros (c & Hc & Hscore).
    apply list_elem_of_filter in Hc as [(Hid & Hnull & Hempty) Hin].
    destruct (score_candidate_Some _ _ _ _ Hscore) as [Hx _].
    rewrite Hx. auto.
  - intros (Hin & Hid & Hnull & Hempty & Hscore).
    exists x.2. split; [|exact Hscore].
    apply list_elem_of_filter. auto.
Qed.

(** What [similar] does once the source record is found: the tags it
    reports are what the source's column decodes to, or the column
    decodes to a value Python takes for false; the moments are those of
    the leading entries of the sorted list. *)
Lemma similar_Return (db : store) (moment_id : string) (limit : option Z)
    (source : row) (resp : SimilarResponse) :
  fetch_by_id db moment_id = Some source →
  similar json_loads db moment_id limit = Return resp →
  (∀ v, limit = Some v → (1 ≤ v ≤ 20)%Z)
  ∧ (∃ v, load_tags json_loads source = Some v
          ∧ (truthy_json v = false ∧ sim_source_tags resp = []
             ∨ truthy_json v = true
               ∧ v = JArray (JString <$> sim_source_tags resp)))
  ∧ mapM (λ x, shown json_loads x.2)
         (take (Z.to_nat (given_or 5 limit))
               (ranked_candidates json_loads db moment_id
                  (tag_keys (sim_source_tags resp)) (row_stage source)))
    = Some (sim_moments resp).
Proof.
  intros Hsource. unfold similar. rewrite Hsource.
  destruct (bounded_int 5 1 20 limit) as [n|e] eqn:Hlimit; cbn [bind];
    [|discriminate].
  apply bounded_int_Return in Hlimit as [-> Hrange].
  assert (Hpos : (0 ≤ given_or 5 limit)%Z).
  { destruct Hrange as [-> | ?]; [cbn|]; lia. }
  assert (Hvalid : ∀ v, limit = Some v → (1 ≤ v ≤ 20)%Z).
  { intros v ->. destruct Hrange as [Hnone | Hin]; [discriminate|].
    exact Hin. }
  destruct (load_tags json_loads source) as [v|]; cbn [or_uncaught bind];
    [|discriminate].
  destruct (truthy_json v) eqn:Htruthy; cbn [negb].
  - destruct (py_set v) as [source_tag_set|] eqn:Hset;
      cbn [or_uncaught bind]; [|discriminate].
    rewrite slice_to_take by exact Hpos.
    destruct (mapM _ (take _ _)) as [top|] eqn:Hfmt;
      cbn [or_uncaught bind]; [|discriminate].
    destruct (as_str_list v) as [tags|] eqn:Htags; cbn [or_invalid bind];
      [|discriminate].
    destruct (mapM _ top) as [validated|] eqn:Hval; cbn [or_invalid bind];
      [|discriminate].
    intros [= <-]. cbn [sim_source_tags sim_moments].
    apply as_str_list_Some in Htags. subst v.
    rewrite py_set_strings in Hset. injection Hset as <-.
    split; [exact Hvalid|]. split; [eauto|].
    exact (mapM_compose _ _ _ _ _ Hfmt Hval).
  - intros [= <-]. cbn [sim_source_tags sim_moments].
    split; [exact Hvalid|]. split; [eauto|].
    change (tag_keys []) with (∅ : gset key).
    rewrite ranked_candidates_no_tags, take_nil. reflexivity.
Qed.

(** [json.loads("")] raises. *)
Hypothesis loads_empty_text : json_loads "" = None.

Lemma load_tags_decoded (r : row) (text : string) (v : json) :
  row_tags r = Some text → json_loads text = Some v →
  load_tags json_loads r = Some v.
Proof.
  intros Htext Hv. unfold load_tags. rewrite Htext.
  destruct text; [congruence | exact Hv].
Qed.

(** An entry of the sorted list and the moment its record is shown as
    agree: on the overlap, on the stage flag, on the identifier. *)
Lemma ranked_entry (db : store) (moment_id : string)
    (source_tags : list string) (source_stage : option string)
    (x : nat * nat * row) (m : moment) :
  x ∈ ranked_candidates json_loads db moment_id (tag_keys source_tags)
        source_stage →
  shown json_loads x.2 = Some m →
  x.2 ∈ moments_table db
  ∧ m_id m ≠ moment_id
  ∧ x.1.1 = overlap source_tags m
  ∧ 0 < overlap source_tags m
  ∧ (x.1.2 = 1 ∧ same_stage source_stage m
     ∨ x.1.2 = 0 ∧ ¬ same_stage source_stage m)
  ∧ ∃ text, row_tags x.2 = Some text
            ∧ is_Some (json_loads text ≫= py_set).
Proof.
  intros Hx Hm. apply elem_of_ranked_candidates in Hx
    as (Hin & Hid & _ & _ & Hscore).
  apply score_candidate_Some in Hscore
    as (_ & text & v & c_tags & Htext & Hv & Hset & Hshared & Hpos & Hflag).
  pose proof (load_tags_decoded _ _ _ Htext Hv) as Hload.
  apply shown_fields in Hm as (Hmid & Hstage & Hload').
  rewrite Hload in Hload'. injection Hload' as ->.
  rewrite py_set_strings in Hset. injection Hset as <-.
  rewrite tag_keys_overlap in Hshared. fold (overlap source_tags m) in Hshared.
  unfold same_stage. rewrite Hmid, Hstage, <- Hshared.
  repeat split; try assumption.
  - rewrite Hflag. destruct (decide (row_stage x.2 = source_stage)); auto.
  - exists text. split; [exact Htext|]. rewrite Hv.
    cbn [mbind option_bind]. rewrite py_set_strings. eexists. reflexivity.
Qed.

(** The order of the moments of a sorted list of entries, those of
    them that can be shown. *)
Lemma ranked_moments_order (db : store) (moment_id : string)
    (source_tags : list string) (source_stage : option string)
    (entries : list (nat * nat * row)) :
  entries `sublist_of`
    ranked_candidates json_loads db moment_id (tag_keys source_tags)
      source_stage →
  ranked_with_ties json_loads db source_tags source_stage
    (omap (λ x, shown json_loads x.2) entries).
Proof.
  intros Hsub i j A B Hij HA HB.
  assert (HAB : [A; B] `sublist_of` omap (λ x, shown json_loads x.2) entries).
  { apply sublist_pair_lookup. eauto. }
  apply sublist_pair_omap in HAB as (xa & xb & Hpair & HfA & HfB).
  assert (Hranked : [xa; xb] `sublist_of`
            ranked_candidates json_loads db moment_id (tag_keys source_tags)
              source_stage).
  { etransitivity; [exact Hpair | exact Hsub]. }
  destruct (sublist_pair_elem_of _ _ _ Hranked) as [Hina Hinb].
  destruct (ranked_entry _ _ _ _ _ _ Hina HfA)
    as (_ & _ & HoA & _ & HsA & _).
  destruct (ranked_entry _ _ _ _ _ _ Hinb HfB)
    as (_ & _ & HoB & _ & HsB & _).
  unfold ranked_candidates in Hranked.
  apply sort_desc_pairs in Hranked as [Hlt | [Heq Hscan]].
  - unfold key_lt, sort_key in Hlt. cbn in Hlt.
    rewrite HoA, HoB in Hlt.
    destruct Hlt as [Hlt | [Heq Hlt]]; [left; exact Hlt | right; left].
    split; [symmetry; exact Heq|].
    destruct HsA as [[Ha HA1] | [Ha HA0]], HsB as [[Hb HB1] | [Hb HB0]];
      try lia. auto.
  - right. right. unfold sort_key in Heq. injection Heq as Ho Hs.
    rewrite HoA, HoB in Ho. split; [exact Ho|]. split.
    + destruct HsA as [[Ha HA1] | [Ha HA0]], HsB as [[Hb HB1] | [Hb HB0]];
        try lia; tauto.
    + apply sublist_pair_omap in Hscan as (ra & rb & Hrows & Hra & Hrb).
      apply score_candidate_Some in Hra as [Hra _].
      apply score_candidate_Some in Hrb as [Hrb _].
      assert (Htable : [ra; rb] `sublist_of` moments_table db).
      { etransitivity; [exact Hrows|]. apply sublist_filter. }
      apply sublist_pair_lookup in Htable as (p & q & Hpq & Hp & Hq).
      exists p, q, ra, rb. rewrite Hra in HfA. rewrite Hrb in HfB.
      auto.
Qed.


Lemma similar_found (db : store) (moment_id : string) (limit : option Z)
    (resp : SimilarResponse) :
  similar json_loads db moment_id limit = Return resp →
  ∃ source, fetch_by_id db moment_id = Some source.
Proof.
  unfold similar.
  destruct (bounded_int 5 1 20 limit); cbn [bind]; [|discriminate].
  destruct (fetch_by_id db moment_id) as [source|]; [|discriminate].
  intros _. exists source. reflexivity.
Qed.




(** A record can be shown when its formatting passes the response
    model. *)
Lemma shown_is_Some (r : row) :
  is_Some (shown json_loads r) →
  ∃ d, format_moment json_loads r = Some d ∧ is_Some (validate_Moment d).
Proof.
  intros [m Hm]. destruct (shown_formatted _ _ Hm) as (d & Hd & Hv).
  exists d. split; [exact Hd | eexists; exact Hv].
Qed.

(** When every entry of the sorted list can be shown, [similar]
    answers. *)
Lemma similar_total (db : store) (moment_id : string) (limit : option Z)
    (source : row) (source_tags : list string) :
  fetch_by_id db moment_id = Some source →
  load_tags json_loads source = Some (JArray (JString <$> source_tags)) →
  (∀ v, limit = Some v → (1 ≤ v ≤ 20)%Z) →
  (∀ x, x ∈ ranked_candidates json_loads db moment_id
              (tag_keys source_tags) (row_stage source) →
        is_Some (shown json_loads x.2)) →
  ∃ resp, similar json_loads db moment_id limit = Return resp
          ∧ sim_source_id resp = moment_id
          ∧ sim_source_tags resp = source_tags.
Proof.
  intros Hsource Hload Hlimit Hshown. unfold similar.
  assert (Hn : bounded_int 5 1 20 limit = Return (given_or 5 limit)).
  { destruct limit as [v|]; [|reflexivity].
    apply bounded_int_inside, Hlimit. reflexivity. }
  assert (Hpos : (0 ≤ given_or 5 limit)%Z).
  { destruct limit as [v|]; cbn; [specialize (Hlimit v eq_refl)|]; lia. }
  rewrite Hn, Hsource. cbn [bind]. rewrite Hload. cbn [or_uncaught bind].
  destruct (truthy_json (JArray (JString <$> source_tags))) eqn:Htruthy;
    cbn [negb].
  2: { destruct source_tags; [|discriminate Htruthy].
       eexists. split; [reflexivity|]. auto. }
  rewrite py_set_strings. cbn [or_uncaught bind].
  rewrite slice_to_take by exact Hpos.
  set (entries := take _ _).
  assert (Hentries : ∀ x, x ∈ entries → is_Some (shown json_loads x.2)).
  { intros x Hx. apply Hshown. eapply elem_of_sublist; [exact Hx|].
    apply sublist_take. }
  assert (Hfmt : ∃ top, mapM (λ x, format_moment json_loads x.2) entries
                        = Some top
                        ∧ is_Some (mapM validate_Moment top)).
  { clear -Hentries. induction entries as [|x entries IH].
    - exists []. split; [reflexivity | eexists; reflexivity].
    - destruct IH as (top & Htop & [validated Hval]).
      { intros y Hy. apply Hentries. right. exact Hy. }
      destruct (shown_is_Some x.2 (Hentries x ltac:(left)))
        as (d & Hd & [m Hm]).
      exists (d :: top). split.
      + apply mapM_Some_2. constructor; [exact Hd|].
        apply mapM_Some_1, Htop.
      + exists (m :: validated). apply mapM_Some_2.
        constructor; [exact Hm|]. apply mapM_Some_1, Hval. }
  destruct Hfmt as (top & Htop & [validated Hval]).
  rewrite Htop. cbn [or_uncaught bind].
  rewrite as_str_list_strings. cbn [or_invalid bind].
  rewrite Hval. cbn [or_invalid bind].
  eexists. split; [reflexivity|]. auto.
Qed.


(** [json.loads("[]")] is the empty list. *)
Hypothesis loads_empty_array : json_loads "[]" = Some (JArray []).

Lemma overlap_no_tags (source_tags : list string) (m : moment) :
  m_tags m = [] → overlap source_tags m = 0.
Proof.
  intros Hnone. unfold overlap. rewrite Hnone. cbn.
  apply size_empty_iff, elem_of_equiv_empty. intros t Ht.
  apply elem_of_intersection in Ht as [_ Ht].
  exact (not_elem_of_empty t Ht).
Qed.

(** A record that can be shown and shares a tag with the source is in
    the sorted list. *)
Lemma survivor_ranked (db : store) (moment_id : string)
    (source_tags : list string) (source_stage : option string)
    (c : row) (m : moment) :
  c ∈ moments_table db → row_id c ≠ moment_id →
  shown json_loads c = Some m →
  0 < overlap source_tags m →
  ∃ x, x ∈ ranked_candidates json_loads db moment_id
             (tag_keys source_tags) source_stage
       ∧ x.2 = c.
Proof.
  intros Hc Hid Hfmt Hpos.
  apply shown_fields in Hfmt as (_ & _ & Hload).
  assert (Hsome : m_tags m ≠ []).
  { intros Hnone. rewrite (overlap_no_tags _ _ Hnone) in Hpos. lia. }
  unfold load_tags in Hload.
  destruct (row_tags c) as [[|ch text]|] eqn:Htext.
  - injection Hload as Hload. destruct (m_tags m); [congruence|discriminate].
  - set (x := (overlap source_tags m,
               if decide (row_stage c = source_stage) then 1 else 0, c)).
    exists x. split; [|reflexivity].
    apply elem_of_ranked_candidates. cbn.
    split; [exact Hc|]. split; [exact Hid|]. split; [congruence|].
    split.
    + intros Heq. rewrite Htext in Heq. injection Heq as Hch Htxt.
      rewrite Hch, Htxt in Hload. change (String "[" "]") with "[]" in Hload.
      rewrite loads_empty_array in Hload. injection Hload as Hload.
      destruct (m_tags m); [congruence|discriminate].
    + unfold score_candidate. rewrite Htext. cbn [mbind option_bind].
      rewrite Hload. cbn [mbind option_bind]. rewrite py_set_strings.
      cbn [mbind option_bind]. rewrite tag_keys_overlap.
      fold (overlap source_tags m).
      destruct (decide (0 < overlap source_tags m)); [reflexivity | lia].
  - injection Hload as Hload. destruct (m_tags m); [congruence|discriminate].
Qed.

(** C2, as the code has it.  For a decoder that rejects the empty text
    and reads [[]] as the empty list, as [json.loads] does: of two
    moments of a similarity response,
    the earlier one shares more tags with the source; or they share as
    many and only the earlier one is at the source's stage; or they tie
    on both keys and the earlier one was scanned first.  The returned
    list is the first [limit] moments of a list that is ordered in this
    way and holds every record, other than the source, that shares a
    tag with the source: the cut comes after the sort. *)
Theorem similar_ranking (db : store) (moment_id : string)
    (limit : option Z) (source : row) (resp : SimilarResponse) :
  fetch_by_id db moment_id = Some source →
  similar json_loads db moment_id limit = Return resp →
  ranked_with_ties json_loads db (sim_source_tags resp) (row_stage source)
    (sim_moments resp)
  ∧ ∃ full,
      sim_moments resp = take (Z.to_nat (given_or 5 limit)) full
      ∧ ranked_with_ties json_loads db (sim_source_tags resp)
          (row_stage source) full
      ∧ ∀ c m,
          c ∈ moments_table db → row_id c ≠ moment_id →
          shown json_loads c = Some m →
          0 < overlap (sim_source_tags resp) m →
          m ∈ full.
Proof.
  intros Hsource Hret.
  destruct (similar_Return _ _ _ _ _ Hsource Hret) as (_ & _ & Hfmt).
  set (ranked := ranked_candidates json_loads db moment_id
                   (tag_keys (sim_source_tags resp)) (row_stage source))
    in *.
  split; [|exists (omap (λ x, shown json_loads x.2) ranked);
           split; [|split]].
  - rewrite <- (mapM_omap _ _ _ Hfmt).
    apply (ranked_moments_order db moment_id). apply sublist_take.
  - exact (mapM_take_omap _ _ _ _ Hfmt).
  - apply (ranked_moments_order db moment_id). reflexivity.
  - intros c m Hc Hid Hm Hpos.
    destruct (survivor_ranked db moment_id _ (row_stage source) _ _
                Hc Hid Hm Hpos) as (x & Hx & Hrow).
    apply list_elem_of_omap. exists x. split; [exact Hx|].
    rewrite Hrow. exact Hm.
Qed.

End SimilarityFacts.

(** C2, as stated, fails: with only its two alternatives the ranking
    invariant breaks on candidates that tie on both keys.  For source [m0]
    of the demo store the response lists [m3], [m1], [m2]; [m1] and [m2]
    each share one tag with [m0] and are both at its stage. *)
Lemma ranking_claim_counterexample :
  ∃ resp,
    similar loads_plain demo_store "m0" None = Return resp
    ∧ m_id <$> sim_moments resp = ["m3"; "m1"; "m2"]
    ∧ ¬ strictly_ranked (sim_source_tags resp) (Some "mvp")
          (sim_moments resp).
Proof.
  eexists. split; [vm_compute; reflexivity|]. split; [reflexivity|].
  intros Hstrict.
  destruct (Hstrict 1 2 _ _ ltac:(lia) eq_refl eq_refl)
    as [Hlt | (_ & _ & Hnot)].
  - vm_compute in Hlt. lia.
  - apply Hnot. reflexivity.
Qed.

Lemma similar_ranking_witness :
  ∃ resp,
    similar loads_plain demo_store "m0" (Some 2%Z) = Return resp
    ∧ m_id <$> sim_moments resp = ["m3"; "m1"]
    ∧ ranked_with_ties loads_plain demo_store (sim_source_tags resp)
        (Some "mvp") (sim_moments resp).
Proof.
  eexists. split; [vm_compute; reflexivity|]. split; [reflexivity|].
  eapply (similar_ranking loads_plain eq_refl eq_refl demo_store "m0"
            (Some 2%Z)
            (demo_row "m0" (Some "mvp")
               (Some (dumps_plain ["pricing"; "growth"])))).
  - vm_compute. reflexivity.
  - vm_compute. reflexivity.
Defined.


(** A record whose tag text decodes to an object is not passed over:
    [set()] takes the object's keys, the record is scored, and the
    response, which holds the object where a list of strings is
    declared, is refused. *)
Lemma similar_object_tags :
  similar loads_demo object_store "m1" None = Raise ResponseValidationError
  ∧ ∃ resp,
      similar loads_demo object_store "m1" (Some 1%Z) = Return resp
      ∧ m_id <$> sim_moments resp = ["m0"].
Proof.
  split; [vm_compute; reflexivity|].
  eexists. split; [vm_compute; reflexivity | reflexivity].
Qed.

(** ** Keyword extraction *)

Lemma dedup_loop_spec (keywords : list string) (seen : gset string)
    (unique : list string) :
  (∀ x, x ∈ seen ↔ x ∈ unique) → NoDup unique →
  let st := fold_left dedup_step keywords (seen, unique) in
  (∀ x, x ∈ st.1 ↔ x ∈ st.2)
  ∧ NoDup st.2
  ∧ (∀ x, x ∈ st.2 ↔ x ∈ unique ∨ x ∈ keywords)
  ∧ ∃ added, st.2 = unique ++ added ∧ added `sublist_of` keywords.
Proof.
  revert seen unique. induction keywords as [|kw kws IH];
    intros seen unique Hseen Hnd; cbn.
  - split; [exact Hseen|]. split; [exact Hnd|]. split.
    + intros x. rewrite elem_of_nil. tauto.
    + exists []. rewrite app_nil_r. split; [reflexivity | constructor].
  - assert (Hstep : dedup_step (seen, unique) kw
                    = if decide (kw ∈ seen) then (seen, unique)
                      else ({[kw]} ∪ seen, unique ++ [kw])) by reflexivity.
    destruct (decide (kw ∈ seen)) as [Hin | Hnew]; rewrite Hstep.
    + destruct (IH seen unique Hseen Hnd) as (H1 & H2 & H3 & added & H4 & H5).
      split; [exact H1|]. split; [exact H2|]. split.
      * intros x. rewrite H3, elem_of_cons. split; [tauto|].
        intros [Hu | [-> | Hk]]; auto. left. apply Hseen, Hin.
      * exists added. split; [exact H4|]. apply sublist_cons, H5.
    + destruct (IH ({[kw]} ∪ seen) (unique ++ [kw]))
        as (H1 & H2 & H3 & added & H4 & H5).
      * intros x. rewrite elem_of_union, elem_of_singleton, elem_of_app,
          list_elem_of_singleton, Hseen. tauto.
      * apply NoDup_snoc; [exact Hnd|]. rewrite <- Hseen. exact Hnew.
      * split; [exact H1|]. split; [exact H2|]. split.
        -- intros x. rewrite H3, elem_of_app, list_elem_of_singleton,
             elem_of_cons. tauto.
        -- exists (kw :: added). split.
           ++ rewrite H4, <- app_assoc. reflexivity.
           ++ apply sublist_skip, H5.
Qed.

(** The loop keeps one copy of every keyword, in the order of the
    keywords. *)
Lemma dedup_spec (keywords : list string) :
  NoDup (dedup keywords)
  ∧ (∀ x, x ∈ dedup keywords ↔ x ∈ keywords)
  ∧ dedup keywords `sublist_of` keywords.
Proof.
  unfold dedup.
  destruct (dedup_loop_spec keywords ∅ []) as (_ & H2 & H3 & added & H4 & H5).
  - intros x. rewrite elem_of_nil. split; [|tauto].
    intros Hx. exact (not_elem_of_empty x Hx).
  - constructor.
  - split; [exact H2|]. split.
    + intros x. rewrite H3, elem_of_nil. tauto.
    + rewrite H4. exact H5.
Qed.

Lemma extract_keywords_NoDup (text : string) : NoDup (extract_keywords text).
Proof. unfold extract_keywords. apply dedup_spec. Qed.

(** Every keyword is the trimmed form of a word the pattern matched and
    the filter let through. *)
Lemma extract_keywords_origin (text kw : string) :
  kw ∈ extract_keywords text →
  ∃ w, w ∈ findall_words (PyStr.lower text)
       ∧ (w ∉ STOPWORDS) ∧ 3 ≤ String.length w
       ∧ kw = PyStr.strip_chars "'" w.
Proof.
  unfold extract_keywords. intros Hkw.
  apply (proj1 (proj1 (proj2 (dedup_spec _)) kw)) in Hkw.
  apply list_elem_of_fmap in Hkw as (w & -> & Hw).
  apply list_elem_of_filter in Hw as [[Hstop Hlen] Hw].
  exists w. auto.
Qed.

(** *** The loop keeps first occurrences *)

Lemma dedup_step_seen (seen : gset string) (unique : list string)
    (kw : string) :
  kw ∈ seen → dedup_step (seen, unique) kw = (seen, unique).
Proof. intros Hin. unfold dedup_step. cbn. rewrite decide_True; done. Qed.

Lemma dedup_step_new (seen : gset string) (unique : list string)
    (kw : string) :
  kw ∉ seen →
  dedup_step (seen, unique) kw = ({[kw]} ∪ seen, unique ++ [kw]).
Proof. intros Hnew. unfold dedup_step. cbn. rewrite decide_False; done. Qed.

Lemma dedup_loop_unique (l : list string) (seen : gset string)
    (unique : list string) :
  (fold_left dedup_step l (seen, unique)).2
  = unique ++ (fold_left dedup_step l (seen, [])).2.
Proof.
  revert seen unique. induction l as [|kw l IH]; intros seen unique; cbn.
  - rewrite app_nil_r. reflexivity.
  - destruct (decide (kw ∈ seen)) as [Hin | Hnew].
    + rewrite !dedup_step_seen by exact Hin. apply IH.
    + rewrite !dedup_step_new by exact Hnew.
      rewrite IH, (IH _ ([] ++ [kw])), <- app_assoc. reflexivity.
Qed.

Lemma filter_all {A : Type} (P : A -> Prop) `{!∀ x, Decision (P x)}
    (l : list A) :
  (∀ x, x ∈ l → P x) → filter P l = l.
Proof.
  induction l as [|a l IH]; intros Hall; [reflexivity|].
  rewrite filter_cons_True by (apply Hall; left).
  f_equal. apply IH. intros x Hx. apply Hall. right. exact Hx.
Qed.

Lemma elem_of_singleton_empty (x y : string) :
  y ∈ ({[x]} ∪ ∅ : gset string) ↔ y = x.
Proof.
  rewrite elem_of_union, elem_of_singleton. split; [|auto].
  intros [Heq | Hin]; [exact Heq|]. destruct (not_elem_of_empty y Hin).
Qed.

Lemma dedup_loop_seen (l : list string) (seen : gset string) :
  (fold_left dedup_step l (seen, [])).2
  = filter (λ y, y ∉ seen) (dedup l).
Proof.
  revert seen. induction l as [|x l IH]; intros seen; [reflexivity|].
  unfold dedup. cbn.
  rewrite (dedup_step_new ∅) by apply not_elem_of_empty.
  rewrite (dedup_loop_unique l _ ([] ++ [x])), (IH ({[x]} ∪ ∅)). cbn [app].
  destruct (decide (x ∈ seen)) as [Hin | Hnew].
  - rewrite dedup_step_seen by exact Hin.
    rewrite filter_cons_False by tauto.
    rewrite IH, list_filter_filter. apply list_filter_iff.
    intros y. rewrite elem_of_singleton_empty. split; [|tauto].
    intros Hy. split; [exact Hy|]. intros ->. exact (Hy Hin).
  - rewrite dedup_step_new by exact Hnew.
    rewrite filter_cons_True by exact Hnew.
    rewrite (dedup_loop_unique l _ ([] ++ [x])), IH, list_filter_filter.
    cbn [app]. f_equal. apply list_filter_iff. intros y.
    rewrite elem_of_singleton_empty, elem_of_union, elem_of_singleton. tauto.
Qed.

(** The first keyword is kept, and dropped from what follows. *)
Lemma dedup_cons (x : string) (l : list string) :
  dedup (x :: l) = x :: filter (λ y, y ≠ x) (dedup l).
Proof.
  unfold dedup at 1. cbn.
  rewrite (dedup_step_new ∅) by apply not_elem_of_empty.
  rewrite (dedup_loop_unique l _ ([] ++ [x])), dedup_loop_seen. cbn [app].
  f_equal. apply list_filter_iff. intros y.
  rewrite elem_of_singleton_empty. tauto.
Qed.

Lemma dedup_NoDup_id (l : list string) : NoDup l → dedup l = l.
Proof.
  induction 1 as [|x l Hx Hnd IH]; [reflexivity|].
  rewrite dedup_cons, IH. f_equal. apply filter_all.
  intros y Hy ->. exact (Hx Hy).
Qed.

(** *** Characters of words and keywords *)

Lemma append_String (c : ascii) (s t : string) :
  String c s +:+ t = String c (s +:+ t).
Proof. reflexivity. Qed.

Lemma append_empty_l (t : string) : "" +:+ t = t.
Proof. reflexivity. Qed.

Lemma append_empty_r (s : string) : s +:+ "" = s.
Proof.
  induction s as [|c s IH]; [reflexivity|].
  rewrite append_String, IH. reflexivity.
Qed.

Lemma append_snoc (run t : string) (c : ascii) :
  (run +:+ String c "") +:+ t = run +:+ String c t.
Proof.
  induction run as [|d run IH]; [reflexivity|].
  rewrite !append_String, IH. reflexivity.
Qed.

Lemma all_chars_append (p : ascii -> bool) (a b : string) :
  all_chars p (a +:+ b) = all_chars p a && all_chars p b.
Proof.
  induction a as [|c a IH]; [reflexivity|].
  rewrite append_String. cbn [all_chars]. rewrite IH, andb_assoc.
  reflexivity.
Qed.

Lemma all_chars_impl (p q : ascii -> bool) (s : string) :
  (∀ c, p c = true → q c = true) →
  all_chars p s = true → all_chars q s = true.
Proof.
  intros Hpq. induction s as [|c s IH]; cbn; [reflexivity|].
  rewrite !andb_true_iff. intros [Hc Hs]. auto.
Qed.

Lemma lower_char_lowered (c : ascii) : is_lowered (PyStr.lower_char c) = true.
Proof. destruct c as [[] [] [] [] [] [] [] []]; reflexivity. Qed.

Lemma lower_lowered (s : string) : all_chars is_lowered (PyStr.lower s) = true.
Proof.
  induction s as [|c s IH]; cbn; [reflexivity|].
  rewrite lower_char_lowered, IH. reflexivity.
Qed.

Lemma lower_fixed (s : string) :
  all_chars is_lowered s = true → PyStr.lower s = s.
Proof.
  induction s as [|c s IH]; cbn; [reflexivity|].
  rewrite andb_true_iff. intros [Hc Hs]. rewrite (IH Hs). f_equal.
  unfold PyStr.lower_char. unfold is_lowered in Hc.
  destruct (PyStr.in_range "A" "Z" c); [discriminate Hc | reflexivity].
Qed.

Lemma emit_run_chars (p : ascii -> bool) (run : string) :
  all_chars p run = true →
  Forall (λ w, all_chars p w = true) (emit_run run).
Proof.
  intros Hrun. unfold emit_run. destruct (3 <=? String.length run); auto.
Qed.

(** The words the pattern finds are made of class characters of the
    text. *)
Lemma findall_from_chars (p q : ascii -> bool) :
  (∀ c, q c = true → is_token_char c = true → p c = true) →
  ∀ s run,
    all_chars p run = true → all_chars q s = true →
    Forall (λ w, all_chars p w = true) (findall_from run s).
Proof.
  intros Hpq s. induction s as [|c s IH]; intros run Hrun; cbn.
  - intros _. apply emit_run_chars, Hrun.
  - rewrite andb_true_iff. intros [Hc Hs].
    destruct (is_token_char c) eqn:Htok.
    + apply IH; [|exact Hs].
      rewrite all_chars_append, Hrun. cbn. rewrite (Hpq c Hc Htok).
      reflexivity.
    + apply Forall_app. split; [apply emit_run_chars, Hrun|].
      apply IH; [reflexivity | exact Hs].
Qed.

Lemma lstrip_chars (p q : ascii -> bool) (s : string) :
  all_chars p s = true → all_chars p (PyStr.lstrip q s) = true.
Proof.
  induction s as [|c s IH]; cbn; [reflexivity|].
  rewrite andb_true_iff. intros [Hc Hs].
  destruct (q c); [exact (IH Hs)|]. cbn. rewrite Hc, Hs. reflexivity.
Qed.

Lemma rstrip_chars (p q : ascii -> bool) (s : string) :
  all_chars p s = true → all_chars p (PyStr.rstrip q s) = true.
Proof.
  induction s as [|c s IH]; cbn; [reflexivity|].
  rewrite andb_true_iff. intros [Hc Hs]. specialize (IH Hs).
  destruct (PyStr.rstrip q s) as [|d r].
  - destruct (q c); cbn; [reflexivity | rewrite Hc; reflexivity].
  - cbn in *. rewrite Hc, IH. reflexivity.
Qed.

Lemma lstrip_head (q : ascii -> bool) (s : string) :
  PyStr.lstrip q s = ""
  ∨ ∃ c r, PyStr.lstrip q s = String c r ∧ q c = false.
Proof.
  induction s as [|c s IH]; cbn; [left; reflexivity|].
  destruct (q c) eqn:Hc; [exact IH|]. right. eauto.
Qed.

Lemma rstrip_head (q : ascii -> bool) (c : ascii) (r : string) :
  q c = false → PyStr.rstrip q (String c r) = String c (PyStr.rstrip q r).
Proof.
  intros Hc. cbn. destruct (PyStr.rstrip q r); [rewrite Hc|]; reflexivity.
Qed.

Lemma rstrip_idem (q : ascii -> bool) (s : string) :
  PyStr.rstrip q (PyStr.rstrip q s) = PyStr.rstrip q s.
Proof.
  induction s as [|c s IH]; [reflexivity|].
  cbn. destruct (PyStr.rstrip q s) as [|d r] eqn:Hs.
  - destruct (q c) eqn:Hc; [reflexivity|]. cbn. rewrite Hc. reflexivity.
  - change (PyStr.rstrip q (String c (String d r)))
      with (match PyStr.rstrip q (String d r) with
            | EmptyString => if q c then EmptyString else String c EmptyString
            | r' => String c r'
            end).
    rewrite IH. reflexivity.
Qed.

(** Trimming a trimmed string changes nothing. *)
Lemma strip_with_idem (q : ascii -> bool) (s : string) :
  PyStr.strip_with q (PyStr.strip_with q s) = PyStr.strip_with q s.
Proof.
  unfold PyStr.strip_with.
  destruct (lstrip_head q s) as [Hs | (c & r & Hs & Hc)]; rewrite Hs.
  - reflexivity.
  - rewrite (rstrip_head q c r Hc). cbn [PyStr.lstrip]. rewrite Hc.
    rewrite <- (rstrip_head q c r Hc). apply rstrip_idem.
Qed.

(** What a keyword looks like: lowercase letters and apostrophes, trimmed
    of apostrophes at both ends. *)
Lemma extract_keywords_shape (text kw : string) :
  kw ∈ extract_keywords text →
  all_chars is_keyword_char kw = true ∧ PyStr.strip_chars "'" kw = kw.
Proof.
  intros Hkw.
  apply extract_keywords_origin in Hkw as (w & Hw & _ & _ & ->).
  split; [|apply strip_with_idem].
  unfold PyStr.strip_chars, PyStr.strip_with.
  apply rstrip_chars, lstrip_chars.
  assert (Hall : Forall (λ w, all_chars is_keyword_char w = true)
                   (findall_words (PyStr.lower text))).
  { apply (findall_from_chars is_keyword_char is_lowered);
      [| reflexivity | apply lower_lowered].
    intros c Hlow Htok. unfold is_keyword_char. rewrite Hlow, Htok.
    reflexivity. }
  rewrite Forall_forall in Hall. apply Hall, Hw.
Qed.

(** *** Extraction on extracted keywords *)

Lemma findall_from_token_run (t run rest : string) :
  all_chars is_token_char t = true →
  findall_from run (t +:+ rest) = findall_from (run +:+ t) rest.
Proof.
  revert run. induction t as [|c t IH]; intros run.
  - intros _. rewrite append_empty_l, append_empty_r. reflexivity.
  - cbn [all_chars]. rewrite andb_true_iff. intros [Hc Ht].
    rewrite append_String. cbn [findall_from]. rewrite Hc.
    rewrite (IH _ Ht), append_snoc. reflexivity.
Qed.

Lemma emit_run_filter (w : string) :
  emit_run w = filter (λ t, 3 ≤ String.length t) [w].
Proof.
  unfold emit_run. rewrite filter_cons, filter_nil.
  destruct (decide (3 ≤ String.length w)) as [Hlen | Hlen].
  - apply Nat.leb_le in Hlen. rewrite Hlen. reflexivity.
  - apply Nat.leb_nle in Hlen. rewrite Hlen. reflexivity.
Qed.

(** On words joined by single spaces the pattern finds the words of
    three characters or more. *)
Lemma findall_words_join (l : list string) :
  Forall (λ t, all_chars is_token_char t = true) l →
  findall_words (PyStr.join " " l) = filter (λ t, 3 ≤ String.length t) l.
Proof.
  unfold findall_words. induction 1 as [|x l Hx Hl IH]; [reflexivity|].
  destruct l as [|y l].
  - cbn [PyStr.join]. rewrite <- (append_empty_r x) at 1.
    rewrite (findall_from_token_run x "" "" Hx), append_empty_l.
    cbn [findall_from]. apply emit_run_filter.
  - change (PyStr.join " " (x :: y :: l))
      with (x +:+ String " " (PyStr.join " " (y :: l))).
    rewrite (findall_from_token_run x "" _ Hx), append_empty_l.
    cbn [findall_from]. change (is_token_char " ") with false. cbv iota.
    rewrite IH, emit_run_filter, <- filter_app. reflexivity.
Qed.

Lemma join_lowered (l : list string) :
  Forall (λ t, all_chars is_lowered t = true) l →
  all_chars is_lowered (PyStr.join " " l) = true.
Proof.
  induction 1 as [|x l Hx Hl IH]; [reflexivity|].
  destruct l as [|y l]; [exact Hx|].
  change (PyStr.join " " (x :: y :: l))
    with (x +:+ String " " (PyStr.join " " (y :: l))).
  rewrite all_chars_append, Hx. cbn [all_chars andb].
  change (is_lowered " ") with true. exact IH.
Qed.

(** Extraction run again on its own output, joined by spaces, returns
    the keywords of the first run that pass the filter on stopwords and
    length, and drops the others: the ones the first run let out because
    it filters before it trims. *)
Lemma extract_keywords_rerun (text : string) :
  extract_keywords (PyStr.join " " (extract_keywords text))
  = filter (λ t, (t ∉ STOPWORDS) ∧ 3 ≤ String.length t)
      (extract_keywords text).
Proof.
  set (out := extract_keywords text).
  assert (Hshape : ∀ kw, kw ∈ out →
            all_chars is_keyword_char kw = true
            ∧ PyStr.strip_chars "'" kw = kw).
  { intros kw. apply extract_keywords_shape. }
  assert (Htok : Forall (λ t, all_chars is_token_char t = true) out).
  { apply Forall_forall. intros kw Hkw.
    apply (all_chars_impl is_keyword_char); [|apply Hshape, Hkw].
    intros c. unfold is_keyword_char. rewrite andb_true_iff. tauto. }
  assert (Hlow : Forall (λ t, all_chars is_lowered t = true) out).
  { apply Forall_forall. intros kw Hkw.
    apply (all_chars_impl is_keyword_char); [|apply Hshape, Hkw].
    intros c. unfold is_keyword_char. rewrite andb_true_iff. tauto. }
  unfold extract_keywords at 1.
  rewrite (lower_fixed _ (join_lowered _ Hlow)), (findall_words_join _ Htok).
  rewrite list_filter_filter_l by tauto.
  rewrite (Forall_fmap_ext_1 _ id).
  - rewrite list_fmap_id. apply dedup_NoDup_id, NoDup_filter.
    apply extract_keywords_NoDup.
  - apply Forall_forall. intros kw Hkw.
    apply list_elem_of_filter in Hkw as [_ Hkw]. apply Hshape, Hkw.
Qed.

(** C1, where the code breaks it.  The filter on stopwords and length
    runs before the apostrophes are trimmed: the quoted word ['is'] has
    four characters and is no stopword, so it passes, and its trimmed
    form [is], two characters long and a stopword, is returned. *)
Theorem extract_keywords_quoted_stopword :
  extract_keywords "'is'" = ["is"]
  ∧ String.length "is" = 2
  ∧ "is" ∈ STOPWORDS.
Proof.
  split; [vm_compute; reflexivity|]. split; [reflexivity|].
  apply (bool_decide_unpack _). vm_compute. exact I.
Qed.

(** C8, where the code breaks it.  Extraction on ['is'] returns [is];
    extraction on that output joined by spaces returns nothing, so the
    two runs do not yield the same set of terms. *)
Theorem extract_keywords_rerun_differs :
  extract_keywords "'is'" = ["is"]
  ∧ extract_keywords (PyStr.join " " (extract_keywords "'is'")) = []
  ∧ (list_to_set (extract_keywords
                    (PyStr.join " " (extract_keywords "'is'")))
       : gset string)
    ≠ list_to_set (extract_keywords "'is'").
Proof.
  split; [vm_compute; reflexivity|]. split; [vm_compute; reflexivity|].
  intros Heq.
  assert (Hin : "is" ∈ (list_to_set (extract_keywords "'is'") : gset string)).
  { apply elem_of_list_to_set. apply (bool_decide_unpack _).
    vm_compute. exact I. }
  rewrite <- Heq in Hin. apply elem_of_list_to_set in Hin.
  revert Hin. apply (bool_decide_unpack _). vm_compute. exact I.
Qed.

(** ** More on keyword extraction *)

Lemma lower_append (a b : string) :
  PyStr.lower (a +:+ b) = PyStr.lower a +:+ PyStr.lower b.
Proof.
  induction a as [|c a IH]; [reflexivity|].
  rewrite append_String. cbn [PyStr.lower]. rewrite IH, append_String.
  reflexivity.
Qed.

Lemma lower_idem (s : string) : PyStr.lower (PyStr.lower s) = PyStr.lower s.
Proof. apply lower_fixed, lower_lowered. Qed.

(** A character outside the class ends the word being read. *)
Lemma findall_from_separator (x run y : string) (c : ascii) :
  is_token_char c = false →
  findall_from run (x +:+ String c y)
  = findall_from run x ++ findall_from "" y.
Proof.
  intros Hc. revert run. induction x as [|d x IH]; intros run.
  - rewrite append_empty_l. cbn [findall_from]. rewrite Hc. reflexivity.
  - rewrite append_String. cbn [findall_from].
    destruct (is_token_char d); [apply IH|].
    rewrite IH, app_assoc. reflexivity.
Qed.

Lemma dedup_app (l1 l2 : list string) :
  dedup (l1 ++ l2)
  = dedup l1 ++ filter (λ k, k ∉ dedup l1) (dedup l2).
Proof.
  unfold dedup at 1. rewrite fold_left_app.
  destruct (fold_left dedup_step l1 (∅, [])) as [seen unique] eqn:Hst.
  destruct (dedup_loop_spec l1 ∅ []) as (Hseen & _).
  { intros x. rewrite elem_of_nil. split; [|tauto].
    intros Hx. exact (not_elem_of_empty x Hx). }
  { constructor. }
  rewrite Hst in Hseen. cbn in Hseen.
  assert (Hunique : dedup l1 = unique).
  { unfold dedup. rewrite Hst. reflexivity. }
  rewrite dedup_loop_unique, dedup_loop_seen, Hunique. f_equal.
  apply list_filter_iff. intros k. rewrite Hseen. reflexivity.
Qed.

(** X1.  The keywords of two texts joined by a space are the keywords of
    the first text followed by those of the second that the first did
    not already give. *)
Theorem extract_keywords_space (a b : string) :
  extract_keywords (a +:+ " " +:+ b)
  = extract_keywords a
    ++ filter (λ k, k ∉ extract_keywords a) (extract_keywords b).
Proof.
  unfold extract_keywords, findall_words.
  rewrite lower_append.
  change (PyStr.lower (" " +:+ b)) with (String " " (PyStr.lower b)).
  rewrite findall_from_separator by reflexivity.
  rewrite filter_app, fmap_app. apply dedup_app.
Qed.

(** X2.  Letter case does not matter: extraction on the lowered text, or
    on any text that lowers to the same text, gives the same keywords. *)
Theorem extract_keywords_case (text : string) :
  extract_keywords (PyStr.lower text) = extract_keywords text
  ∧ ∀ other, PyStr.lower other = PyStr.lower text →
             extract_keywords other = extract_keywords text.
Proof.
  split.
  - unfold extract_keywords. rewrite lower_idem. reflexivity.
  - intros other Hsame. unfold extract_keywords. rewrite Hsame. reflexivity.
Qed.

Lemma extract_keywords_case_witness :
  extract_keywords "Pricing STRATEGY" = extract_keywords "pricing strategy".
Proof.
  apply (proj2 (extract_keywords_case "pricing strategy")). reflexivity.
Defined.

(** X3.  Every keyword is made of lowercase letters and apostrophes only,
    neither starts nor ends with an apostrophe (trimming it again changes
    nothing), and occurs once in the output. *)
Theorem extract_keywords_tokens (text : string) :
  NoDup (extract_keywords text)
  ∧ ∀ kw, kw ∈ extract_keywords text →
          all_chars is_keyword_char kw = true
          ∧ PyStr.strip_chars "'" kw = kw.
Proof.
  split; [apply extract_keywords_NoDup|].
  intros kw. apply extract_keywords_shape.
Qed.

Lemma extract_keywords_tokens_witness :
  all_chars is_keyword_char "founder's" = true
  ∧ PyStr.strip_chars "'" "founder's" = "founder's".
Proof.
  apply (proj2 (extract_keywords_tokens "The Founder's 'pricing' call")).
  apply (list_elem_of_lookup_2 _ 0). vm_compute. reflexivity.
Defined.

(** X4.  The deduplication loop keeps the first occurrence of every
    keyword, in order: nothing is kept of the empty list, and of a list
    the head is kept, followed by what is kept of the tail less the
    head. *)
Theorem dedup_first_occurrences (x : string) (l : list string) :
  dedup [] = []
  ∧ dedup (x :: l) = x :: filter (λ y, y ≠ x) (dedup l)
  ∧ NoDup (dedup l)
  ∧ (∀ y, y ∈ dedup l ↔ y ∈ l).
Proof.
  split; [reflexivity|]. split; [apply dedup_cons|].
  destruct (dedup_spec l) as (Hnd & Hmem & _). auto.
Qed.

Lemma not_apostrophe_lower (c : ascii) :
  negb (Ascii.eqb c "'") = true →
  negb (Ascii.eqb (PyStr.lower_char c) "'") = true.
Proof. destruct c as [[] [] [] [] [] [] [] []]; cbn; auto. Qed.

Lemma lower_chars (p : ascii -> bool) (s : string) :
  (∀ c, p c = true → p (PyStr.lower_char c) = true) →
  all_chars p s = true → all_chars p (PyStr.lower s) = true.
Proof.
  intros Hp. induction s as [|c s IH]; cbn; [reflexivity|].
  rewrite !andb_true_iff. intros [Hc Hs]. auto.
Qed.

Lemma lstrip_none (q : ascii -> bool) (s : string) :
  all_chars (λ c, negb (q c)) s = true → PyStr.lstrip q s = s.
Proof.
  destruct s as [|c s]; cbn; [reflexivity|].
  rewrite andb_true_iff. intros [Hc _].
  destruct (q c); [discriminate Hc | reflexivity].
Qed.

Lemma rstrip_none (q : ascii -> bool) (s : string) :
  all_chars (λ c, negb (q c)) s = true → PyStr.rstrip q s = s.
Proof.
  induction s as [|c s IH]; cbn; [reflexivity|].
  rewrite andb_true_iff. intros [Hc Hs]. rewrite (IH Hs).
  destruct s; [|reflexivity].
  destruct (q c); [discriminate Hc | reflexivity].
Qed.

(** X5.  On a text without apostrophes extraction does what its filter
    promises: no keyword is shorter than three characters, none is a
    stopword, and extraction on the keywords joined by spaces returns
    the same keywords. *)
Theorem extract_keywords_no_apostrophe (text : string) :
  all_chars (λ c, negb (Ascii.eqb c "'")) text = true →
  (∀ kw, kw ∈ extract_keywords text →
         3 ≤ String.length kw ∧ kw ∉ STOPWORDS)
  ∧ extract_keywords (PyStr.join " " (extract_keywords text))
    = extract_keywords text.
Proof.
  intros Hclean.
  assert (Hgood : ∀ kw, kw ∈ extract_keywords text →
                        3 ≤ String.length kw ∧ kw ∉ STOPWORDS).
  { intros kw Hkw.
    apply extract_keywords_origin in Hkw as (w & Hw & Hstop & Hlen & ->).
    assert (Hwords : Forall
              (λ w, all_chars (λ c, negb (Ascii.eqb c "'")) w = true)
              (findall_words (PyStr.lower text))).
    { apply (findall_from_chars _ (λ c, negb (Ascii.eqb c "'")));
        [auto | reflexivity |].
      apply lower_chars; [apply not_apostrophe_lower | exact Hclean]. }
    rewrite Forall_forall in Hwords. specialize (Hwords w Hw).
    assert (Hsame : PyStr.strip_chars "'" w = w).
    { unfold PyStr.strip_chars, PyStr.strip_with.
      assert (Hq : all_chars (λ c, negb (PyStr.mem_char c "'")) w = true).
      { eapply all_chars_impl; [|exact Hwords].
        intros c Hc. cbn. rewrite orb_false_r. exact Hc. }
      rewrite (lstrip_none _ _ Hq). apply rstrip_none, Hq. }
    rewrite Hsame. auto. }
  split; [exact Hgood|].
  rewrite extract_keywords_rerun. apply filter_all.
  intros kw Hkw. destruct (Hgood kw Hkw). auto.
Qed.

Lemma extract_keywords_no_apostrophe_witness :
  extract_keywords
    (PyStr.join " " (extract_keywords "We raised prices and it worked"))
  = extract_keywords "We raised prices and it worked".
Proof.
  apply (extract_keywords_no_apostrophe "We raised prices and it worked").
  reflexivity.
Defined.

(** X6.  Extraction settles after one more run: run again on its own
    output joined by spaces it returns the keywords that pass the filter
    on stopwords and length, in the same order, and a further run
    returns that list unchanged. *)
Theorem extract_keywords_settles (text : string) :
  let again := extract_keywords (PyStr.join " " (extract_keywords text)) in
  again = filter (λ t, (t ∉ STOPWORDS) ∧ 3 ≤ String.length t)
            (extract_keywords text)
  ∧ extract_keywords (PyStr.join " " again) = again.
Proof.
  cbn zeta. split; [apply extract_keywords_rerun|].
  rewrite (extract_keywords_rerun (PyStr.join " " (extract_keywords text))).
  rewrite extract_keywords_rerun. apply list_filter_filter_l. tauto.
Qed.

(** ** More on timestamps and URLs *)

Lemma prefix_split (p s : string) :
  String.prefix p s = true → ∃ rest, s = p +:+ rest.
Proof.
  revert s. induction p as [|a p IH]; intros s.
  - intros _. exists s. reflexivity.
  - destruct s as [|b s]; cbn; [discriminate|].
    destruct (ascii_dec a b) as [<- | _]; [|discriminate].
    intros Hp. destruct (IH s Hp) as [rest ->]. exists rest. reflexivity.
Qed.

Lemma prefix_append (sub p rest : string) :
  String.prefix sub p = true → String.prefix sub (p +:+ rest) = true.
Proof.
  revert p. induction sub as [|a sub IH]; intros p.
  - intros _. destruct (p +:+ rest); reflexivity.
  - destruct p as [|b p]; [discriminate|].
    rewrite append_String. cbn [String.prefix].
    destruct (ascii_dec a b); [apply IH | discriminate].
Qed.

Lemma contains_append (sub p rest : string) :
  PyStr.contains sub p = true → PyStr.contains sub (p +:+ rest) = true.
Proof.
  induction p as [|b p IH].
  - cbn. rewrite orb_false_r. intros Hp.
    destruct sub; [|discriminate Hp].
    destruct rest; reflexivity.
  - rewrite append_String. cbn [PyStr.contains].
    rewrite !orb_true_iff. intros [Hp | Hin].
    + left. apply (prefix_append sub (String b p) rest Hp).
    + right. apply IH, Hin.
Qed.

Lemma str_of_int_Some (n : Z) (text : string) :
  PyStr.str_of_int n = Some text →
  text = PyStr.decimal n ∧ few_digits n = true.
Proof.
  unfold PyStr.str_of_int, few_digits. rewrite Nat.ltb_antisym.
  destruct (_ <=? _); cbn [negb]; [|discriminate].
  intros [= <-]. auto.
Qed.

Lemma str_of_int_few (n : Z) :
  few_digits n = true → PyStr.str_of_int n = Some (PyStr.decimal n).
Proof.
  unfold PyStr.str_of_int, few_digits. rewrite Nat.ltb_antisym.
  intros ->. reflexivity.
Qed.

(** X7.  A timestamped URL is produced only from a watch URL, and is
    that URL itself or that URL followed by [&t=], the parsed seconds in
    decimal, and [s]: the separator is always [&], never [?], and the
    canonical URL is never altered. *)
Theorem build_url_at_moment_shape (base_url timestamp : option string)
    (derived : string) :
  build_url_at_moment base_url timestamp = Some (Some derived) →
  ∃ url,
    base_url = Some url
    ∧ PyStr.startswith YOUTUBE_WATCH url = true
    ∧ match parse_timestamp_to_seconds timestamp with
      | None => derived = url
      | Some seconds =>
          derived = url +:+ "&t=" +:+ PyStr.decimal seconds +:+ "s"
          ∧ few_digits seconds = true
      end.
Proof.
  unfold build_url_at_moment.
  destruct base_url as [[|c url]|]; try discriminate.
  destruct (PyStr.startswith YOUTUBE_WATCH (String c url)) eqn:Hyt;
    [|discriminate].
  cbn [negb]. intros Hderived. exists (String c url).
  split; [reflexivity|]. split; [exact Hyt|].
  assert (Hq : PyStr.contains "?" (String c url) = true).
  { destruct (prefix_split _ _ Hyt) as [rest ->].
    apply contains_append. reflexivity. }
  rewrite Hq in Hderived. revert Hderived.
  destruct (parse_timestamp_to_seconds timestamp) as [seconds|];
    [|intros [= <-]; reflexivity].
  destruct (PyStr.str_of_int seconds) as [text|] eqn:Htext;
    cbn [mbind option_bind]; [|discriminate].
  apply str_of_int_Some in Htext as [-> Hfew].
  intros [= <-]. split; [reflexivity | exact Hfew].
Qed.

Lemma build_url_at_moment_shape_witness :
  ∃ url,
    Some "https://www.youtube.com/watch?v=XYZ" = Some url
    ∧ PyStr.startswith YOUTUBE_WATCH url = true
    ∧ match parse_timestamp_to_seconds (Some "3:26") with
      | None => "https://www.youtube.com/watch?v=XYZ&t=206s" = url
      | Some seconds =>
          "https://www.youtube.com/watch?v=XYZ&t=206s"
          = url +:+ "&t=" +:+ PyStr.decimal seconds +:+ "s"
          ∧ few_digits seconds = true
      end.
Proof.
  apply (build_url_at_moment_shape
           (Some "https://www.youtube.com/watch?v=XYZ") (Some "3:26")).
  vm_compute. reflexivity.
Defined.

(** *** Integers written by [str] and read by [int] *)

Ltac read_digit IH :=
  cbn [NilEmpty.string_of_uint PyStr.int_digits];
  match goal with
  | |- context [PyStr.digit_val ?c] =>
      let v := eval vm_compute in (PyStr.digit_val c) in
      change (PyStr.digit_val c) with v
  end;
  cbv iota; rewrite <- (IH _ true) by (right; reflexivity);
  f_equal; lia.

Lemma int_digits_acc (d : Decimal.uint) (acc : positive) (b : bool) :
  d ≠ Decimal.Nil ∨ b = true →
  PyStr.int_digits (Z.pos acc) b (NilEmpty.string_of_uint d)
  = Some (Z.pos (Pos.of_uint_acc d acc)).
Proof.
  revert acc b.
  induction d as [|d IH|d IH|d IH|d IH|d IH|d IH|d IH|d IH|d IH|d IH];
    intros acc b Hok; cbn [Pos.of_uint_acc].
  - destruct Hok as [Hnil | ->]; [congruence | reflexivity].
  - read_digit IH.
  - read_digit IH.
  - read_digit IH.
  - read_digit IH.
  - read_digit IH.
  - read_digit IH.
  - read_digit IH.
  - read_digit IH.
  - read_digit IH.
  - read_digit IH.
Qed.

Lemma int_digits_uint (d : Decimal.uint) (b : bool) :
  d ≠ Decimal.Nil ∨ b = true →
  PyStr.int_digits 0 b (NilEmpty.string_of_uint d)
  = Some (Z.of_N (Pos.of_uint d)).
Proof.
  revert b.
  induction d as [|d IH|d IH|d IH|d IH|d IH|d IH|d IH|d IH|d IH|d IH];
    intros b Hok; cbn [Pos.of_uint].
  - destruct Hok as [Hnil | ->]; [congruence | reflexivity].
  - cbn [NilEmpty.string_of_uint PyStr.int_digits].
    change (PyStr.digit_val "0") with (Some 0%Z). cbv iota.
    apply (IH true). right. reflexivity.
  - apply (int_digits_acc d 1 true). right. reflexivity.
  - apply (int_digits_acc d 2 true). right. reflexivity.
  - apply (int_digits_acc d 3 true). right. reflexivity.
  - apply (int_digits_acc d 4 true). right. reflexivity.
  - apply (int_digits_acc d 5 true). right. reflexivity.
  - apply (int_digits_acc d 6 true). right. reflexivity.
  - apply (int_digits_acc d 7 true). right. reflexivity.
  - apply (int_digits_acc d 8 true). right. reflexivity.
  - apply (int_digits_acc d 9 true). right. reflexivity.
Qed.

Lemma uint_string_chars (d : Decimal.uint) :
  all_chars is_number_char (NilEmpty.string_of_uint d) = true.
Proof. induction d; cbn; auto. Qed.

Lemma decimal_chars (n : Z) :
  all_chars is_number_char (PyStr.decimal n) = true.
Proof.
  unfold PyStr.decimal, NilZero.string_of_int, NilZero.string_of_uint.
  destruct (Z.to_int n) as [d | d]; destruct d; cbn; auto;
    apply uint_string_chars.
Qed.

Lemma number_char_not_space (c : ascii) :
  is_number_char c = true → negb (PyStr.is_space c) = true.
Proof. destruct c as [[] [] [] [] [] [] [] []]; cbn; auto. Qed.

Lemma number_char_not_colon (c : ascii) :
  is_number_char c = true → negb (Ascii.eqb c ":") = true.
Proof. destruct c as [[] [] [] [] [] [] [] []]; cbn; auto. Qed.

Lemma strip_none (s : string) :
  all_chars (λ c, negb (PyStr.is_space c)) s = true → PyStr.strip s = s.
Proof.
  intros Hs. unfold PyStr.strip, PyStr.strip_with.
  rewrite (lstrip_none _ _ Hs). apply rstrip_none, Hs.
Qed.

Lemma int_unsigned (d : Decimal.uint) :
  d ≠ Decimal.Nil →
  PyStr.int_value (NilEmpty.string_of_uint d)
  = Some (Z.of_N (Pos.of_uint d)).
Proof.
  intros Hd. unfold PyStr.int_value. rewrite strip_none.
  - rewrite <- (int_digits_uint d false) by (left; exact Hd).
    destruct d; [congruence | reflexivity ..].
  - eapply all_chars_impl; [apply number_char_not_space|].
    apply uint_string_chars.
Qed.

Lemma int_negative (d : Decimal.uint) :
  d ≠ Decimal.Nil →
  PyStr.int_value (String "-" (NilEmpty.string_of_uint d))
  = Some (- Z.of_N (Pos.of_uint d))%Z.
Proof.
  intros Hd. unfold PyStr.int_value. rewrite strip_none.
  - cbv iota beta. rewrite (int_digits_uint d false) by (left; exact Hd).
    reflexivity.
  - cbn [all_chars]. change (negb (PyStr.is_space "-")) with true.
    eapply all_chars_impl; [apply number_char_not_space|].
    apply uint_string_chars.
Qed.

Lemma string_of_uint_nonnil (d : Decimal.uint) :
  d ≠ Decimal.Nil →
  NilZero.string_of_uint d = NilEmpty.string_of_uint d.
Proof. destruct d; [congruence | reflexivity ..]. Qed.

(** The value of a number written in decimal is that number. *)
Lemma int_value_decimal (n : Z) :
  PyStr.int_value (PyStr.decimal n) = Some n.
Proof.
  unfold PyStr.decimal. destruct n as [|p|p]; [reflexivity| |].
  - cbn [Z.to_int NilZero.string_of_int].
    pose proof (DecimalPos.Unsigned.to_uint_nonnil p) as Hnil.
    rewrite (string_of_uint_nonnil _ Hnil), (int_unsigned _ Hnil).
    rewrite DecimalPos.Unsigned.of_to. reflexivity.
  - cbn [Z.to_int NilZero.string_of_int].
    pose proof (DecimalPos.Unsigned.to_uint_nonnil p) as Hnil.
    rewrite (string_of_uint_nonnil _ Hnil), (int_negative _ Hnil).
    rewrite DecimalPos.Unsigned.of_to. reflexivity.
Qed.

(** [int()] reads a number written in decimal back, unless it has too
    many digits. *)
Lemma int_decimal (n : Z) :
  PyStr.int (PyStr.decimal n) = if few_digits n then Some n else None.
Proof.
  unfold PyStr.int, few_digits. rewrite Nat.ltb_antisym.
  destruct (_ <=? _); cbn [negb]; [apply int_value_decimal | reflexivity].
Qed.

Lemma split_no_sep (sep : ascii) (a : string) :
  all_chars (λ c, negb (Ascii.eqb c sep)) a = true →
  PyStr.split sep a = [a].
Proof.
  induction a as [|c a IH]; cbn; [reflexivity|].
  rewrite andb_true_iff. intros [Hc Ha]. rewrite (IH Ha).
  destruct (Ascii.eqb c sep); [discriminate Hc | reflexivity].
Qed.

Lemma split_append (sep : ascii) (a b : string) :
  all_chars (λ c, negb (Ascii.eqb c sep)) a = true →
  PyStr.split sep (a +:+ String sep b) = a :: PyStr.split sep b.
Proof.
  induction a as [|c a IH].
  - intros _. rewrite append_empty_l. cbn [PyStr.split].
    rewrite Ascii.eqb_refl. reflexivity.
  - cbn [all_chars]. rewrite andb_true_iff. intros [Hc Ha].
    rewrite append_String. cbn [PyStr.split]. rewrite (IH Ha).
    destruct (Ascii.eqb c sep); [discriminate Hc | reflexivity].
Qed.

Lemma decimal_no_colon (n : Z) :
  all_chars (λ c, negb (Ascii.eqb c ":")) (PyStr.decimal n) = true.
Proof.
  eapply all_chars_impl; [apply number_char_not_colon|].
  apply decimal_chars.
Qed.

Lemma decimal_no_space (n : Z) :
  all_chars (λ c, negb (PyStr.is_space c)) (PyStr.decimal n) = true.
Proof.
  eapply all_chars_impl; [apply number_char_not_space|].
  apply decimal_chars.
Qed.

Lemma decimal_nonempty (n : Z) (rest : string) :
  ∃ c r, PyStr.decimal n +:+ rest = String c r.
Proof.
  pose proof (int_value_decimal n) as Hint.
  destruct (PyStr.decimal n) as [|c r]; [discriminate Hint|].
  rewrite append_String. eauto.
Qed.

(** What [parse_timestamp_to_seconds] does with a text that has no white
    space at either end. *)
Lemma parse_timestamp_parts (t : string) :
  all_chars (λ c, negb (PyStr.is_space c)) t = true →
  t ≠ "" →
  parse_timestamp_to_seconds (Some t)
  = match mapM PyStr.int (PyStr.split ":" t) with
    | Some [m; s] => Some (m * 60 + s)%Z
    | Some [h; m; s] => Some (h * 3600 + m * 60 + s)%Z
    | _ => None
    end.
Proof.
  intros Hsp Hne. destruct t as [|c t]; [congruence|].
  unfold parse_timestamp_to_seconds. rewrite (strip_none _ Hsp).
  reflexivity.
Qed.

Lemma mapM_two {A B : Type} (f : A -> option B) (a b : A) :
  mapM f [a; b] = (x ← f a; y ← f b; Some [x; y]).
Proof.
  cbn. destruct (f a); cbn; [|reflexivity]. destruct (f b); reflexivity.
Qed.

Lemma mapM_three {A B : Type} (f : A -> option B) (a b c : A) :
  mapM f [a; b; c] = (x ← f a; y ← f b; z ← f c; Some [x; y; z]).
Proof.
  cbn. destruct (f a); cbn; [|reflexivity].
  destruct (f b); cbn; [|reflexivity]. destruct (f c); reflexivity.
Qed.

(** X8.  Minutes and seconds, or hours, minutes and seconds, written in
    decimal and separated by colons parse to [60 m + s] and to
    [3600 h + 60 m + s] when no part has more digits than [int()]
    reads, and do not parse otherwise; no part is checked against a
    range. *)
Theorem parse_timestamp_decimal (h m s : Z) :
  parse_timestamp_to_seconds
    (Some (PyStr.decimal m +:+ ":" +:+ PyStr.decimal s))
  = (if few_digits m && few_digits s then Some (m * 60 + s)%Z else None)
  ∧ parse_timestamp_to_seconds
      (Some (PyStr.decimal h +:+ ":" +:+ PyStr.decimal m
             +:+ ":" +:+ PyStr.decimal s))
    = (if few_digits h && few_digits m && few_digits s
       then Some (h * 3600 + m * 60 + s)%Z else None).
Proof.
  split.
  - rewrite parse_timestamp_parts.
    + change (":" +:+ PyStr.decimal s)
        with (String ":" (PyStr.decimal s)).
      rewrite (split_append ":" _ _ (decimal_no_colon m)).
      rewrite (split_no_sep ":" _ (decimal_no_colon s)).
      rewrite mapM_two, !int_decimal.
      destruct (few_digits m), (few_digits s); reflexivity.
    + rewrite all_chars_append, decimal_no_space.
      change (":" +:+ PyStr.decimal s)
        with (String ":" (PyStr.decimal s)).
      cbn [all_chars]. rewrite decimal_no_space. reflexivity.
    + destruct (decimal_nonempty m (":" +:+ PyStr.decimal s))
        as (c & r & ->). discriminate.
  - rewrite parse_timestamp_parts.
    + change (":" +:+ PyStr.decimal m +:+ ":" +:+ PyStr.decimal s)
        with (String ":" (PyStr.decimal m
                          +:+ String ":" (PyStr.decimal s))).
      rewrite (split_append ":" _ _ (decimal_no_colon h)).
      rewrite (split_append ":" _ _ (decimal_no_colon m)).
      rewrite (split_no_sep ":" _ (decimal_no_colon s)).
      rewrite mapM_three, !int_decimal.
      destruct (few_digits h), (few_digits m), (few_digits s);
        reflexivity.
    + rewrite all_chars_append, decimal_no_space.
      change (":" +:+ PyStr.decimal m +:+ ":" +:+ PyStr.decimal s)
        with (String ":" (PyStr.decimal m
                          +:+ String ":" (PyStr.decimal s))).
      cbn [all_chars]. rewrite all_chars_append, decimal_no_space.
      cbn [all_chars]. rewrite decimal_no_space. reflexivity.
    + destruct (decimal_nonempty h
                  (":" +:+ PyStr.decimal m +:+ ":" +:+ PyStr.decimal s))
        as (c & r & ->). discriminate.
Qed.

(** X9.  A timestamp without a colon is never parsed, whatever it holds:
    bare seconds are not a timestamp, and a watch URL then comes back
    unchanged. *)
Theorem parse_timestamp_needs_colon (t url : string) :
  all_chars (λ c, negb (Ascii.eqb c ":")) t = true →
  parse_timestamp_to_seconds (Some t) = None
  ∧ (PyStr.startswith YOUTUBE_WATCH url = true →
     build_url_at_moment (Some url) (Some t) = Some (Some url)).
Proof.
  intros Hcolon.
  assert (Hnone : parse_timestamp_to_seconds (Some t) = None).
  { unfold parse_timestamp_to_seconds. destruct t as [|c t]; [reflexivity|].
    rewrite split_no_sep.
    - cbn [mapM mbind option_bind]. destruct (PyStr.int _); reflexivity.
    - unfold PyStr.strip, PyStr.strip_with.
      apply rstrip_chars, lstrip_chars, Hcolon. }
  split; [exact Hnone|].
  intros Hyt. unfold build_url_at_moment.
  destruct url as [|c url]; [discriminate Hyt|].
  rewrite Hyt, Hnone. reflexivity.
Qed.

Lemma parse_timestamp_needs_colon_witness :
  parse_timestamp_to_seconds (Some "206") = None
  ∧ build_url_at_moment (Some "https://www.youtube.com/watch?v=XYZ")
      (Some "206")
    = Some (Some "https://www.youtube.com/watch?v=XYZ").
Proof.
  destruct (parse_timestamp_needs_colon "206"
              "https://www.youtube.com/watch?v=XYZ") as [Hparse Hurl].
  - reflexivity.
  - split; [exact Hparse | apply Hurl; reflexivity].
Defined.

(** ** More on merging the source *)

Lemma resolve_source_Some (moment : raw_moment) (meta : source_fields) :
  f_url (default no_fields (mo_source moment)) ≠ Null →
  f_guest (default no_fields (mo_source moment)) ≠ Null →
  ∃ merged, resolve_source moment meta = Some merged.
Proof.
  intros Hurl Hguest. unfold resolve_source.
  rewrite (get_or_not_null _ Hurl), (get_or_not_null _ Hguest).
  rewrite !py_or_Some. cbn [mbind option_bind].
  destruct (PyStr.contains "TODO" _); cbn [mbind option_bind];
    eexists; reflexivity.
Qed.

(** X10.  [resolve_source] raises in two cases only, both from a [null]
    in the raw source: a [null] raw URL when the metadata has no URL;
    and a [null] raw guest when the metadata guest is missing, empty or
    contains [TODO]. *)
Theorem resolve_source_raises (moment : raw_moment) (meta : source_fields) :
  let src := default no_fields (mo_source moment) in
  resolve_source moment meta = None ↔
  (PyStr.truthy (get (f_url meta)) = false ∧ f_url src = Null)
  ∨ (f_guest src = Null
     ∧ (PyStr.truthy (get (f_guest meta)) = false
        ∨ ∃ g, get (f_guest meta) = Some g
               ∧ PyStr.contains "TODO" g = true)).
Proof.
  cbn zeta. set (src := default no_fields (mo_source moment)).
  unfold resolve_source. fold src.
  destruct (f_url meta) as [| |[|c mu]] eqn:Hmu;
    destruct (f_url src) as [| |ru] eqn:Hru;
    cbn [get get_or py_or PyStr.truthy mbind option_bind].
  all: destruct (f_guest meta) as [| |[|d mg]] eqn:Hmg;
    destruct (f_guest src) as [| |rg] eqn:Hrg;
    cbn [get get_or py_or PyStr.truthy mbind option_bind].
  all: repeat match goal with
         | |- context [PyStr.contains "TODO" ?g] =>
             lazymatch g with
             | EmptyString =>
                 change (PyStr.contains "TODO" EmptyString) with false
             | _ => let E := fresh "E" in
                    destruct (PyStr.contains "TODO" g) eqn:E
             end
         | _ => progress cbn [mbind option_bind]
         end.
  all: split;
    [ try discriminate; intros _
    | intros [[Ht Hn] | [Hn [Ht | (g & Hg & Hd)]]];
      try discriminate; try congruence; try reflexivity ].
  all: try (left; split; reflexivity).
  all: try (right; split; [reflexivity|]; left; reflexivity).
  all: try (right; split; [reflexivity|]; right; eexists; split;
            [reflexivity | assumption]).
Qed.

(** ** The full build, row by row *)

Lemma for_each_trace {S A : Type} (body : S -> A -> option S)
    (R : list A -> S -> Prop) :
  (∀ done st x st', R done st → body st x = Some st' → R (done ++ [x]) st') →
  ∀ items done st st',
    R done st → for_each body st items = Some st' → R (done ++ items) st'.
Proof.
  intros Hstep items. induction items as [|x items IH]; intros done st st' HR.
  - cbn. intros [= <-]. rewrite app_nil_r. exact HR.
  - cbn. destruct (body st x) as [st1|] eqn:Hbody; cbn; [|discriminate].
    intros Hrest.
    replace (done ++ x :: items) with ((done ++ [x]) ++ items)
      by (rewrite <- app_assoc; reflexivity).
    eapply IH; [|exact Hrest]. eapply Hstep; eauto.
Qed.

Lemma for_each_total {S A : Type} (body : S -> A -> option S)
    (R : list A -> S -> Prop) (Q : A -> Prop) :
  (∀ done st x st', R done st → body st x = Some st' → R (done ++ [x]) st') →
  (∀ done st x, R done st → Q x → is_Some (body st x)) →
  ∀ items done st,
    R done st → Forall Q items → is_Some (for_each body st items).
Proof.
  intros Hstep Hsome items.
  induction items as [|x items IH]; intros done st HR Hall.
  - cbn. eexists. reflexivity.
  - apply Forall_cons in Hall as [Hx Hall]. cbn.
    destruct (Hsome done st x HR Hx) as [st1 Hbody]. rewrite Hbody. cbn.
    apply (IH (done ++ [x])); [|exact Hall]. eapply Hstep; eauto.
Qed.

Lemma for_each_app {S A : Type} (body : S -> A -> option S) (st : S)
    (l1 l2 : list A) :
  for_each body st (l1 ++ l2)
  = for_each body st l1 ≫= (λ st1, for_each body st1 l2).
Proof.
  revert st. induction l1 as [|x l1 IH]; intros st; cbn; [reflexivity|].
  destruct (body st x) as [st1|]; cbn; [apply IH | reflexivity].
Qed.

Lemma accepted_moments_app (l1 l2 : list episode) :
  accepted_moments (l1 ++ l2) = accepted_moments l1 ++ accepted_moments l2.
Proof.
  induction l1 as [|ep l1 IH]; cbn; [reflexivity|].
  rewrite IH, app_assoc. reflexivity.
Qed.

Lemma skipped_count_app (l1 l2 : list episode) :
  skipped_count (l1 ++ l2) = skipped_count l1 + skipped_count l2.
Proof.
  unfold skipped_count. rewrite List.filter_app, length_app. reflexivity.
Qed.

Section FullBuild.

Variable uuid4 : nat -> string.
Variable json_dumps : list string -> string.

Lemma ingest_moment_built (meta : source_fields) (moment : raw_moment)
    (acc : list (source_fields * raw_moment)) (skips : nat)
    (st st' : build_state) :
  built uuid4 json_dumps acc skips st →
  ingest_moment uuid4 json_dumps meta st moment = Some st' →
  built uuid4 json_dumps (acc ++ [(meta, moment)]) skips st'.
Proof.
  intros (Hdrawn & Htotal & Hskips & Hids & Hrows & Hdom).
  unfold ingest_moment.
  destruct (resolve_source moment meta) as [src|] eqn:Hsrc;
    cbn [mbind option_bind]; [|discriminate].
  destruct (build_url_at_moment _ _) as [url_at|] eqn:Hurl_at;
    cbn [mbind option_bind]; [|discriminate].
  destruct (sql_insert _ _) as [t'|] eqn:Hins; cbn [mbind option_bind];
    [|discriminate].
  intros [= <-]. apply sql_insert_Some in Hins as [-> _].
  unfold built. cbn [uuids_drawn total skipped_files table by_stage].
  rewrite length_app, Hdrawn, Htotal. cbn [length].
  rewrite Nat.add_1_r.
  split; [reflexivity|]. split; [reflexivity|]. split; [exact Hskips|].
  split; [|split].
  - rewrite seq_S, !fmap_app, Hids. reflexivity.
  - apply Forall2_app; [exact Hrows|]. constructor; [|constructor].
    exists src. cbn [fst snd row_type row_summary row_timestamp row_tags
                     row_guest row_source_url row_url_at_moment].
    auto 10.
  - unfold count_up. rewrite dom_insert_L, Hdom, fmap_app, list_to_set_app_L.
    cbn [fmap list_fmap list_to_set foldr snd].
    rewrite (right_id_L ∅ (∪)). apply (comm_L (∪)).
Qed.

Lemma ingest_episode_built (ep : episode)
    (acc : list (source_fields * raw_moment)) (skips : nat)
    (st st' : build_state) :
  built uuid4 json_dumps acc skips st →
  ingest_episode uuid4 json_dumps st ep = Some st' →
  built uuid4 json_dumps (acc ++ accepted_moments [ep])
    (skips + skipped_count [ep]) st'.
Proof.
  intros Hbuilt. unfold ingest_episode, skipped_count, is_skipped. cbn.
  destruct (ep_moments ep) as [| |moments]; cbn.
  - intros [= <-]. rewrite app_nil_r, Nat.add_0_r. exact Hbuilt.
  - intros [= <-]. rewrite app_nil_r, Nat.add_1_r.
    destruct Hbuilt as (H1 & H2 & H3 & H4 & H5 & H6). unfold built.
    cbn [skip_file uuids_drawn total skipped_files table by_stage].
    rewrite H3. auto 10.
  - destruct moments as [|m moments]; cbn.
    + intros [= <-]. rewrite app_nil_r, Nat.add_1_r.
      destruct Hbuilt as (H1 & H2 & H3 & H4 & H5 & H6). unfold built.
      cbn [skip_file uuids_drawn total skipped_files table by_stage].
      rewrite H3. auto 10.
    + rewrite Nat.add_0_r, app_nil_r. intros Hloop.
      change (ingest_moment uuid4 json_dumps (ep_meta ep) st m
              ≫= (λ st1, for_each (ingest_moment uuid4 json_dumps (ep_meta ep))
                           st1 moments))
        with (for_each (ingest_moment uuid4 json_dumps (ep_meta ep)) st
                (m :: moments)) in Hloop.
      change ((ep_meta ep, m) :: ((λ m0, (ep_meta ep, m0)) <$> moments))
        with ((λ m0, (ep_meta ep, m0)) <$> (m :: moments)).
      assert (Hstep : ∀ done s x s',
                built uuid4 json_dumps
                  (acc ++ ((λ m0, (ep_meta ep, m0)) <$> done)) skips s →
                ingest_moment uuid4 json_dumps (ep_meta ep) s x = Some s' →
                built uuid4 json_dumps
                  (acc ++ ((λ m0, (ep_meta ep, m0)) <$> (done ++ [x])))
                  skips s').
      { intros done s x s' Hs Hx. rewrite fmap_app, app_assoc.
        exact (ingest_moment_built _ _ _ _ _ _ Hs Hx). }
      apply (for_each_trace
               (ingest_moment uuid4 json_dumps (ep_meta ep))
               (λ done s, built uuid4 json_dumps
                            (acc ++ ((λ m0, (ep_meta ep, m0)) <$> done))
                            skips s)
               Hstep (m :: moments) [] st st'); [|exact Hloop].
      cbn [fmap list_fmap]. rewrite app_nil_r. exact Hbuilt.
Qed.

Lemma build_db_built (episode_dirs : list episode) (st : build_state) :
  build_db uuid4 json_dumps episode_dirs = Some st →
  built uuid4 json_dumps (accepted_moments episode_dirs)
    (skipped_count episode_dirs) st.
Proof.
  intros Hbuild. apply build_db_loop in Hbuild as [Hbuild _].
  assert (Hstep : ∀ done s ep s',
            built uuid4 json_dumps (accepted_moments done)
              (skipped_count done) s →
            ingest_episode uuid4 json_dumps s ep = Some s' →
            built uuid4 json_dumps (accepted_moments (done ++ [ep]))
              (skipped_count (done ++ [ep])) s').
  { intros done s ep s' Hs Hep.
    rewrite accepted_moments_app, skipped_count_app.
    exact (ingest_episode_built _ _ _ _ _ Hs Hep). }
  apply (for_each_trace (ingest_episode uuid4 json_dumps)
           (λ done s, built uuid4 json_dumps (accepted_moments done)
                        (skipped_count done) s)
           Hstep episode_dirs [] empty_build st); [|exact Hbuild].
  unfold built. cbn [empty_build uuids_drawn total skipped_files table
                     by_stage accepted_moments skipped_count List.filter
                     length fmap list_fmap seq list_to_set foldr].
  rewrite dom_empty_L. repeat split; constructor.
Qed.

End FullBuild.

Lemma ingest_moment_skip (uuid4 : nat -> string)
    (json_dumps : list string -> string) (meta : source_fields)
    (st : build_state) (moment : raw_moment) :
  ingest_moment uuid4 json_dumps meta (skip_file st) moment
  = skip_file <$> ingest_moment uuid4 json_dumps meta st moment.
Proof.
  unfold ingest_moment.
  destruct (resolve_source moment meta) as [src|]; cbn [mbind option_bind];
    [|reflexivity].
  destruct (build_url_at_moment _ _) as [url_at|]; cbn [mbind option_bind];
    [|reflexivity].
  cbn [skip_file table uuids_drawn total skipped_files by_stage].
  destruct (sql_insert _ _) as [t'|]; reflexivity.
Qed.

Lemma for_each_commute {S A : Type} (body : S -> A -> option S)
    (f : S -> S) :
  (∀ st x, body (f st) x = f <$> body st x) →
  ∀ items st, for_each body (f st) items = f <$> for_each body st items.
Proof.
  intros Hbody items. induction items as [|x items IH]; intros st; cbn;
    [reflexivity|].
  rewrite Hbody. destruct (body st x) as [st1|]; cbn; [apply IH | reflexivity].
Qed.

Lemma ingest_episode_skip (uuid4 : nat -> string)
    (json_dumps : list string -> string) (st : build_state) (ep : episode) :
  ingest_episode uuid4 json_dumps (skip_file st) ep
  = skip_file <$> ingest_episode uuid4 json_dumps st ep.
Proof.
  unfold ingest_episode.
  destruct (ep_moments ep) as [| |[|m moments]]; try reflexivity.
  apply (for_each_commute (ingest_moment uuid4 json_dumps (ep_meta ep))
           skip_file).
  intros s x. apply ingest_moment_skip.
Qed.

Section FullBuildTheorems.

Variable uuid4 : nat -> string.
Variable json_dumps : list string -> string.

(** X11.  A full build that completes has stored one record per moment
    of the files that parse and are not empty, in order: as many records
    as such moments, [total] equal to that number, and each record
    carrying its moment's type, summary, timestamp and encoded tags, the
    merged guest and URL, and the URL at the moment derived from that
    URL and timestamp.  The skip counter is the number of files that do
    not parse or hold no moment. *)
Theorem build_db_stores_accepted (episode_dirs : list episode)
    (st : build_state) :
  build_db uuid4 json_dumps episode_dirs = Some st →
  length (table st) = length (accepted_moments episode_dirs)
  ∧ total st = length (table st)
  ∧ skipped_files st = skipped_count episode_dirs
  ∧ Forall2 (λ mm r, stored_as json_dumps mm.1 mm.2 r)
      (accepted_moments episode_dirs) (table st).
Proof.
  intros Hbuild.
  destruct (build_db_built uuid4 json_dumps _ _ Hbuild)
    as (_ & Htotal & Hskips & _ & Hrows & _).
  pose proof (Forall2_length _ _ _ Hrows) as Hlen.
  split; [symmetry; exact Hlen|]. split; [congruence|].
  split; [exact Hskips | exact Hrows].
Qed.

Lemma build_url_at_moment_writable (url timestamp : option string) :
  writable timestamp → is_Some (build_url_at_moment url timestamp).
Proof.
  intros Hwritable. unfold build_url_at_moment.
  destruct url as [[|c u]|]; try (eexists; reflexivity).
  destruct (negb _); [eexists; reflexivity|].
  destruct (parse_timestamp_to_seconds timestamp) as [seconds|] eqn:Hparse;
    [|eexists; reflexivity].
  rewrite (str_of_int_few _ (Hwritable _ Hparse)). eexists. reflexivity.
Qed.

Lemma ingest_moment_total (meta : source_fields) (moment : raw_moment)
    (acc : list (source_fields * raw_moment)) (skips : nat)
    (st : build_state) :
  (∀ i j, uuid4 i = uuid4 j → i = j) →
  built uuid4 json_dumps acc skips st →
  well_formed moment →
  is_Some (ingest_moment uuid4 json_dumps meta st moment).
Proof.
  intros Hinj (Hdrawn & _ & _ & Hids & _)
    (Htype & Hsummary & Hurl & Hguest & Hwritable).
  unfold ingest_moment.
  destruct (resolve_source_Some moment meta Hurl Hguest) as [src ->].
  cbn [mbind option_bind].
  destruct (build_url_at_moment_writable (Some (src_url src)) _ Hwritable)
    as [url_at ->].
  cbn [mbind option_bind]. unfold sql_insert. cbn [row_type row_summary row_id].
  destruct (mo_type moment) as [| |ty]; [|congruence|];
    destruct (mo_summary moment) as [| |su]; try congruence;
    cbn [get_or].
  all: rewrite decide_False; [eexists; reflexivity|].
  all: rewrite Hids, Hdrawn; intros Hin.
  all: apply list_elem_of_fmap in Hin as (i & Heq & Hi).
  all: apply elem_of_seq in Hi; apply Hinj in Heq; lia.
Qed.

Lemma ingest_episode_total (ep : episode)
    (acc : list (source_fields * raw_moment)) (skips : nat)
    (st : build_state) :
  (∀ i j, uuid4 i = uuid4 j → i = j) →
  built uuid4 json_dumps acc skips st →
  Forall (λ mm, well_formed mm.2) (accepted_moments [ep]) →
  is_Some (ingest_episode uuid4 json_dumps st ep).
Proof.
  intros Hinj Hbuilt. unfold ingest_episode. cbn [accepted_moments].
  destruct (ep_moments ep) as [| |[|m moments]];
    try (intros _; eexists; reflexivity).
  rewrite app_nil_r, Forall_fmap. intros Hall.
  apply (for_each_total (ingest_moment uuid4 json_dumps (ep_meta ep))
           (λ done s, built uuid4 json_dumps
                        (acc ++ ((λ m0, (ep_meta ep, m0)) <$> done)) skips s)
           well_formed) with (done := []).
  - intros done s x s' Hs Hx. rewrite fmap_app, app_assoc.
    exact (ingest_moment_built _ _ _ _ _ _ _ _ Hs Hx).
  - intros done s x Hs Hx. eapply ingest_moment_total; eauto.
  - cbn [fmap list_fmap]. rewrite app_nil_r. exact Hbuilt.
  - exact Hall.
Qed.

(** Stage keys that are all [None], or none of which is, can be
    sorted. *)
Lemma sorted_items_ok_keys (d : gmap (option string) nat)
    (keys : list (option string)) :
  dom d = (list_to_set keys : gset (option string)) →
  Forall (λ k, k = None) keys ∨ Forall (λ k, k ≠ None) keys →
  sorted_items_ok d = true.
Proof.
  intros Hdom Hkeys. unfold sorted_items_ok.
  apply negb_true_iff, andb_false_iff.
  destruct Hkeys as [Hnone | Hsome].
  - right. apply Nat.leb_gt. rewrite <- size_dom, Hdom.
    assert (Hsub : (list_to_set keys : gset (option string)) ⊆ {[ None ]}).
    { intros k Hk. apply elem_of_list_to_set in Hk.
      rewrite Forall_forall in Hnone. rewrite (Hnone k Hk).
      apply elem_of_singleton. reflexivity. }
    apply subseteq_size in Hsub. rewrite size_singleton in Hsub. lia.
  - left. apply bool_decide_eq_false. intros Hin.
    apply elem_of_dom in Hin. rewrite Hdom in Hin.
    apply elem_of_list_to_set in Hin.
    rewrite Forall_forall in Hsome. exact (Hsome None Hin eq_refl).
Qed.

(** X12.  A full build completes when the generator never repeats an
    identifier; no moment of a parsed file holds a [null] under [type],
    [summary], or its raw source's [url] or [guest]; no timestamp parses
    to more seconds than [str()] writes digits for; and the stage keys
    counted for the summary are all [None] or all strings.  Every such
    moment is then stored, none is refused. *)
Theorem build_db_succeeds (episode_dirs : list episode) :
  (∀ i j, uuid4 i = uuid4 j → i = j) →
  Forall (λ mm, well_formed mm.2) (accepted_moments episode_dirs) →
  stages_sortable (snd <$> accepted_moments episode_dirs) →
  ∃ st, build_db uuid4 json_dumps episode_dirs = Some st
        ∧ length (table st) = length (accepted_moments episode_dirs).
Proof.
  intros Hinj Hall Hstages.
  assert (Hsome : is_Some (for_each (ingest_episode uuid4 json_dumps)
                             empty_build episode_dirs)).
  { apply (for_each_total (ingest_episode uuid4 json_dumps)
             (λ done s, built uuid4 json_dumps (accepted_moments done)
                          (skipped_count done) s)
             (λ ep, Forall (λ mm, well_formed mm.2) (accepted_moments [ep])))
      with (done := []).
    - intros done s ep s' Hs Hep.
      rewrite accepted_moments_app, skipped_count_app.
      exact (ingest_episode_built _ _ _ _ _ _ _ Hs Hep).
    - intros done s ep Hs Hep. eapply ingest_episode_total; eauto.
    - unfold built.
      cbn [empty_build uuids_drawn total skipped_files table by_stage
           accepted_moments skipped_count List.filter length fmap list_fmap
           seq list_to_set foldr].
      rewrite dom_empty_L. repeat split; constructor.
    - clear -Hall. induction episode_dirs as [|ep eps IH];
        [constructor|].
      cbn [accepted_moments] in Hall. apply Forall_app in Hall as [Hep Heps].
      constructor; [|apply IH, Heps].
      cbn [accepted_moments]. rewrite app_nil_r. exact Hep. }
  destruct Hsome as [st Hloop].
  assert (Hbuilt : built uuid4 json_dumps (accepted_moments episode_dirs)
                     (skipped_count episode_dirs) st).
  { assert (Hstep : ∀ done s ep s',
              built uuid4 json_dumps (accepted_moments done)
                (skipped_count done) s →
              ingest_episode uuid4 json_dumps s ep = Some s' →
              built uuid4 json_dumps (accepted_moments (done ++ [ep]))
                (skipped_count (done ++ [ep])) s').
    { intros done s ep s' Hs Hep.
      rewrite accepted_moments_app, skipped_count_app.
      exact (ingest_episode_built _ _ _ _ _ _ _ Hs Hep). }
    apply (for_each_trace (ingest_episode uuid4 json_dumps)
             (λ done s, built uuid4 json_dumps (accepted_moments done)
                          (skipped_count done) s)
             Hstep episode_dirs [] empty_build st); [|exact Hloop].
    unfold built.
    cbn [empty_build uuids_drawn total skipped_files table by_stage
         accepted_moments skipped_count List.filter length fmap list_fmap
         seq list_to_set foldr].
    rewrite dom_empty_L. repeat split; constructor. }
  destruct Hbuilt as (_ & _ & _ & _ & Hrows & Hdom).
  exists st. split.
  - unfold build_db. rewrite Hloop. cbn [mbind option_bind].
    rewrite (sorted_items_ok_keys _ _ Hdom); [reflexivity|].
    destruct Hstages as [Hstages | Hstages]; [left | right].
    all: rewrite Forall_forall in Hstages; apply Forall_forall.
    all: intros k Hk; apply list_elem_of_fmap in Hk as (mm & -> & Hmm).
    all: apply Hstages, list_elem_of_fmap; exists mm; auto.
  - symmetry. exact (Forall2_length _ _ _ Hrows).
Qed.

(** X13.  Episodes without usable moments leave no trace in the table.
    A directory whose [moments.json] is missing changes nothing at all;
    one whose file does not parse or holds no moment adds one to the
    skip counter and changes nothing else, wherever it stands among the
    directories. *)
Theorem build_db_skips (before after : list episode) (ep : episode) :
  (ep_moments ep = FileMissing →
   build_db uuid4 json_dumps (before ++ ep :: after)
   = build_db uuid4 json_dumps (before ++ after))
  ∧ (is_skipped ep = true →
     build_db uuid4 json_dumps (before ++ ep :: after)
     = skip_file <$> build_db uuid4 json_dumps (before ++ after)).
Proof.
  unfold build_db. rewrite !for_each_app. split.
  - intros Hmissing.
    destruct (for_each _ empty_build before) as [st1|];
      cbn [mbind option_bind]; [|reflexivity].
    cbn [for_each].
    assert (Hep : ingest_episode uuid4 json_dumps st1 ep = Some st1)
      by (unfold ingest_episode; rewrite Hmissing; reflexivity).
    rewrite Hep. reflexivity.
  - intros Hskipped.
    destruct (for_each _ empty_build before) as [st1|];
      cbn [mbind option_bind fmap option_fmap option_map]; [|reflexivity].
    cbn [for_each].
    assert (Hep : ingest_episode uuid4 json_dumps st1 ep
                  = Some (skip_file st1)).
    { unfold ingest_episode. unfold is_skipped in Hskipped.
      destruct (ep_moments ep) as [| |[|m ms]]; try discriminate;
        reflexivity. }
    rewrite Hep. cbn [mbind option_bind].
    rewrite (for_each_commute (ingest_episode uuid4 json_dumps) skip_file)
      by (intros s x; apply ingest_episode_skip).
    destruct (for_each _ st1 after) as [st2|];
      cbn [fmap option_fmap option_map mbind option_bind]; [|reflexivity].
    cbn [skip_file by_stage].
    destruct (sorted_items_ok (by_stage st2)); reflexivity.
Qed.

End FullBuildTheorems.

Lemma demo_uuid4_inj (i j : nat) : demo_uuid4 i = demo_uuid4 j → i = j.
Proof.
  unfold demo_uuid4. rewrite !append_String, !append_empty_l.
  intros [= Heq]. apply Nat2Z.inj.
  assert (Hint : PyStr.int_value (PyStr.decimal (Z.of_nat i))
                 = PyStr.int_value (PyStr.decimal (Z.of_nat j)))
    by (rewrite Heq; reflexivity).
  rewrite !int_value_decimal in Hint. congruence.
Qed.

Lemma build_db_succeeds_witness :
  ∃ st, build_db demo_uuid4 dumps_plain demo_episodes = Some st
        ∧ length (table st) = 2.
Proof.
  apply (build_db_succeeds demo_uuid4 dumps_plain demo_episodes).
  - exact demo_uuid4_inj.
  - repeat constructor; try discriminate.
    all: intros seconds Hparse; vm_compute in Hparse;
      injection Hparse as <-; reflexivity.
  - right. repeat constructor; discriminate.
Defined.

Lemma build_db_stores_accepted_witness :
  ∃ st, build_db demo_uuid4 dumps_plain demo_episodes = Some st
        ∧ length (table st) = 2
        ∧ total st = 2
        ∧ skipped_files st = 1.
Proof.
  eexists. split; [vm_compute; reflexivity|].
  destruct (build_db_stores_accepted demo_uuid4 dumps_plain demo_episodes _
              ltac:(vm_compute; reflexivity)) as (Hlen & Htotal & Hskips & _).
  split; [exact Hlen|]. split; [exact Htotal | exact Hskips].
Defined.

Lemma build_db_skips_witness :
  build_db demo_uuid4 dumps_plain demo_episodes
  = skip_file <$> build_db demo_uuid4 dumps_plain (take 1 demo_episodes).
Proof.
  apply (build_db_skips demo_uuid4 dumps_plain (take 1 demo_episodes) []
           {| ep_moments := FileUnparseable; ep_meta := no_fields |}).
  reflexivity.
Defined.

(** ** From the build to the endpoints *)

Lemma head_filter_unique (t : list row) (i : nat) (r : row) :
  NoDup (row_id <$> t) → t !! i = Some r →
  head (filter (λ r0, row_id r0 = row_id r) t) = Some r.
Proof.
  revert i. induction t as [|a t IH]; intros i Hnodup Hi; [discriminate|].
  rewrite fmap_cons in Hnodup. apply NoDup_cons in Hnodup as [Ha Hnodup].
  rewrite filter_cons. destruct i as [|i]; cbn in Hi.
  - injection Hi as ->. rewrite decide_True by reflexivity. reflexivity.
  - rewrite decide_False; [exact (IH i Hnodup Hi)|].
    intros Heq. apply Ha. rewrite Heq.
    apply list_elem_of_fmap. exists r. split; [reflexivity|].
    exact (list_elem_of_lookup_2 _ _ _ Hi).
Qed.

Lemma fetch_by_id_unique (db : store) (i : nat) (r : row) :
  NoDup (row_id <$> moments_table db) → moments_table db !! i = Some r →
  fetch_by_id db (row_id r) = Some r.
Proof. apply head_filter_unique. Qed.

Section BuildThenServe.

Variable uuid4 : nat -> string.
Variable json_dumps : list string -> string.
Variable json_loads : string -> option json.

(** The records of a build that completes have a type and a summary. *)
Lemma build_db_not_null (episode_dirs : list episode) (st : build_state) :
  build_db uuid4 json_dumps episode_dirs = Some st →
  Forall (λ r, is_Some (row_type r) ∧ is_Some (row_summary r)) (table st).
Proof.
  intros Hbuild. apply build_db_loop in Hbuild as [Hbuild _]. revert Hbuild.
  apply (for_each_invariant (ingest_episode uuid4 json_dumps)
           (λ s, Forall _ (table s))); [|constructor].
  intros s ep s' Hs. unfold ingest_episode.
  destruct (ep_moments ep) as [| |[|m moments]];
    try (intros [= <-]; exact Hs).
  revert Hs.
  apply (for_each_invariant
           (ingest_moment uuid4 json_dumps (ep_meta ep))
           (λ s, Forall _ (table s))).
  clear. intros s moment s' Hs. unfold ingest_moment.
  destruct (resolve_source moment (ep_meta ep)) as [src|];
    cbn [mbind option_bind]; [|discriminate].
  destruct (build_url_at_moment _ _) as [url_at|];
    cbn [mbind option_bind]; [|discriminate].
  destruct (sql_insert _ _) as [t'|] eqn:Hins; cbn [mbind option_bind];
    [|discriminate].
  intros [= <-]. cbn [table].
  pose proof (sql_insert_not_null _ _ _ Hins) as Hnot_null.
  apply sql_insert_Some in Hins as [-> _].
  apply Forall_app. split; [exact Hs|]. constructor; [|constructor].
  exact Hnot_null.
Qed.

(** A record with a type and a summary whose tags decode to a list of
    strings is shown, with these tags. *)
Lemma shown_strings (r : row) (tags : list string) :
  load_tags json_loads r = Some (JArray (JString <$> tags)) →
  is_Some (row_type r) → is_Some (row_summary r) →
  ∃ mo, shown json_loads r = Some mo
        ∧ m_id mo = row_id r
        ∧ m_tags mo = tags
        ∧ m_type mo = row_type r
        ∧ m_summary mo = row_summary r
        ∧ m_timestamp mo = row_timestamp r
        ∧ ms_url (m_source mo) = row_source_url r
        ∧ ms_url_at_moment (m_source mo) = row_url_at_moment r.
Proof.
  intros Hload [ty Hty] [su Hsu]. unfold shown, format_moment.
  rewrite Hload. cbn [mbind option_bind]. unfold validate_Moment.
  cbn [d_tags d_type d_summary]. rewrite as_str_list_strings.
  cbn [mbind option_bind]. rewrite Hty, Hsu.
  eexists. split; [reflexivity|].
  cbn [m_id m_tags m_type m_summary m_timestamp m_source d_id d_timestamp
       d_source ms_url ms_url_at_moment].
  auto 10.
Qed.

(** The tags column of a stored record, decoded: the moment's tags, or
    no tag when their encoding is the empty text. *)
Lemma stored_load_tags (r : row) (tags : list string) :
  row_tags r = Some (json_dumps tags) →
  json_loads (json_dumps tags) = Some (JArray (JString <$> tags)) →
  load_tags json_loads r
  = Some (JArray (JString <$> (if decide (json_dumps tags = "")
                               then [] else tags))).
Proof.
  intros Htags Hcodec. unfold load_tags. rewrite Htags.
  destruct (json_dumps tags) as [|c text]; [reflexivity | exact Hcodec].
Qed.

(** X14.  What a full build stores, the API serves.  After a build that
    completes, the [i]-th moment taken in is found under the [i]-th
    identifier drawn: provided its encoded tags are not the empty text
    and decode back to the tags, [GET /moments/{id}] answers with that
    identifier, the moment's own tags, type, summary and timestamp, and
    the URL at the moment derived from the served URL and timestamp;
    and, provided the encoded tags of every moment taken in decode back
    to its tags, [GET /similar/{id}] with a limit in range answers rather
    than fails, echoing these tags. *)
Theorem built_moment_served (episode_dirs : list episode)
    (st : build_state) (i : nat) (meta : source_fields) (m : raw_moment)
    (fts : string -> fts_result) (limit : option Z) :
  build_db uuid4 json_dumps episode_dirs = Some st →
  accepted_moments episode_dirs !! i = Some (meta, m) →
  json_dumps (mo_tags m) ≠ "" →
  json_loads (json_dumps (mo_tags m))
  = Some (JArray (JString <$> mo_tags m)) →
  (∀ v, limit = Some v → (1 ≤ v ≤ 20)%Z) →
  let db := {| moments_table := table st; moments_fts := fts |} in
  (∃ mo, get_moment json_loads db (uuid4 i) = Return mo
         ∧ m_id mo = uuid4 i
         ∧ m_tags mo = mo_tags m
         ∧ m_type mo = get_or "unknown" (mo_type m)
         ∧ m_summary mo = get_or "" (mo_summary m)
         ∧ m_timestamp mo = get_or "" (mo_timestamp m)
         ∧ build_url_at_moment (ms_url (m_source mo)) (m_timestamp mo)
           = Some (ms_url_at_moment (m_source mo)))
  ∧ ((∀ mm, mm ∈ accepted_moments episode_dirs →
            json_loads (json_dumps (mo_tags mm.2))
            = Some (JArray (JString <$> mo_tags mm.2))) →
     ∃ resp, similar json_loads db (uuid4 i) limit = Return resp
             ∧ sim_source_id resp = uuid4 i
             ∧ sim_source_tags resp = mo_tags m).
Proof.
  intros Hbuild Hi Hnonempty Hcodec Hlimit db.
  destruct (build_db_built uuid4 json_dumps _ _ Hbuild)
    as (_ & _ & _ & Hids & Hrows & _).
  destruct (build_db_ids uuid4 json_dumps _ _ Hbuild) as [_ Hnodup].
  pose proof (build_db_not_null _ _ Hbuild) as Hnot_null.
  rewrite Forall_forall in Hnot_null.
  destruct (Forall2_lookup_l _ _ _ _ _ Hrows Hi) as (r & Hr & Hstored).
  cbn [fst snd] in Hstored.
  destruct Hstored
    as (src & _ & Htype & Hsummary & Hts & Htags & _ & Hurl & Hurl_at).
  assert (Hid : row_id r = uuid4 i).
  { assert (Hlook : (row_id <$> table st) !! i = Some (row_id r))
      by (rewrite list_lookup_fmap, Hr; reflexivity).
    rewrite Hids, list_lookup_fmap in Hlook.
    assert (Hlt : i < length (accepted_moments episode_dirs))
      by (apply lookup_lt_is_Some; eexists; exact Hi).
    rewrite lookup_seq_lt in Hlook by exact Hlt.
    cbn in Hlook. congruence. }
  assert (Hfetch : fetch_by_id db (uuid4 i) = Some r).
  { rewrite <- Hid. apply (fetch_by_id_unique db i); assumption. }
  assert (Hload : load_tags json_loads r
                  = Some (JArray (JString <$> mo_tags m))).
  { rewrite (stored_load_tags r (mo_tags m) Htags Hcodec).
    rewrite decide_False by exact Hnonempty. reflexivity. }
  destruct (Hnot_null r (list_elem_of_lookup_2 _ _ _ Hr))
    as [Hty Hsu].
  split.
  - destruct (shown_strings r (mo_tags m) Hload Hty Hsu)
      as (mo & Hshown & Hmid & Hmtags & Hmtype & Hmsummary & Hmts
          & Hmurl & Hmurl_at).
    exists mo. split.
    + unfold get_moment. rewrite Hfetch.
      apply shown_formatted in Hshown as (d & -> & Hvalid).
      cbn [or_uncaught bind]. rewrite Hvalid. reflexivity.
    + rewrite Hmid, Hmtags, Hmtype, Hmsummary, Hmts, Hmurl, Hmurl_at, Hurl.
      auto 10.
  - intros Hall.
    apply (similar_total json_loads db (uuid4 i) limit r (mo_tags m)
             Hfetch Hload Hlimit).
    intros x Hx. apply elem_of_ranked_candidates in Hx as (Hin & _).
    change (moments_table db) with (table st) in Hin.
    apply list_elem_of_lookup_1 in Hin as [k Hk].
    destruct (Forall2_lookup_r _ _ _ _ _ Hrows Hk) as (mm & Hmm & Hstored).
    destruct Hstored as (_ & _ & _ & _ & _ & Hxtags & _).
    pose proof (stored_load_tags _ _ Hxtags
                  (Hall mm (list_elem_of_lookup_2 _ _ _ Hmm))) as Hxload.
    destruct (Hnot_null x.2 (list_elem_of_lookup_2 _ _ _ Hk))
      as [Hxty Hxsu].
    destruct (shown_strings _ _ Hxload Hxty Hxsu) as (mo & -> & _).
    eexists. reflexivity.
Qed.

(** X15.  The sample build dies on a repeated identifier: when two
    moments of the sample file carry the same non-empty [id], the second
    insertion breaks the primary key and no database is built. *)
Theorem build_sample_db_repeated_id (l1 l2 l3 : list raw_moment)
    (m1 m2 : raw_moment) (c : ascii) (s : string) :
  get (mo_id m1) = Some (String c s) →
  get (mo_id m2) = Some (String c s) →
  build_sample_db uuid4 json_dumps (l1 ++ m1 :: l2 ++ m2 :: l3) = None.
Proof.
  intros H1 H2.
  destruct (build_sample_db _ _ _) as [st|] eqn:Hbuild; [|reflexivity].
  exfalso. unfold build_sample_db in Hbuild.
  destruct (for_each_ingest_sample uuid4 json_dumps _ [] empty_build st
              ltac:(constructor) ltac:(constructor) Hbuild)
    as [Hrows Hnodup].
  cbn [app] in Hrows.
  apply Forall2_app_inv_l in Hrows as (k1 & k' & _ & Hrows & Htable).
  apply Forall2_cons_inv_l in Hrows as (r1 & k'' & Hr1 & Hrows & ->).
  apply Forall2_app_inv_l in Hrows as (k2 & k3' & _ & Hrows & ->).
  apply Forall2_cons_inv_l in Hrows as (r2 & k3 & Hr2 & _ & ->).
  unfold sample_id_of in Hr1, Hr2. rewrite H1 in Hr1. rewrite H2 in Hr2.
  rewrite Htable, fmap_app, fmap_cons, fmap_app, fmap_cons in Hnodup.
  apply NoDup_app in Hnodup as (_ & _ & Hnodup).
  apply NoDup_cons in Hnodup as [Hnotin _].
  apply Hnotin. rewrite Hr1, <- Hr2.
  apply elem_of_app. right. apply elem_of_cons. left. reflexivity.
Qed.

End BuildThenServe.

Lemma built_moment_served_witness :
  let db := {| moments_table :=
                 default [] (table <$> build_db demo_uuid4 dumps_plain
                                         demo_episodes);
               moments_fts := λ _, FtsRows [] |} in
  (∃ mo, get_moment loads_plain db "uuid-1" = Return mo
         ∧ m_tags mo = ["growth"])
  ∧ (∃ resp, similar loads_plain db "uuid-1" (Some 3%Z) = Return resp
             ∧ sim_source_tags resp = ["growth"]).
Proof.
  destruct (built_moment_served demo_uuid4 dumps_plain loads_plain
              demo_episodes
              (default empty_build
                 (build_db demo_uuid4 dumps_plain demo_episodes))
              1 demo_meta (demo_moment Absent ["growth"] None)
              (λ _, FtsRows []) (Some 3%Z))
    as [(mo & Hget & _ & Htags & _) Hsimilar].
  - vm_compute. reflexivity.
  - reflexivity.
  - vm_compute. discriminate.
  - vm_compute. reflexivity.
  - intros v [= <-]. lia.
  - split; [exists mo; split; [exact Hget | exact Htags]|].
    destruct Hsimilar as (resp & Hresp & _ & Hsource_tags).
    + intros mm Hmm. vm_compute in Hmm.
      repeat (apply elem_of_cons in Hmm as [-> | Hmm];
              [vm_compute; reflexivity|]).
      inversion Hmm.
    + exists resp. split; [exact Hresp | exact Hsource_tags].
Defined.

Lemma build_sample_db_repeated_id_witness :
  build_sample_db demo_uuid4 dumps_plain
    [ demo_moment (Text "moment-001") ["pricing"] (Some demo_meta);
      demo_moment Absent ["growth"] None;
      demo_moment (Text "moment-001") ["churn"] None ] = None.
Proof.
  apply (build_sample_db_repeated_id demo_uuid4 dumps_plain []
           [demo_moment Absent ["growth"] None] []
           (demo_moment (Text "moment-001") ["pricing"] (Some demo_meta))
           (demo_moment (Text "moment-001") ["churn"] None)
           "m" "oment-001"); reflexivity.
Defined.

(** ** The search endpoints *)

Lemma lstrip_empty (q : ascii -> bool) (s : string) :
  PyStr.lstrip q s = "" ↔ all_chars q s = true.
Proof.
  induction s as [|c s IH]; cbn; [tauto|].
  destruct (q c); cbn; [exact IH|]. split; discriminate.
Qed.

(** [s.strip()] is empty exactly when [s] is made of white space. *)
Lemma strip_with_empty (q : ascii -> bool) (s : string) :
  PyStr.strip_with q s = "" ↔ all_chars q s = true.
Proof.
  unfold PyStr.strip_with. rewrite <- lstrip_empty.
  destruct (lstrip_head q s) as [-> | (c & r & -> & Hc)]; [tauto|].
  rewrite (rstrip_head q c r Hc). split; discriminate.
Qed.

Lemma run_search_rows (db : store) (fts_query : string)
    (keep : row -> bool) (limit : Z) (rows : list row) :
  run_search db fts_query keep limit = inr rows →
  ∃ ranked, moments_fts db fts_query = FtsRows ranked
            ∧ rows `sublist_of` ranked
            ∧ Forall (λ r, keep r = true) rows.
Proof.
  unfold run_search.
  destruct (moments_fts db fts_query) as [e|ranked]; [discriminate|].
  intros [= <-]. exists ranked. split; [reflexivity|].
  assert (Hkept : Forall (λ r, keep r = true) (filter (λ r, keep r) ranked)).
  { apply Forall_forall. intros r Hr.
    apply list_elem_of_filter in Hr as [Hkeep _].
    destruct (keep r); [reflexivity | contradiction]. }
  unfold sql_limit. destruct (limit <? 0)%Z.
  - split; [apply sublist_filter | exact Hkept].
  - split; [|apply Forall_take, Hkept].
    etrans; [apply sublist_take | apply sublist_filter].
Qed.

Lemma bounded_int_cases (dflt ge le : Z) (given : option Z) :
  ((∀ v, given = Some v → (ge ≤ v ≤ le)%Z)
   ∧ bounded_int dflt ge le given = Return (given_or dflt given))
  ∨ (¬ (∀ v, given = Some v → (ge ≤ v ≤ le)%Z)
     ∧ bounded_int dflt ge le given = Raise RequestValidationError).
Proof.
  destruct given as [v|].
  - destruct (decide (ge ≤ v ≤ le)%Z) as [Hin | Hout].
    + left. split; [intros v0 [= <-]; exact Hin|].
      apply bounded_int_inside, Hin.
    + right. split; [intros Hall; exact (Hout (Hall v eq_refl))|].
      apply bounded_int_outside. lia.
  - left. split; [intros v [=] | reflexivity].
Qed.

Section SearchFacts.

Variable json_loads : string -> option json.

Lemma shown_columns (r : row) (mo : moment) :
  shown json_loads r = Some mo →
  m_id mo = row_id r
  ∧ m_stage mo = row_stage r ∧ m_type mo = row_type r
  ∧ ms_podcast (m_source mo) = row_podcast r
  ∧ ms_url (m_source mo) = row_source_url r
  ∧ ms_guest (m_source mo) = row_guest r.
Proof.
  unfold shown, format_moment.
  destruct (load_tags json_loads r) as [tags|]; cbn [mbind option_bind];
    [|discriminate].
  unfold validate_Moment. cbn [d_tags d_type d_summary].
  destruct (as_str_list tags); cbn [mbind option_bind]; [|discriminate].
  destruct (row_type r); [|discriminate].
  destruct (row_summary r); [|discriminate].
  intros [= <-]. cbn. auto 10.
Qed.

Lemma format_all_ids (rows : list row) (moments : list moment) :
  mapM (shown json_loads) rows = Some moments →
  m_id <$> moments = row_id <$> rows.
Proof.
  intros Hall. apply mapM_Some_1 in Hall.
  induction Hall as [|r mo rows moments Hr _ IH]; [reflexivity|].
  rewrite !fmap_cons, IH. f_equal.
  apply shown_columns in Hr as [-> _]. reflexivity.
Qed.

Lemma format_all_rows (P : row -> Prop) (Q : moment -> Prop)
    (rows : list row) (moments : list moment) :
  (∀ r mo, shown json_loads r = Some mo → P r → Q mo) →
  mapM (shown json_loads) rows = Some moments →
  Forall P rows → Forall Q moments.
Proof.
  intros HPQ Hall. apply mapM_Some_1 in Hall.
  induction Hall as [|r mo rows moments Hr _ IH]; intros Hrows;
    [constructor|].
  apply Forall_cons in Hrows as [Hp Hrows].
  constructor; [exact (HPQ r mo Hr Hp) | exact (IH Hrows)].
Qed.

Lemma search_Return (db : store) (q : string)
    (stage type_ podcast : option string) (limit : option Z)
    (r : SearchResponse) :
  search json_loads db q stage type_ podcast limit = Return r →
  ∃ rows ranked,
    moments_fts db (PyStr.strip q) = FtsRows ranked
    ∧ rows `sublist_of` ranked
    ∧ Forall (λ row, sql_eq_filter stage (row_stage row) = true
                     ∧ sql_eq_filter type_ (row_type row) = true
                     ∧ sql_like_filter podcast (row_podcast row) = true)
        rows
    ∧ mapM (shown json_loads) rows = Some (sr_moments r).
Proof.
  unfold search.
  destruct (bounded_int 5 1 20 limit) as [lim|e]; cbn [bind];
    [|discriminate].
  destruct (PyStr.strip q) as [|c fts_query]; [discriminate|].
  destruct (run_search _ _ _ _) as [e|rows] eqn:Hrun; [discriminate|].
  destruct (mapM (format_moment json_loads) rows) as [moments|] eqn:Hall;
    cbn [or_uncaught bind]; [|discriminate].
  destruct (mapM validate_Moment moments) as [validated|] eqn:Hvalid;
    cbn [or_invalid bind]; [|discriminate].
  intros [= <-]. cbn [sr_moments].
  destruct (run_search_rows _ _ _ _ _ Hrun) as (ranked & Hfts & Hsub & Hkeep).
  exists rows, ranked. split; [exact Hfts|]. split; [exact Hsub|].
  split; [|exact (mapM_compose _ _ _ _ _ Hall Hvalid)].
  eapply Forall_impl; [exact Hkeep|]. intros row Hrow. cbn beta in Hrow.
  apply andb_true_iff in Hrow as [Hrow Hpodcast].
  apply andb_true_iff in Hrow as [Hstage Htype]. auto.
Qed.

Lemma situation_match_Return (db : store) (body : SituationRequest)
    (r : SituationResponse) :
  situation_match json_loads db body = Return r →
  sit_query_keywords r = extract_keywords (body_situation body)
  ∧ sit_query_keywords r ≠ []
  ∧ ∃ rows ranked,
      moments_fts db (PyStr.join " OR " (sit_query_keywords r))
      = FtsRows ranked
      ∧ rows `sublist_of` ranked
      ∧ Forall (λ row, sql_eq_filter (body_stage body) (row_stage row)
                       = true) rows
      ∧ mapM (shown json_loads) rows = Some (sit_moments r).
Proof.
  unfold situation_match.
  destruct (PyStr.strip (body_situation body)); [discriminate|].
  destruct (extract_keywords (body_situation body)) as [|kw kws];
    [discriminate|].
  destruct (run_search _ _ _ _) as [e|rows] eqn:Hrun; [discriminate|].
  destruct (mapM (format_moment json_loads) rows) as [moments|] eqn:Hall;
    cbn [or_uncaught bind]; [|discriminate].
  destruct (mapM validate_Moment moments) as [validated|] eqn:Hvalid;
    cbn [or_invalid bind]; [|discriminate].
  intros [= <-]. cbn [sit_query_keywords sit_moments].
  split; [reflexivity|]. split; [discriminate|].
  destruct (run_search_rows _ _ _ _ _ Hrun) as (ranked & Hfts & Hsub & Hkeep).
  exists rows, ranked.
  pose proof (mapM_compose _ _ _ _ _ Hall Hvalid) as Hshown. auto.
Qed.

Lemma eq_filter_given (param column : option string) :
  sql_eq_filter param column = true →
  PyStr.truthy param = true → column = param.
Proof.
  unfold sql_eq_filter. intros Hfilter Hgiven. rewrite Hgiven in Hfilter.
  apply bool_decide_eq_true in Hfilter. exact Hfilter.
Qed.

(** X16.  What [GET /search] answers comes from the full-text index and
    passes every filter.  The index was asked for the query without its
    surrounding white space; the moments returned are moments it
    matched, in its rank order; each has the stage and the type asked
    for, when one is given and not empty, and a podcast that matches
    the podcast filter. *)
Theorem search_results_filtered (db : store) (q : string)
    (stage type_ podcast : option string) (limit : option Z)
    (r : SearchResponse) :
  search json_loads db q stage type_ podcast limit = Return r →
  ∃ ranked,
    moments_fts db (PyStr.strip q) = FtsRows ranked
    ∧ (m_id <$> sr_moments r) `sublist_of` (row_id <$> ranked)
    ∧ Forall (λ mo,
        (PyStr.truthy stage = true → m_stage mo = stage)
        ∧ (PyStr.truthy type_ = true → m_type mo = type_)
        ∧ sql_like_filter podcast (ms_podcast (m_source mo)) = true)
        (sr_moments r).
Proof.
  intros Hret.
  destruct (search_Return _ _ _ _ _ _ _ Hret)
    as (rows & ranked & Hfts & Hsub & Hkeep & Hall).
  exists ranked. split; [exact Hfts|]. split.
  - rewrite (format_all_ids _ _ Hall). apply fmap_sublist, Hsub.
  - refine (format_all_rows _ _ rows _ _ Hall Hkeep).
    intros row mo Hfmt (Hstage & Htype & Hpodcast).
    apply shown_columns in Hfmt as (_ & -> & -> & -> & _).
    split; [apply eq_filter_given, Hstage|].
    split; [apply eq_filter_given, Htype | exact Hpodcast].
Qed.

(** X17.  With a limit the framework accepts, [GET /search] answers
    [400 Query 'q' cannot be empty] exactly when the query is made of
    white space only (the empty query included). *)
Theorem search_blank_query (db : store) (q : string)
    (stage type_ podcast : option string) (limit : option Z) :
  (∀ v, limit = Some v → (1 ≤ v ≤ 20)%Z) →
  search json_loads db q stage type_ podcast limit
  = Raise (HTTPException 400 "Query 'q' cannot be empty")
  ↔ all_chars PyStr.is_space q = true.
Proof.
  intros Hlimit. unfold search.
  destruct (bounded_int_cases 5 1 20 limit) as [[_ ->] | [Hout _]];
    [|contradiction].
  cbn [bind]. rewrite <- (strip_with_empty PyStr.is_space q).
  fold (PyStr.strip q).
  destruct (PyStr.strip q) as [|c fts_query]; [tauto|].
  split; [|discriminate].
  destruct (run_search _ _ _ _) as [e|rows].
  - rewrite append_String. intros [= ].
  - destruct (mapM _ rows) as [moments|]; cbn [or_uncaught bind];
      [|discriminate].
    destruct (mapM validate_Moment moments); cbn [or_invalid bind];
      discriminate.
Qed.

(** X18.  Why [POST /situation] turns a request down before searching:
    a limit outside 1..20 is a validation error; with a limit in range,
    a situation of white space only is [400 'situation' cannot be
    empty], and a situation that is not blank but leaves no keyword is
    [400 No meaningful keywords found in situation description].  Each
    of the three answers is given in that case only. *)
Theorem post_situation_rejections (db : store) (situation : string)
    (stage : option string) (limit : option Z) :
  let answer := post_situation json_loads db situation stage limit in
  let in_range := ∀ v, limit = Some v → (1 ≤ v ≤ 20)%Z in
  (answer = Raise RequestValidationError ↔ ¬ in_range)
  ∧ (answer = Raise (HTTPException 400 "'situation' cannot be empty")
     ↔ in_range ∧ all_chars PyStr.is_space situation = true)
  ∧ (answer = Raise (HTTPException 400
                "No meaningful keywords found in situation description")
     ↔ in_range ∧ all_chars PyStr.is_space situation = false
       ∧ extract_keywords situation = []).
Proof.
  cbn zeta. unfold post_situation, validate_SituationRequest.
  destruct (bounded_int_cases 5 1 20 limit) as [[Hin ->] | [Hout ->]];
    cbn [bind].
  2: { split; [|split]; split; try discriminate; try tauto. }
  unfold situation_match. cbn [body_situation body_limit body_stage].
  pose proof (strip_with_empty PyStr.is_space situation) as Hblank.
  fold (PyStr.strip situation) in Hblank.
  destruct (PyStr.strip situation) as [|c s].
  { assert (Hall : all_chars PyStr.is_space situation = true)
      by (apply Hblank; reflexivity).
    rewrite Hall. split; [|split]; split; try discriminate; try tauto.
    intros (_ & Hfalse & _). discriminate Hfalse. }
  assert (Hall : all_chars PyStr.is_space situation = false).
  { destruct (all_chars PyStr.is_space situation); [|reflexivity].
    assert (Hne : String c s = "") by (apply Hblank; reflexivity).
    discriminate. }
  rewrite Hall.
  destruct (extract_keywords situation) as [|kw kws].
  { split; [|split]; split; try discriminate; try tauto.
    intros (_ & Hfalse). discriminate Hfalse. }
  assert (Hrest : ∀ answer : outcome SituationResponse,
            answer ≠ Raise RequestValidationError →
            answer ≠ Raise (HTTPException 400 "'situation' cannot be empty") →
            answer ≠ Raise (HTTPException 400
              "No meaningful keywords found in situation description") →
            (answer = Raise RequestValidationError
             ↔ ¬ (∀ v, limit = Some v → (1 ≤ v ≤ 20)%Z))
            ∧ (answer = Raise (HTTPException 400
                                 "'situation' cannot be empty")
               ↔ (∀ v, limit = Some v → (1 ≤ v ≤ 20)%Z) ∧ false = true)
            ∧ (answer = Raise (HTTPException 400
                  "No meaningful keywords found in situation description")
               ↔ (∀ v, limit = Some v → (1 ≤ v ≤ 20)%Z) ∧ false = false
                 ∧ kw :: kws = [])).
  { intros answer H1 H2 H3. split; [|split]; split; try tauto.
    - intros (_ & Hfalse). discriminate Hfalse.
    - intros (_ & _ & Hfalse). discriminate Hfalse. }
  apply Hrest.
  all: destruct (run_search _ _ _ _) as [e|rows];
    [rewrite append_String; discriminate|].
  all: destruct (mapM _ rows) as [moments|]; cbn [or_uncaught bind];
    [|discriminate].
  all: destruct (mapM validate_Moment moments); cbn [or_invalid bind];
    discriminate.
Qed.

End SearchFacts.

Lemma search_results_filtered_witness :
  ∃ r, search loads_plain demo_store " growth " (Some "idea") None
         (Some "indie") (Some 5%Z) = Return r
       ∧ ∃ ranked,
           moments_fts demo_store (PyStr.strip " growth ") = FtsRows ranked
           ∧ (m_id <$> sr_moments r) `sublist_of` (row_id <$> ranked)
           ∧ Forall (λ mo,
               (PyStr.truthy (Some "idea") = true
                → m_stage mo = Some "idea")
               ∧ (PyStr.truthy None = true → m_type mo = None)
               ∧ sql_like_filter (Some "indie")
                   (ms_podcast (m_source mo)) = true)
               (sr_moments r).
Proof.
  eexists. split; [vm_compute; reflexivity|].
  apply (search_results_filtered loads_plain demo_store " growth "
           (Some "idea") None (Some "indie") (Some 5%Z)).
  vm_compute. reflexivity.
Defined.

Lemma search_blank_query_witness :
  search loads_plain demo_store "   " None None None (Some 5%Z)
  = Raise (HTTPException 400 "Query 'q' cannot be empty").
Proof.
  apply (search_blank_query loads_plain demo_store "   " None None None
           (Some 5%Z)).
  - intros v [= <-]. lia.
  - reflexivity.
Defined.

(** ** More on similarity *)

Section SimilarFacts.

Variable json_loads : string -> option json.

Lemma scored_ids_sublist (source_tag_set : gset key)
    (source_stage : option string) (l : list row) :
  (λ x : nat * nat * row, row_id x.2)
    <$> omap (score_candidate json_loads source_tag_set source_stage) l
  `sublist_of` row_id <$> l.
Proof.
  induction l as [|c l IH]; [constructor|].
  cbn [omap list_omap]. rewrite fmap_cons.
  destruct (score_candidate _ _ _ c) as [x|] eqn:Hscore.
  - apply score_candidate_Some in Hscore as [Hx _].
    rewrite fmap_cons, Hx. apply sublist_skip, IH.
  - apply sublist_cons, IH.
Qed.

Lemma ranked_candidates_NoDup (db : store) (moment_id : string)
    (source_tag_set : gset key) (source_stage : option string) :
  NoDup (row_id <$> moments_table db) →
  NoDup ((λ x : nat * nat * row, row_id x.2)
           <$> ranked_candidates json_loads db moment_id source_tag_set
                 source_stage).
Proof.
  intros Hnodup. unfold ranked_candidates. rewrite sort_desc_perm.
  eapply sublist_NoDup; [|apply scored_ids_sublist].
  eapply sublist_NoDup; [exact Hnodup|].
  apply fmap_sublist. unfold other_moments_with_tags. apply sublist_filter.
Qed.

Lemma format_ranked_ids (xs : list (nat * nat * row))
    (moments : list moment) :
  mapM (λ x : nat * nat * row, shown json_loads x.2) xs = Some moments →
  m_id <$> moments = (λ x : nat * nat * row, row_id x.2) <$> xs.
Proof.
  intros Hall. apply mapM_Some_1 in Hall.
  induction Hall as [|x mo xs moments Hx _ IH]; [reflexivity|].
  rewrite !fmap_cons, IH. f_equal.
  apply shown_fields in Hx as [-> _]. reflexivity.
Qed.

(** X19.  A smaller limit gives a prefix.  When [GET /similar/{id}]
    answers under some limit, it also answers under any accepted limit
    that is not larger, with the same source tags and with the first
    moments of the longer answer, in the same order. *)
Theorem similar_limit_prefix (db : store) (moment_id : string)
    (small large : option Z) (resp : SimilarResponse) :
  (∀ v, small = Some v → (1 ≤ v ≤ 20)%Z) →
  (given_or 5 small ≤ given_or 5 large)%Z →
  similar json_loads db moment_id large = Return resp →
  ∃ resp',
    similar json_loads db moment_id small = Return resp'
    ∧ sim_source_tags resp' = sim_source_tags resp
    ∧ sim_moments resp'
      = take (Z.to_nat (given_or 5 small)) (sim_moments resp).
Proof.
  intros Hsmall Hle Hlarge.
  assert (Hpos : (1 ≤ given_or 5 small)%Z).
  { destruct small as [v|]; [apply (Hsmall v eq_refl) | cbn; lia]. }
  revert Hlarge. unfold similar.
  destruct (bounded_int_cases 5 1 20 small) as [[_ ->] | [Hout _]];
    [|contradiction].
  destruct (bounded_int_cases 5 1 20 large) as [[_ ->] | [_ ->]];
    cbn [bind]; [|discriminate].
  destruct (fetch_by_id db moment_id) as [source|]; [|discriminate].
  destruct (load_tags json_loads source) as [v|]; cbn [or_uncaught bind];
    [|discriminate].
  destruct (negb (truthy_json v)).
  { intros [= <-]. eexists. split; [reflexivity|]. split; [reflexivity|].
    cbn [sim_moments]. rewrite take_nil. reflexivity. }
  destruct (py_set v) as [source_tag_set|]; cbn [or_uncaught bind];
    [|discriminate].
  rewrite !slice_to_take by lia.
  destruct (mapM _ (take (Z.to_nat (given_or 5 large)) _)) as [top|]
    eqn:Htop; cbn [or_uncaught bind]; [|discriminate].
  destruct (as_str_list v) as [tags|]; cbn [or_invalid bind];
    [|discriminate].
  destruct (mapM validate_Moment top) as [validated|] eqn:Hvalid;
    cbn [or_invalid bind]; [|discriminate].
  intros [= <-]. cbn [sim_source_tags sim_moments].
  apply (mapM_take _ _ _ (Z.to_nat (given_or 5 small))) in Htop.
  rewrite take_take, Nat.min_l in Htop by lia.
  rewrite Htop. cbn [or_uncaught bind].
  rewrite (mapM_take _ _ _ (Z.to_nat (given_or 5 small)) Hvalid).
  cbn [or_invalid bind].
  eexists. split; [reflexivity|]. split; reflexivity.
Qed.

(** X20.  [GET /similar/{id}] never lists a moment twice: over a table
    whose identifiers are unique, the identifiers of the moments it
    returns are pairwise different. *)
Theorem similar_no_repeats (db : store) (moment_id : string)
    (limit : option Z) (resp : SimilarResponse) :
  NoDup (row_id <$> moments_table db) →
  similar json_loads db moment_id limit = Return resp →
  NoDup (m_id <$> sim_moments resp).
Proof.
  intros Hnodup Hresp.
  destruct (similar_found json_loads _ _ _ _ Hresp) as [source Hfetch].
  destruct (similar_Return json_loads _ _ _ _ _ Hfetch Hresp)
    as (_ & _ & Hmap).
  rewrite (format_ranked_ids _ _ Hmap).
  eapply sublist_NoDup; [apply ranked_candidates_NoDup, Hnodup|].
  apply fmap_sublist, sublist_take.
Qed.

(** X21.  [GET /moments/{id}] answers [404] exactly when no record
    carries the identifier, and a moment it returns carries the
    identifier asked for and is the formatting of a record of the
    table. *)
Theorem get_moment_outcomes (db : store) (moment_id : string) :
  (get_moment json_loads db moment_id
   = Raise (HTTPException 404 ("Moment '" +:+ moment_id +:+ "' not found"))
   ↔ ∀ r, r ∈ moments_table db → row_id r ≠ moment_id)
  ∧ ∀ mo, get_moment json_loads db moment_id = Return mo →
          m_id mo = moment_id
          ∧ ∃ r, r ∈ moments_table db
                 ∧ shown json_loads r = Some mo.
Proof.
  unfold get_moment.
  destruct (fetch_by_id db moment_id) as [r|] eqn:Hfetch.
  - apply (fetch_by_id_Some json_loads) in Hfetch as [Hin Hid]. split.
    + split.
      * destruct (format_moment json_loads r) as [d|];
          cbn [or_uncaught bind]; [|discriminate].
        destruct (validate_Moment d); discriminate.
      * intros Hnone. destruct (Hnone r Hin Hid).
    + intros mo Hmo.
      assert (Hshown : shown json_loads r = Some mo).
      { unfold shown.
        destruct (format_moment json_loads r) as [d|];
          cbn [or_uncaught bind mbind option_bind] in Hmo |- *;
          [|discriminate].
        destruct (validate_Moment d); [|discriminate].
        injection Hmo as ->. reflexivity. }
      split; [|exists r; split; assumption].
      apply shown_fields in Hshown as [-> _]. exact Hid.
  - split; [|discriminate]. split; [|reflexivity].
    intros _ r Hin Hid. unfold fetch_by_id in Hfetch.
    assert (Hr : r ∈ filter (λ r0, row_id r0 = moment_id) (moments_table db))
      by (apply list_elem_of_filter; auto).
    destruct (filter _ (moments_table db)); [inversion Hr | discriminate].
Qed.

Lemma search_accepts (db : store) (q : string)
    (stage type_ podcast : option string) (limit : Z) :
  (1 ≤ limit ≤ 20)%Z →
  search json_loads db q stage type_ podcast (Some limit)
  ≠ Raise RequestValidationError.
Proof.
  intros Hin. unfold search. rewrite bounded_int_inside by exact Hin.
  cbn [bind]. destruct (PyStr.strip q); [discriminate|].
  destruct (run_search _ _ _ _) as [e|rows]; [discriminate|].
  destruct (mapM _ rows) as [moments|]; cbn [or_uncaught bind];
    [|discriminate].
  destruct (mapM validate_Moment moments); discriminate.
Qed.

Lemma post_situation_accepts (db : store) (situation : string)
    (stage : option string) (limit : Z) :
  (1 ≤ limit ≤ 20)%Z →
  post_situation json_loads db situation stage (Some limit)
  ≠ Raise RequestValidationError.
Proof.
  intros Hin. unfold post_situation, validate_SituationRequest.
  rewrite bounded_int_inside by exact Hin. cbn [bind].
  unfold situation_match. destruct (PyStr.strip _); [discriminate|].
  destruct (extract_keywords _); [discriminate|].
  destruct (run_search _ _ _ _) as [e|rows]; [discriminate|].
  destruct (mapM _ rows) as [moments|]; cbn [or_uncaught bind];
    [|discriminate].
  destruct (mapM validate_Moment moments); discriminate.
Qed.

Lemma similar_accepts (db : store) (moment_id : string) (limit : Z) :
  (1 ≤ limit ≤ 20)%Z →
  similar json_loads db moment_id (Some limit)
  ≠ Raise RequestValidationError.
Proof.
  intros Hin. unfold similar. rewrite bounded_int_inside by exact Hin.
  cbn [bind]. destruct (fetch_by_id _ _) as [source|]; [|discriminate].
  destruct (load_tags json_loads source) as [v|];
    cbn [or_uncaught bind]; [|discriminate].
  destruct (negb (truthy_json v)); [discriminate|].
  destruct (py_set v); cbn [or_uncaught bind]; [|discriminate].
  destruct (mapM _ _) as [top|]; cbn [or_uncaught bind]; [|discriminate].
  destruct (as_str_list v); cbn [or_invalid bind]; [|discriminate].
  destruct (mapM validate_Moment top); discriminate.
Qed.

(** X22.  The agent tools never get a validation error back: whatever
    limit an agent passes, [search_experience] and
    [find_similar_experiences] send the API a limit it accepts, so
    neither reports the rejection a client gets for a limit out of
    range. *)
Theorem tools_never_rejected (db : store) (situation moment_id : string)
    (stage type_ : option string) (limit : Z) :
  search_experience json_loads db situation stage type_ limit
  ≠ ErrorText RequestValidationError
  ∧ find_similar_experiences json_loads db moment_id limit
    ≠ ErrorText RequestValidationError.
Proof.
  split.
  - unfold search_experience. destruct (PyStr.truthy type_).
    + pose proof (search_accepts db situation stage type_ None
                    (Z.max 1 (Z.min limit 10)) ltac:(lia)) as Hok.
      destruct (search _ _ _ _ _ _ _) as [data|e]; [discriminate|].
      intros [= ->]. apply Hok. reflexivity.
    + pose proof (post_situation_accepts db situation
                    (if PyStr.truthy stage then stage else None)
                    (Z.max 1 (Z.min limit 10)) ltac:(lia)) as Hok.
      destruct (post_situation _ _ _ _ _) as [data|e]; [discriminate|].
      intros [= ->]. apply Hok. reflexivity.
  - unfold find_similar_experiences.
    pose proof (similar_accepts db moment_id (Z.max 1 (Z.min limit 5))
                  ltac:(lia)) as Hok.
    destruct (similar _ _ _ _) as [data|e]; [discriminate|].
    intros [= ->]. apply Hok. reflexivity.
Qed.

End SimilarFacts.

Lemma similar_limit_prefix_witness :
  ∃ resp resp',
    similar loads_plain crowd_store "m0" (Some 6%Z) = Return resp
    ∧ similar loads_plain crowd_store "m0" (Some 2%Z) = Return resp'
    ∧ sim_moments resp' = take 2 (sim_moments resp).
Proof.
  eexists.
  destruct (similar_limit_prefix loads_plain crowd_store "m0" (Some 2%Z)
              (Some 6%Z) _
              ltac:(intros v [= <-]; lia) ltac:(cbn; lia)
              ltac:(vm_compute; reflexivity))
    as (resp' & Hsmall & _ & Hprefix).
  exists resp'. split; [reflexivity|]. split; [exact Hsmall | exact Hprefix].
Defined.

Lemma similar_no_repeats_witness :
  ∃ resp, similar loads_plain demo_store "m0" None = Return resp
          ∧ NoDup (m_id <$> sim_moments resp).
Proof.
  eexists. split; [vm_compute; reflexivity|].
  apply (similar_no_repeats loads_plain demo_store "m0" None).
  - apply (bool_decide_unpack _). vm_compute. exact I.
  - vm_compute. reflexivity.
Defined.

(** ** Situation matching and the search tool *)

Section SituationFacts.

Variable json_loads : string -> option json.

Lemma post_situation_Return (db : store) (situation : string)
    (stage : option string) (limit : option Z) (r : SituationResponse) :
  post_situation json_loads db situation stage limit = Return r →
  ∃ body, body_situation body = situation ∧ body_stage body = stage
          ∧ situation_match json_loads db body = Return r.
Proof.
  unfold post_situation, validate_SituationRequest.
  destruct (bounded_int 5 1 20 limit) as [lim|e]; cbn [bind];
    [|discriminate].
  intros Hret. eexists. split; [|split; [|exact Hret]]; reflexivity.
Qed.

(** X23.  What [POST /situation] answers: the keywords it reports are
    the extractor's output on the situation, and there is at least one;
    the index was asked for these keywords joined by [ OR ]; the moments
    returned are moments the index matched, in its rank order; and each
    has the stage asked for, when one is given and not empty. *)
Theorem situation_results (db : store) (situation : string)
    (stage : option string) (limit : option Z) (r : SituationResponse) :
  post_situation json_loads db situation stage limit = Return r →
  sit_query_keywords r = extract_keywords situation
  ∧ sit_query_keywords r ≠ []
  ∧ ∃ ranked,
      moments_fts db (PyStr.join " OR " (extract_keywords situation))
      = FtsRows ranked
      ∧ (m_id <$> sit_moments r) `sublist_of` (row_id <$> ranked)
      ∧ Forall (λ mo, PyStr.truthy stage = true → m_stage mo = stage)
          (sit_moments r).
Proof.
  intros Hret.
  destruct (post_situation_Return _ _ _ _ _ Hret)
    as (body & Hsituation & Hstage & Hmatch).
  destruct (situation_match_Return json_loads _ _ _ Hmatch)
    as (Hkws & Hsome & rows & ranked & Hfts & Hsub & Hkeep & Hall).
  rewrite Hsituation in Hkws. rewrite Hstage in Hkeep.
  split; [exact Hkws|]. split; [exact Hsome|].
  exists ranked. rewrite <- Hkws. split; [exact Hfts|]. split.
  - rewrite (format_all_ids json_loads _ _ Hall). apply fmap_sublist, Hsub.
  - refine (format_all_rows json_loads _ _ rows _ _ Hall Hkeep).
    intros row mo Hfmt Hrow.
    apply shown_columns in Hfmt as (_ & -> & _).
    apply eq_filter_given, Hrow.
Qed.

(** X24.  How [search_experience] routes a request.  With a type given,
    it answers from [GET /search]: no keyword header, and every moment
    has that type.  Without one, it answers from [POST /situation]: the
    header holds the keywords extracted from the situation, at least
    one.  Either way every moment has the stage asked for, when one is
    given and not empty. *)
Theorem search_experience_routes (db : store) (situation : string)
    (stage type_ : option string) (limit : Z) (header : list string)
    (moments : list moment) :
  search_experience json_loads db situation stage type_ limit
  = Experiences header moments →
  Forall (λ mo, PyStr.truthy stage = true → m_stage mo = stage) moments
  ∧ (if PyStr.truthy type_
     then header = [] ∧ Forall (λ mo, m_type mo = type_) moments
     else header = extract_keywords situation ∧ header ≠ []).
Proof.
  unfold search_experience. destruct (PyStr.truthy type_) eqn:Htype.
  - destruct (search _ _ _ _ _ _ _) as [data|e] eqn:Hret; [|discriminate].
    intros [= <- <-].
    destruct (search_Return json_loads _ _ _ _ _ _ _ Hret)
      as (rows & ranked & _ & _ & Hkeep & Hall).
    split; [|split; [reflexivity|]].
    + refine (format_all_rows json_loads _ _ rows _ _ Hall Hkeep).
      intros row mo Hfmt (Hstage & _).
      apply shown_columns in Hfmt as (_ & -> & _).
      apply eq_filter_given, Hstage.
    + refine (format_all_rows json_loads _ _ rows _ _ Hall Hkeep).
      intros row mo Hfmt (_ & Hty & _).
      apply shown_columns in Hfmt as (_ & _ & -> & _).
      apply eq_filter_given; assumption.
  - destruct (post_situation _ _ _ _ _) as [data|e] eqn:Hret;
      [|discriminate].
    intros [= <- <-].
    destruct (post_situation_Return _ _ _ _ _ Hret)
      as (body & Hsituation & Hstage & Hmatch).
    destruct (situation_match_Return json_loads _ _ _ Hmatch)
      as (Hkws & Hsome & rows & ranked & _ & _ & Hkeep & Hall).
    rewrite Hsituation in Hkws. rewrite Hstage in Hkeep.
    split; [|split; assumption].
    refine (format_all_rows json_loads _ _ rows _ _ Hall Hkeep).
    intros row mo Hfmt Hrow Hgiven. rewrite Hgiven in Hrow.
    apply shown_columns in Hfmt as (_ & -> & _).
    apply eq_filter_given; assumption.
Qed.

End SituationFacts.

Lemma situation_results_witness :
  ∃ r, post_situation loads_plain demo_store
         "How should we think about growth?" (Some "idea") None = Return r
       ∧ sit_query_keywords r = ["growth"].
Proof.
  eexists. split; [vm_compute; reflexivity|].
  destruct (situation_results loads_plain demo_store
              "How should we think about growth?" (Some "idea") None _
              ltac:(vm_compute; reflexivity)) as (Hkws & _).
  exact Hkws.
Defined.

Lemma search_experience_routes_witness :
  ∃ header moments,
    search_experience loads_plain demo_store "growth" (Some "idea")
      (Some "lesson") 50%Z = Experiences header moments
    ∧ header = []
    ∧ Forall (λ mo, m_type mo = Some "lesson") moments.
Proof.
  eexists. eexists. split; [vm_compute; reflexivity|].
  apply (search_experience_routes loads_plain demo_store "growth"
           (Some "idea") (Some "lesson") 50%Z).
  vm_compute. reflexivity.
Defined.

(** ** What the builds leave in the table *)

Lemma resolve_source_clean (moment : raw_moment) (meta : source_fields)
    (src : source) :
  resolve_source moment meta = Some src →
  PyStr.startswith "ytsearch1:" (src_url src) = false
  ∧ PyStr.contains "TODO" (src_guest src) = false.
Proof.
  unfold resolve_source.
  destruct (py_or (get (f_url meta)) _) as [url0|];
    cbn [mbind option_bind]; [|discriminate].
  destruct (py_or (get (f_guest meta)) _) as [guest0|];
    cbn [mbind option_bind]; [|discriminate].
  destruct (if PyStr.contains "TODO" guest0 then _ else _) as [guest1|];
    cbn [mbind option_bind]; [|discriminate].
  intros [= <-]. cbn [src_url src_guest]. split.
  - destruct (PyStr.startswith "ytsearch1:" url0) eqn:Hurl;
      [reflexivity | exact Hurl].
  - destruct (PyStr.contains "TODO" guest1) eqn:Hguest;
      [reflexivity | exact Hguest].
Qed.

Section StoredRows.

Variable uuid4 : nat -> string.
Variable json_dumps : list string -> string.

(** X25.  What a full build never stores.  In a build that completes,
    every record has a type and a summary, a source URL that does not
    start with [ytsearch1:] and a guest without [TODO] in it. *)
Theorem build_db_rows_clean (episode_dirs : list episode)
    (st : build_state) :
  build_db uuid4 json_dumps episode_dirs = Some st →
  Forall (λ r,
    is_Some (row_type r) ∧ is_Some (row_summary r)
    ∧ ∃ url guest,
        row_source_url r = Some url
        ∧ PyStr.startswith "ytsearch1:" url = false
        ∧ row_guest r = Some guest
        ∧ PyStr.contains "TODO" guest = false) (table st).
Proof.
  intros Hbuild. apply build_db_loop in Hbuild as [Hbuild _]. revert Hbuild.
  apply (for_each_invariant (ingest_episode uuid4 json_dumps)
           (λ s, Forall _ (table s))); [|constructor].
  intros s ep s' Hs. unfold ingest_episode.
  destruct (ep_moments ep) as [| |[|m moments]];
    try (intros [= <-]; exact Hs).
  revert Hs.
  apply (for_each_invariant
           (ingest_moment uuid4 json_dumps (ep_meta ep))
           (λ s, Forall _ (table s))).
  clear. intros s moment s' Hs. unfold ingest_moment.
  destruct (resolve_source moment (ep_meta ep)) as [src|] eqn:Hsrc;
    cbn [mbind option_bind]; [|discriminate].
  destruct (build_url_at_moment _ _) as [url_at|];
    cbn [mbind option_bind]; [|discriminate].
  destruct (sql_insert _ _) as [t'|] eqn:Hins; cbn [mbind option_bind];
    [|discriminate].
  intros [= <-]. cbn [table].
  destruct (sql_insert_not_null _ _ _ Hins) as [Htype Hsummary].
  apply sql_insert_Some in Hins as [-> _].
  apply resolve_source_clean in Hsrc as [Hurl Hguest].
  apply Forall_app. split; [exact Hs|]. constructor; [|constructor].
  split; [exact Htype|]. split; [exact Hsummary|].
  exists (src_url src), (src_guest src). auto.
Qed.

(** X26.  What the sample build stores.  In a sample build that
    completes there is one record per entry of the sample file, and
    [total] counts them; every record has a type and a summary, holds
    its entry's encoded tags and the entry's own source URL as it
    stands, and its URL at the moment is derived from that URL and the
    stored timestamp. *)
Theorem build_sample_db_rows (sample : list raw_moment)
    (st : build_state) :
  build_sample_db uuid4 json_dumps sample = Some st →
  total st = length sample
  ∧ Forall2 (λ m r,
      is_Some (row_type r) ∧ is_Some (row_summary r)
      ∧ row_tags r = Some (json_dumps (mo_tags m))
      ∧ row_source_url r = get (f_url (default no_fields (mo_source m)))
      ∧ build_url_at_moment (row_source_url r) (row_timestamp r)
        = Some (row_url_at_moment r))
      sample (table st).
Proof.
  unfold build_sample_db. intros Hbuild.
  pose proof (for_each_trace (ingest_sample uuid4 json_dumps)
    (λ done s,
       total s = length done
       ∧ Forall2 (λ m r,
           is_Some (row_type r) ∧ is_Some (row_summary r)
           ∧ row_tags r = Some (json_dumps (mo_tags m))
           ∧ row_source_url r
             = get (f_url (default no_fields (mo_source m)))
           ∧ build_url_at_moment (row_source_url r) (row_timestamp r)
             = Some (row_url_at_moment r))
           done (table s))) as Htrace.
  apply (Htrace) with (done := []) (st := empty_build) in Hbuild.
  - exact Hbuild.
  - clear. intros done s m s' [Htotal Hrows]. unfold ingest_sample.
    destruct (build_url_at_moment _ _) as [url_at|] eqn:Hurl_at;
      cbn [mbind option_bind]; [|discriminate].
    destruct (match get (mo_id m) with
              | Some (String _ _ as given) => (given, uuids_drawn s)
              | _ => (uuid4 (uuids_drawn s), S (uuids_drawn s))
              end) as [moment_id drawn].
    destruct (sql_insert _ _) as [t'|] eqn:Hins; cbn [mbind option_bind];
      [|discriminate].
    intros [= <-]. cbn [total table].
    destruct (sql_insert_not_null _ _ _ Hins) as [Htype Hsummary].
    apply sql_insert_Some in Hins as [-> _].
    split; [rewrite length_app, Htotal; cbn; lia|].
    apply Forall2_app; [exact Hrows|]. constructor; [|constructor].
    split; [exact Htype|]. split; [exact Hsummary|].
    cbn [row_tags row_source_url row_url_at_moment row_timestamp].
    split; [reflexivity|]. split; [reflexivity|].
    rewrite <- Hurl_at.
    destruct (f_url (default no_fields (mo_source m))) as [| |[|c u]];
      reflexivity.
  - split; [reflexivity | constructor].
Qed.

End StoredRows.

Lemma build_db_rows_clean_witness :
  Forall (λ r,
    is_Some (row_type r) ∧ is_Some (row_summary r)
    ∧ ∃ url guest,
        row_source_url r = Some url
        ∧ PyStr.startswith "ytsearch1:" url = false
        ∧ row_guest r = Some guest
        ∧ PyStr.contains "TODO" guest = false)
    (table (default empty_build
              (build_db demo_uuid4 dumps_plain demo_episodes))).
Proof.
  apply (build_db_rows_clean demo_uuid4 dumps_plain demo_episodes).
  vm_compute. reflexivity.
Defined.

Lemma build_sample_db_rows_witness :
  ∃ st, build_sample_db demo_uuid4 dumps_plain demo_sample_file = Some st
        ∧ total st = 2.
Proof.
  eexists. split; [vm_compute; reflexivity|].
  apply (build_sample_db_rows demo_uuid4 dumps_plain demo_sample_file).
  vm_compute. reflexivity.
Defined.
